(** * Liquid-handling robot: motion choreography over a line protocol

    A shallow embedding of [software/src/deck.py], [software/src/labware.py],
    [software/src/robot.py] and of the protocol step executor and protocol
    runner of [software/gui.py], followed by the properties of the command
    sequences the choreography sends to the firmware.

    Numbers are IEEE binary64 values, as Python's [float] (the integer
    entries of the layout and labware tables are read as floats); Python
    [int]s are [Z]; dictionaries are [gmap]s; text received from the serial
    port is a byte string.  Well names, syringe names and slot identifiers
    are taken to be ASCII text. *)

From Stdlib Require Import ZArith List String Ascii Floats Lia DecimalString.
From stdpp Require Import gmap strings.
Import ListNotations.

Set Warnings "-inexact-float".
Local Open Scope string_scope.
Local Open Scope list_scope.
Local Open Scope Z_scope.

(** ** Python values and built-ins used by the sources *)

Module Py.

(** Scalar values that reach the robot through untyped parameters (JSON
    scalars of a step record, keyword arguments): [None], a number or a
    string. *)
Inductive pyval :=
| PNone
| PFloat (f : float)
| PStr (s : string).

Definition is_none (v : pyval) : bool :=
  match v with PNone => true | _ => false end.

(** Exceptions, one constructor per [raise] site or failing built-in. *)
Inductive exn :=
| SerialNotConnected                (* RuntimeError, _ensure_connected *)
| FirmwareError (line : string)     (* RuntimeError "Firmware error: ..." *)
| UnknownSyringe (name : pyval)     (* KeyError, set_syringe / _get_syringe *)
| NoSyringeSelected                 (* RuntimeError, _get_syringe *)
| MissingTipZ                       (* RuntimeError, pick_up_tip *)
| MissingScrapeZ                    (* RuntimeError, drop_tip_scrape *)
| BadEdge                           (* ValueError "edge must be 'left' or 'right'." *)
| UBaseBelowMin                     (* ValueError "u_base below syringe u_min." *)
| UTravelExceedsMax                 (* ValueError "U travel exceeds syringe u_max, ..." *)
| MissingCurrentXYHeights           (* ValueError, aspirate / dispense *)
| RowOutOfRange (well : string)     (* ValueError "Row out of range: ..." *)
| ColumnOutOfRange (well : string)  (* ValueError "Column out of range: ..." *)
| KeyError (key : pyval)            (* dict[key] on a missing key *)
| IndexError                        (* well[0] on the empty string *)
| AttributeError                    (* a str method on a non-string *)
| TypeError                         (* float(None) *)
| IntLiteralError (s : string)      (* ValueError, int(str): bad literal or too many digits *)
| FloatLiteralError (s : string)    (* ValueError, float(str) *)
| NaNToIntError                     (* ValueError, int(nan) *)
| InfinityToIntError                (* OverflowError, int(inf) *)
| IntTooLargeForFloat               (* OverflowError, int * float *)
| PanelNotConnected                 (* RuntimeError, require_robot *)
| StepNeedsSlot                     (* ValueError, aspirate / dispense step *)
| UnknownStepType (kind : pyval).   (* ValueError "Unknown step type: ..." *)

Inductive pyclass := RuntimeErrorC | ValueErrorC | KeyErrorC | OtherErrorC.

Definition class_of (e : exn) : pyclass :=
  match e with
  | SerialNotConnected | FirmwareError _ | NoSyringeSelected
  | MissingTipZ | MissingScrapeZ | PanelNotConnected => RuntimeErrorC
  | BadEdge | UBaseBelowMin | UTravelExceedsMax | MissingCurrentXYHeights
  | RowOutOfRange _ | ColumnOutOfRange _ | IntLiteralError _
  | FloatLiteralError _ | NaNToIntError | StepNeedsSlot
  | UnknownStepType _ => ValueErrorC
  | UnknownSyringe _ | KeyError _ => KeyErrorC
  | IndexError | AttributeError | TypeError | InfinityToIntError
  | IntTooLargeForFloat => OtherErrorC
  end.

(** *** Text *)

Definition chars (s : string) : list ascii := list_ascii_of_string s.
Definition text (l : list ascii) : string := string_of_list_ascii l.

Definition code (c : ascii) : N := N_of_ascii c.

(** [str.isspace] on one ASCII character: TAB, LF, VT, FF, CR, the four
    separators 0x1c..0x1f and the space. *)
Definition isspace (c : ascii) : bool :=
  let n := code c in
  ((9 <=? n) && (n <=? 13) || (28 <=? n) && (n <=? 32))%N.

Fixpoint lstrip (l : list ascii) : list ascii :=
  match l with
  | c :: l' => if isspace c then lstrip l' else l
  | [] => []
  end.

Definition rstrip (l : list ascii) : list ascii := rev (lstrip (rev l)).

(** [s.strip()] *)
Definition strip (s : string) : string := text (rstrip (lstrip (chars s))).

Definition upper_char (c : ascii) : ascii :=
  let n := code c in
  if ((97 <=? n) && (n <=? 122))%N then ascii_of_N (n - 32) else c.

Definition lower_char (c : ascii) : ascii :=
  let n := code c in
  if ((65 <=? n) && (n <=? 90))%N then ascii_of_N (n + 32) else c.

(** [s.upper()] and [s.lower()] *)
Definition upper (s : string) : string := text (map upper_char (chars s)).
Definition lower (s : string) : string := text (map lower_char (chars s)).

(** [s.startswith(p)] *)
Definition startswith (p s : string) : bool := String.prefix p s.

(** [p in s] *)
Fixpoint contains (p s : string) : bool :=
  String.prefix p s ||
  match s with
  | EmptyString => false
  | String _ s' => contains p s'
  end.

(** [raw.decode("ascii", errors="ignore")]: bytes above 0x7f are dropped. *)
Definition decode_ascii_ignore (raw : string) : string :=
  text (filter (fun c => (code c <? 128)%N) (chars raw)).

Definition nonempty (s : string) : bool :=
  match s with EmptyString => false | _ => true end.

(** [s.replace(old, new)] for single characters. *)
Definition replace_char (old new : ascii) (l : list ascii) : list ascii :=
  map (fun c => if Ascii.eqb c old then new else c) l.

(** The maximal runs of characters that are not white space; [cur] holds
    the run being read, its last character first. *)
Fixpoint split_runs (cur : list ascii) (l : list ascii) : list (list ascii) :=
  match l with
  | [] => match cur with [] => [] | _ => [rev cur] end
  | c :: l' =>
      if isspace c then
        match cur with
        | [] => split_runs [] l'
        | _ => rev cur :: split_runs [] l'
        end
      else split_runs (c :: cur) l'
  end.

(** [s.split()] *)
Definition split (s : string) : list string := map text (split_runs [] (chars s)).

(** [s.split(sep, 1)] when [sep] occurs in [s]: the text before its first
    occurrence and the text after it. *)
Fixpoint split_once (sep : ascii) (l : list ascii) : option (list ascii * list ascii) :=
  match l with
  | [] => None
  | c :: l' =>
      if Ascii.eqb c sep then Some ([], l')
      else match split_once sep l' with
           | Some (k, v) => Some (c :: k, v)
           | None => None
           end
  end.

(** *** Numbers *)

(** The binary64 value nearest to an integer, ties to even: an infinity
    when the integer lies beyond the largest float. *)
Definition nearest_float (z : Z) : float :=
  SF2Prim (SpecFloat.binary_normalize prec emax z 0 false).

(** Conversion of a Python [int] to [float], as [int * float] does it: an
    integer that rounds beyond the largest float raises [OverflowError]. *)
Definition float_of_int (z : Z) : exn + float :=
  let f := nearest_float z in
  if PrimFloat.is_infinity f then inl IntTooLargeForFloat else inr f.

(** Truth value of an [Optional[float]]: [None], [0.0] and [-0.0] are false. *)
Definition truthy (v : option float) : bool :=
  match v with
  | Some f => negb (PrimFloat.eqb f 0)
  | None => false
  end.

(** [a or b] for an optional float [a] and a float [b]. *)
Definition or_else (a : option float) (b : float) : float :=
  match a with
  | Some f => if truthy a then f else b
  | None => b
  end.

(** [int(x)] for a float [x]: truncation toward zero; [nan] and the
    infinities raise. *)
Definition int_of_float (x : float) : exn + Z :=
  match Prim2SF x with
  | SpecFloat.S754_zero _ => inr 0
  | SpecFloat.S754_finite s m e =>
      let mag := if (0 <=? e)%Z then Z.shiftl (Zpos m) e
                 else Z.shiftr (Zpos m) (- e) in
      inr (if s then - mag else mag)
  | SpecFloat.S754_infinity _ => inl InfinityToIntError
  | SpecFloat.S754_nan => inl NaNToIntError
  end.

Definition is_digit (c : ascii) : bool :=
  let n := code c in ((48 <=? n) && (n <=? 57))%N.

Definition digit_val (c : ascii) : Z := Z.of_N (code c) - 48.

(** Digits of an integer literal, with single underscores allowed between
    digits; [after_digit] tells whether the previous character was a digit. *)
Fixpoint int_digits (after_digit : bool) (acc : Z) (l : list ascii) : option Z :=
  match l with
  | [] => if after_digit then Some acc else None
  | c :: l' =>
      if is_digit c then int_digits true (10 * acc + digit_val c) l'
      else if (code c =? 95)%N && after_digit then
        match l' with
        | d :: _ => if is_digit d then int_digits false acc l' else None
        | [] => None
        end
      else None
  end.

(** White space of [int(s)] on ASCII text: TAB, LF, VT, FF, CR and the
    space.  The separators 0x1c..0x1f, which [str.strip] removes, are not
    white space here. *)
Definition int_space (c : ascii) : bool :=
  let n := code c in ((9 <=? n) && (n <=? 13) || (n =? 32))%N.

Fixpoint skip_int_space (l : list ascii) : list ascii :=
  match l with
  | c :: l' => if int_space c then skip_int_space l' else l
  | [] => []
  end.

(** [sys.int_info.default_max_str_digits]: the most digits [int(s)] reads.
    The sources do not change the limit. *)
Definition max_str_digits : Z := 4300.

Fixpoint count_digits (l : list ascii) : Z :=
  match l with
  | c :: l' => (if is_digit c then 1 else 0) + count_digits l'
  | [] => 0
  end.

(** The digits of [int(s)] after the sign: a literal with more than
    [max_str_digits] digits is refused, whatever its value. *)
Definition int_body (l : list ascii) : option Z :=
  match int_digits false 0 l with
  | Some n => if max_str_digits <? count_digits l then None else Some n
  | None => None
  end.

(** [int(s)] for ASCII text [s]: surrounding white space, an optional sign,
    then decimal digits.  [None] is the [ValueError] of [int]. *)
Definition int_of_str (s : string) : option Z :=
  match rev (skip_int_space (rev (skip_int_space (chars s)))) with
  | c :: l =>
      if Ascii.eqb c "+" then int_body l
      else if Ascii.eqb c "-" then option_map Z.opp (int_body l)
      else int_body (c :: l)
  | [] => None
  end.

(** Decimal digits of a natural number, and of an integer ([str(n)]). *)
Definition decimal (n : Z) : string := NilZero.string_of_uint (N.to_uint (Z.to_N n)).

Definition str_int (n : Z) : string :=
  if (n <? 0)%Z then ("-" ++ decimal (- n))%string else decimal n.

(** [num / den] rounded to the nearest integer, ties to even. *)
Definition round_half_even (num den : Z) : Z :=
  let q := num / den in
  let r := num mod den in
  if 2 * r <? den then q
  else if den <? 2 * r then q + 1
  else if Z.even q then q else q + 1.

Fixpoint zeros (n : nat) : string :=
  match n with O => "" | S n' => String "0" (zeros n') end.

(** The digits of [n / 10^digits] with [digits] decimals. *)
Definition fixed_digits (digits : nat) (n : Z) : string :=
  let p := 10 ^ Z.of_nat digits in
  let frac := decimal (n mod p) in
  (decimal (n / p) ++
   match digits with
   | O => ""
   | _ => "." ++ zeros (digits - String.length frac) ++ frac
   end)%string.

(** [format(v, ".{digits}f")]: the exact binary value, correctly rounded to
    [digits] decimals, ties to even; the sign of a negative value stays when
    it rounds to zero. *)
Definition format_fixed (digits : nat) (v : float) : string :=
  let sign (s : bool) : string := if s then "-" else "" in
  match Prim2SF v with
  | SpecFloat.S754_nan => "nan"
  | SpecFloat.S754_infinity s => (sign s ++ "inf")%string
  | SpecFloat.S754_zero s => (sign s ++ fixed_digits digits 0)%string
  | SpecFloat.S754_finite s m e =>
      let p := 10 ^ Z.of_nat digits in
      let scaled := if (0 <=? e)%Z then Zpos m * 2 ^ e * p
                    else round_half_even (Zpos m * p) (2 ^ (- e)) in
      (sign s ++ fixed_digits digits scaled)%string
  end.

End Py.

Import Py.

(** ** Deck layout ([deck.py]) *)

Record DeckSlot := MkDeckSlot {
  slot_id : string;
  x_deck : float;
  y_deck : float
}.

Record Deck := MkDeck {
  origin_x : float;
  origin_y : float;
  slots : gmap string DeckSlot
}.

(** [DECK_LAYOUT]: the machine position of the deck origin and the centre
    of each slot in deck coordinates. *)
Definition DECK_LAYOUT_origin : float * float := ((-8)%float, (-5)%float).

Definition DECK_LAYOUT_slots : list (string * (float * float)) :=
  [ ("1", (90.9, 70.0)); ("2", (242.1, 70.0));
    ("3", (90.9, 170.0)); ("4", (242.1, 170.0));
    ("5", (90.9, 270.0)); ("6", (242.1, 270.0)) ]%float.

(** [Deck.__init__] *)
Definition new_Deck : Deck :=
  MkDeck (fst DECK_LAYOUT_origin) (snd DECK_LAYOUT_origin)
    (list_to_map
       (map (fun '(k, (x, y)) => (k, MkDeckSlot k x y)) DECK_LAYOUT_slots)).

(** [deck.slots[key]]: only a string can be a key of the table. *)
Definition slots_item (d : Deck) (key : pyval) : exn + DeckSlot :=
  match key with
  | PStr k => match slots d !! k with Some s => inr s | None => inl (KeyError key) end
  | _ => inl (KeyError key)
  end.

(** [Deck.deck_to_machine] *)
Definition deck_to_machine (d : Deck) (x_d y_d : float) : float * float :=
  (PrimFloat.add (origin_x d) x_d, PrimFloat.add (origin_y d) y_d).

(** [Deck.slot_center_machine] *)
Definition slot_center_machine (d : Deck) (key : pyval) : exn + (float * float) :=
  match slots_item d key with
  | inr slot => inr (deck_to_machine d (x_deck slot) (y_deck slot))
  | inl e => inl e
  end.

(** ** Labware and syringes ([labware.py]) *)

Record SyringeType := MkSyringe {
  syr_name : string;
  max_volume_ul : float;
  u_per_ul : float;
  u_base : float;
  u_min : option float;
  u_max : option float
}.

Definition Syringe_1ml : SyringeType :=
  MkSyringe "1ml" 1000 0.06 5 (Some 0%float) (Some 65%float).

Definition SYRINGES : gmap string SyringeType := {[ "1ml" := Syringe_1ml ]}.

(** A labware type.  [oid] is the identity of the Python object: the
    choreography compares labware types with [is], so two objects with equal
    fields are still told apart. *)
Record LabwareType := MkLabware {
  oid : positive;
  lw_name : string;
  rows : Z;
  cols : Z;
  pitch_x : float;
  pitch_y : float;
  offset_x : float;
  offset_y : float;
  safe_z : float;
  bottom_z : float;
  aspirate_z : option float;
  dispense_z : option float;
  tip_touch_z : option float;
  tip_press_z : option float;
  tip_full_z : option float;
  scrape_z : option float
}.

Definition is_ (a b : LabwareType) : bool := Pos.eqb (oid a) (oid b).

Record LabwareInstance := MkInstance {
  type_ : LabwareType;
  slot : DeckSlot;
  label : string;
  deck : Deck
}.

(** [well[0]] and [well[1:]] *)
Definition head_tail (s : string) : option (ascii * string) :=
  match s with
  | String c rest => Some (c, rest)
  | EmptyString => None
  end.

(** [LabwareInstance._well_rc] *)
Definition _well_rc (self : LabwareInstance) (well : pyval) : exn + (Z * Z) :=
  match well with
  | PStr w =>
      let well := upper (strip w) in
      match head_tail well with
      | None => inl IndexError
      | Some (row_char, rest) =>
          match int_of_str rest with
          | None => inl (IntLiteralError rest)
          | Some n =>
              let col := n - 1 in
              let row := Z.of_N (code row_char) - Z.of_N (code "A"%char) in
              if negb ((0 <=? row) && (row <? rows (type_ self)))
              then inl (RowOutOfRange well)
              else if negb ((0 <=? col) && (col <? cols (type_ self)))
              then inl (ColumnOutOfRange well)
              else inr (row, col)
          end
      end
  | _ => inl AttributeError
  end.

(** [LabwareInstance.well_position_deck] *)
Definition well_position_deck (self : LabwareInstance) (well : pyval)
  : exn + (float * float) :=
  match _well_rc self well with
  | inl e => inl e
  | inr (r, c) =>
      let t := type_ self in
      match float_of_int c with
      | inl e => inl e
      | inr fc =>
          let x := PrimFloat.add (PrimFloat.add (x_deck (slot self)) (offset_x t))
                                 (PrimFloat.mul fc (pitch_x t)) in
          match float_of_int r with
          | inl e => inl e
          | inr fr =>
              let y := PrimFloat.add (PrimFloat.add (y_deck (slot self)) (offset_y t))
                                     (PrimFloat.mul fr (pitch_y t)) in
              inr (x, y)
          end
      end
  end.

(** [LabwareInstance.well_position_machine] *)
Definition well_position_machine (self : LabwareInstance) (well : pyval)
  : exn + (float * float) :=
  match well_position_deck self well with
  | inl e => inl e
  | inr (x_d, y_d) => inr (deck_to_machine (deck self) x_d y_d)
  end.

Definition LABWARE_TIPRACK_96 : LabwareType :=
  MkLabware 1 "tiprack_96" 8 12 9 9 (-49.7) (-31.5) 100 0
    None None (Some 170%float) (Some 172%float) (Some 176%float) (Some 152%float).

Definition LABWARE_TIPWASTE_BOX : LabwareType :=
  MkLabware 2 "tip_waste_box" 1 1 0 0 0 0 100 0
    None None None None None (Some 170%float).

Definition LABWARE_48WELL_10MM : LabwareType :=
  MkLabware 3 "48well_10mm" 6 8 12.47 12.47 (-43.88) (-32.04) 158 170
    None None None None None None.

Definition LABWARE_BEAKER_1WELL : LabwareType :=
  MkLabware 4 "beaker_1well" 1 1 0 0 0 0 100 150
    (Some 150%float) (Some 150%float) None None None None.

(** ** The serial session ([robot.py], low level) *)

(** One word of a G-code line, as the sources build it before joining the
    parts with single spaces. *)
Inductive word :=
| Lit (s : string)                              (* literal text *)
| Fixed (letter : string) (digits : nat) (v : float)
                                                (* f"{letter}{v:.{digits}f}" *)
| Int (letter : string) (n : Z).                (* f"{letter}{n}" *)

Definition gcode := list word.

Definition render_word (w : word) : string :=
  match w with
  | Lit s => s
  | Fixed letter digits v => (letter ++ format_fixed digits v)%string
  | Int letter n => (letter ++ str_int n)%string
  end.

(** [" ".join(parts)] *)
Definition render (g : gcode) : string := String.concat " " (map render_word g).

(** The bytes [_write_line] puts on the wire for a line. *)
Definition wire (g : gcode) : string :=
  (strip (render g) ++ String (ascii_of_N 10) EmptyString)%string.

(** One [readline()] of the serial port: the bytes it returned (empty when
    the port's read timeout expired) and the reading [time.time()] gives
    once it has returned. *)
Record event := Event { ev_raw : string; ev_clock : float }.

(** The [Robot] object together with the port it talks to.  [rx] is the
    finite part of the firmware's future output that an execution is given;
    [clock] is the reading of [time.time()], which moves on while the port is
    being read; [tx] collects the lines written, oldest first; [log]
    collects what is printed. *)
Record Robot := MkRobot {
  ser_open : bool;
  rx : list event;
  clock : float;
  tx : list gcode;
  log : list string;
  current_syringe : option SyringeType
}.

Definition set_rx (l : list event) (r : Robot) : Robot :=
  MkRobot (ser_open r) l (clock r) (tx r) (log r) (current_syringe r).
Definition set_clock (t : float) (r : Robot) : Robot :=
  MkRobot (ser_open r) (rx r) t (tx r) (log r) (current_syringe r).
Definition push_tx (g : gcode) (r : Robot) : Robot :=
  MkRobot (ser_open r) (rx r) (clock r) (tx r ++ [g])%list (log r) (current_syringe r).
Definition push_log (s : string) (r : Robot) : Robot :=
  MkRobot (ser_open r) (rx r) (clock r) (tx r) (log r ++ [s])%list (current_syringe r).

(** Result of running a method: normal return, a raised exception, or
    [Starved] when the given [rx] ran out while the method was still
    reading. *)
Inductive outcome (A : Type) :=
| Done (a : A)
| Raised (e : exn)
| Starved.
Arguments Done {A} a.
Arguments Raised {A} e.
Arguments Starved {A}.

Definition M (A : Type) : Type := Robot -> outcome A * Robot.

Definition ret {A} (a : A) : M A := fun r => (Done a, r).
Definition raise {A} (e : exn) : M A := fun r => (Raised e, r).
Definition bind {A B} (m : M A) (k : A -> M B) : M B :=
  fun r =>
    match m r with
    | (Done a, r') => k a r'
    | (Raised e, r') => (Raised e, r')
    | (Starved, r') => (Starved, r')
    end.

Declare Scope robot_scope.
Delimit Scope robot_scope with robot.
Notation "x <- m ;; k" := (bind m (fun x => k))
  (at level 100, m at next level, right associativity) : robot_scope.
Notation "m ;; k" := (bind m (fun _ => k))
  (at level 100, right associativity) : robot_scope.
Local Open Scope robot_scope.

(** A pure computation that may fail. *)
Definition lift {A} (o : option A) (e : exn) : M A :=
  match o with Some a => ret a | None => raise e end.

Definition try_ {A} (x : exn + A) : M A :=
  match x with inr a => ret a | inl e => raise e end.

Definition _ensure_connected : M unit :=
  fun r => if ser_open r then (Done tt, r) else (Raised SerialNotConnected, r).

(** [_write_line]: the line goes out when the port is open. *)
Definition _write_line (line : gcode) : M unit :=
  _ensure_connected ;; (fun r => (Done tt, push_tx line r)).

(** [_read_line]: one [readline()], decoded and stripped. *)
Definition _read_line : M string :=
  _ensure_connected ;;
  (fun r =>
     match rx r with
     | [] => (Starved, r)
     | ev :: rest =>
         let r' := set_clock (ev_clock ev) (set_rx rest r) in
         if nonempty (ev_raw ev)
         then (Done (strip (decode_ascii_ignore (ev_raw ev))), r')
         else (Done "", r')
     end).

Definition time_time : M float := fun r => (Done (clock r), r).
Definition print (s : string) : M unit := fun r => (Done tt, push_log s r).

Definition timeout_warning : string :=
  "[WARN] Timeout waiting for 'ok' from firmware, ignore and continue.".

Definition is_error_line (line : string) : bool :=
  startswith "Error" line || contains "error" (lower line).

Definition is_ok_line (line : string) : bool :=
  String.eqb (lower (strip line)) "ok".

(** The tail of the loop body: when a positive timeout is configured and
    has elapsed, warn and return; otherwise go round [again]. *)
Definition check_timeout (start : float) (overall_timeout : option float)
  (again : M unit) : M unit :=
  match overall_timeout with
  | Some tmo =>
      if PrimFloat.ltb 0 tmo then
        now <- time_time ;;
        if PrimFloat.ltb tmo (PrimFloat.sub now start)
        then print timeout_warning
        else again
      else again
  | None => again
  end.

(** The [while True] loop of [_drain_until_ok_or_timeout]; every iteration
    performs one [readline()], so [fuel] beyond the length of [rx] is never
    used up. *)
Fixpoint drain_loop (fuel : nat) (start : float) (overall_timeout : option float)
  : M unit :=
  match fuel with
  | O => fun r => (Starved, r)
  | S fuel' =>
      line <- _read_line ;;
      if nonempty line then
        if is_error_line line then raise (FirmwareError line)
        else if is_ok_line line then ret tt
        else check_timeout start overall_timeout
               (drain_loop fuel' start overall_timeout)
      else check_timeout start overall_timeout
             (drain_loop fuel' start overall_timeout)
  end.

Definition _drain_until_ok_or_timeout (overall_timeout : option float) : M unit :=
  start <- time_time ;;
  (fun r => drain_loop (S (length (rx r))) start overall_timeout r).

(** [send_gcode(gcode, wait_ok, overall_timeout)] *)
Definition send_gcode (g : gcode) (wait_ok : bool) (overall_timeout : option float)
  : M unit :=
  _write_line g ;;
  if wait_ok then _drain_until_ok_or_timeout overall_timeout else ret tt.

Definition default_send_timeout : option float := Some 9999%float.

(** [disconnect()]: the port is closed and forgotten; the rest of the
    object stays as it is. *)
Definition disconnect : M unit :=
  fun r => (Done tt, MkRobot false (rx r) (clock r) (tx r) (log r) (current_syringe r)).

(** ** Motion primitives *)

(** [dwell(seconds)] *)
Definition dwell (seconds : float) : M unit :=
  ms <- try_ (int_of_float (PrimFloat.mul seconds 1000)) ;;
  send_gcode [Lit "G4"; Int "P" ms] true (Some (PrimFloat.add seconds 5)).

(** [home_all(timeout)] *)
Definition home_all (timeout : option float) : M unit :=
  send_gcode [Lit "G28"] true timeout ;;
  send_gcode [Lit "G1 U5 F200"] true default_send_timeout.

Definition is_axis_letter (c : ascii) : bool :=
  existsb (Ascii.eqb c) ["X"; "Y"; "Z"; "U"]%char.

(** [home(axes, timeout)] *)
Definition home (axes : string) (timeout : option float) : M unit :=
  let axes := upper axes in
  let parts := Lit "G28" ::
    map (fun a => Lit (String a EmptyString)) (filter is_axis_letter (chars axes)) in
  send_gcode parts true timeout.

Definition set_absolute_mode : M unit := send_gcode [Lit "G90"] true default_send_timeout.
Definition set_relative_mode : M unit := send_gcode [Lit "G91"] true default_send_timeout.

Definition opt_part (letter : string) (digits : nat) (v : option float) : list word :=
  match v with Some f => [Fixed letter digits f] | None => [] end.

(** [move_to(x, y, z, u, feedrate, overall_timeout)] *)
Definition move_to (x y z u feedrate : option float) (overall_timeout : option float)
  : M unit :=
  let parts := ([Lit "G1"] ++ opt_part "X" 3 x ++ opt_part "Y" 3 y
               ++ opt_part "Z" 3 z ++ opt_part "U" 3 u
               ++ opt_part "F" 0 feedrate)%list in
  send_gcode parts true overall_timeout.

Definition default_move_timeout : option float := Some 999%float.

Definition nonzero_part (letter : string) (d : float) : list word :=
  if negb (PrimFloat.eqb d 0) then [Fixed letter 3 d] else [].

(** [move_relative(dx, dy, dz, du, feedrate, overall_timeout)] *)
Definition move_relative (dx dy dz du : float) (feedrate : option float)
  (overall_timeout : option float) : M unit :=
  set_relative_mode ;;
  let parts := ([Lit "G1"] ++ nonzero_part "X" dx ++ nonzero_part "Y" dy
               ++ nonzero_part "Z" dz ++ nonzero_part "U" du
               ++ opt_part "F" 0 feedrate)%list in
  send_gcode parts true overall_timeout ;;
  set_absolute_mode.

(** ** Position query *)

Section Position.

(** [float(val)] on text is Python's own literal reader; the query is
    parametric in it. *)
Variable float_of_str : string -> option float.

(** One part of the report: [key:val] with [key] one of X, Y, Z, U and a
    [val] that reads as a number sets [pos[key]]; any other part is
    skipped. *)
Definition read_part (pos : gmap string float) (p : string) : gmap string float :=
  match split_once ":" (chars p) with
  | Some (key, val) =>
      if existsb (String.eqb (text key)) ["X"; "Y"; "Z"; "U"] then
        match float_of_str (text val) with
        | Some f => <[text key := f]> pos
        | None => pos
        end
      else pos
  | None => pos
  end.

(** The mapping read from a report line: commas become spaces, the line is
    split at white space and the parts are read in order. *)
Definition read_report (line : string) : gmap string float :=
  fold_left read_part (split (text (replace_char "," " " (chars line)))) ∅.

(** The [for _ in range(n)] loop of [get_position]: the first line holding
    "X:" is the report; empty lines and other lines are passed over. *)
Fixpoint read_position (n : nat) : M (gmap string float) :=
  match n with
  | O => ret ∅
  | S n' =>
      line <- _read_line ;;
      if negb (nonempty line) then read_position n'
      else if contains "X:" line then ret (read_report line)
      else read_position n'
  end.

(** [get_position()] *)
Definition get_position : M (gmap string float) :=
  _ensure_connected ;;
  _write_line [Lit "M114"] ;;
  read_position 20.

End Position.

(** ** Liquid-handling choreography ([robot.py], high level) *)

(** [set_syringe(syringe_name)] *)
Definition set_syringe (syringe_name : string) : M unit :=
  match SYRINGES !! syringe_name with
  | None => raise (UnknownSyringe (PStr syringe_name))
  | Some s =>
      fun r => (Done tt, MkRobot (ser_open r) (rx r) (clock r) (tx r) (log r) (Some s))
  end.

(** [_get_syringe(syringe_name)] *)
Definition _get_syringe (syringe_name : pyval) : M SyringeType :=
  match syringe_name with
  | PNone =>
      fun r =>
        match current_syringe r with
        | None => (Raised NoSyringeSelected, r)
        | Some s => (Done s, r)
        end
  | PStr n =>
      match SYRINGES !! n with
      | None => raise (UnknownSyringe syringe_name)
      | Some s => ret s
      end
  | _ => raise (UnknownSyringe syringe_name)
  end.

(** The label f"{prefix}{slot_id}" of an instance; it is only built after
    the slot lookup succeeded, hence for a string key. *)
Definition label_for (prefix : string) (key : pyval) : string :=
  match key with PStr k => (prefix ++ k)%string | _ => prefix end.

(** Keyword shorthands for [move_to] with the default timeout. *)
Definition move_z (z feedrate : float) : M unit :=
  move_to None None (Some z) None (Some feedrate) default_move_timeout.
Definition move_xy (x y feedrate : float) : M unit :=
  move_to (Some x) (Some y) None None (Some feedrate) default_move_timeout.
Definition move_u (u feedrate : float) : M unit :=
  move_to None None None (Some u) (Some feedrate) default_move_timeout.

(** The body of [for _ in range(n)]. *)
Fixpoint repeat_ (n : nat) (body : M unit) : M unit :=
  match n with
  | O => ret tt
  | S n' => body ;; repeat_ n' body
  end.

(** [pick_up_tip(deck, slot_id, well, n_cycles)] *)
Definition pick_up_tip (deck : Deck) (slot_id well : pyval) (n_cycles : Z) : M unit :=
  slot <- try_ (slots_item deck slot_id) ;;
  let tiprack := MkInstance LABWARE_TIPRACK_96 slot
                   (label_for "tiprack_slot" slot_id) deck in
  let t := type_ tiprack in
  let z_safe := safe_z t in
  match tip_touch_z t, tip_press_z t, tip_full_z t with
  | Some z_touch, Some z_press, Some z_full =>
      set_absolute_mode ;;
      move_z z_safe 750 ;;
      xy <- try_ (well_position_machine tiprack well) ;;
      move_xy (fst xy) (snd xy) 7500 ;;
      move_z z_touch 750 ;;
      dwell 0.2 ;;
      repeat_ (Z.to_nat n_cycles)
        (move_z z_press 600 ;;
         dwell 0.2 ;;
         move_z z_touch 600 ;;
         dwell 0.2) ;;
      move_z z_full 750 ;;
      dwell 0.2 ;;
      move_z z_press 750 ;;
      move_z z_safe 600
  | _, _, _ => raise MissingTipZ
  end.

Definition is_str (v : pyval) (s : string) : bool :=
  match v with PStr s' => String.eqb s' s | _ => false end.

(** [drop_tip_scrape(deck, slot_id, edge, slot_half_width, extra_scrape)] *)
Definition drop_tip_scrape (deck : Deck) (slot_id edge : pyval)
  (slot_half_width extra_scrape : float) : M unit :=
  slot <- try_ (slots_item deck slot_id) ;;
  let waste := MkInstance LABWARE_TIPWASTE_BOX slot
                 (label_for "tipwaste_slot" slot_id) deck in
  let t := type_ waste in
  let z_safe := safe_z t in
  match scrape_z t with
  | None => raise MissingScrapeZ
  | Some z_scrape =>
      c <- try_ (slot_center_machine deck slot_id) ;;
      let cx := fst c in
      let cy := snd c in
      set_absolute_mode ;;
      move_z z_safe 600 ;;
      move_xy cx cy 7500 ;;
      move_z z_scrape 750 ;;
      x_target <-
        (if is_str edge "left"
         then ret (PrimFloat.sub (PrimFloat.sub cx slot_half_width) extra_scrape)
         else if is_str edge "right"
         then ret (PrimFloat.add (PrimFloat.add cx slot_half_width) extra_scrape)
         else raise BadEdge) ;;
      move_xy x_target cy 2000 ;;
      move_z z_safe 600
  end.

Definition default_slot_half_width : float := 64.
Definition default_extra_scrape : float := 20.

Record Feeds := MkFeeds {
  feed_xy : float;
  feed_z_down : float;
  feed_z_up : float;
  feed_u : float
}.

(** Default feed rates of [transfer_volume] and of [aspirate]/[dispense]. *)
Definition transfer_feeds : Feeds := MkFeeds 3000 200 300 200.
Definition aspirate_feeds : Feeds := MkFeeds 7500 600 750 200.

(** Default of the [syringe] argument of [transfer_volume]. *)
Definition default_transfer_syringe : pyval := PStr "10ml".

(** [a is not None and x < a] *)
Definition below_bound (x : float) (bound : option float) : bool :=
  match bound with Some b => PrimFloat.ltb x b | None => false end.

(** [a is not None and x > a] *)
Definition above_bound (x : float) (bound : option float) : bool :=
  match bound with Some b => PrimFloat.ltb b x | None => false end.

(** [transfer_volume(deck, src_slot, src_well, dst_slot, dst_well, volume_ul,
    syringe, feed_xy, feed_z_down, feed_z_up, feed_u)] *)
Definition transfer_volume (deck : Deck) (src_slot src_well dst_slot dst_well : pyval)
  (volume_ul : float) (syringe : pyval) (f : Feeds) : M unit :=
  syr <- _get_syringe syringe ;;
  let dU := PrimFloat.mul volume_ul (u_per_ul syr) in
  let u_base := u_base syr in
  let u_asp := PrimFloat.add u_base dU in
  if below_bound u_base (u_min syr) then raise UBaseBelowMin
  else if above_bound u_asp (u_max syr) then raise UTravelExceedsMax
  else
    s_src <- try_ (slots_item deck src_slot) ;;
    let src_plate := MkInstance LABWARE_48WELL_10MM s_src
                       (label_for "plate_src_slot" src_slot) deck in
    s_dst <- try_ (slots_item deck dst_slot) ;;
    let dst_plate := MkInstance LABWARE_48WELL_10MM s_dst
                       (label_for "plate_dst_slot" dst_slot) deck in
    let t_src := type_ src_plate in
    let t_dst := type_ dst_plate in
    let z_safe_src := safe_z t_src in
    let z_asp := or_else (aspirate_z t_src) (bottom_z t_src) in
    let z_safe_dst := safe_z t_dst in
    let z_disp := or_else (dispense_z t_dst) (bottom_z t_dst) in
    set_absolute_mode ;;
    move_u u_base (feed_u f) ;;
    move_z z_safe_src (feed_z_up f) ;;
    src <- try_ (well_position_machine src_plate src_well) ;;
    move_xy (fst src) (snd src) (feed_xy f) ;;
    move_z z_asp (feed_z_down f) ;;
    move_u u_asp (feed_u f) ;;
    move_z z_safe_src (feed_z_up f) ;;
    move_z z_safe_dst (feed_z_up f) ;;
    dst <- try_ (well_position_machine dst_plate dst_well) ;;
    move_xy (fst dst) (snd dst) (feed_xy f) ;;
    move_z z_disp (feed_z_down f) ;;
    move_u u_base (feed_u f) ;;
    move_z z_safe_dst (feed_z_up f).

(** [move_relative(du=..., feedrate=...)] *)
Definition move_relative_u (du feedrate : float) : M unit :=
  move_relative 0 0 0 du (Some feedrate) default_move_timeout.

(** [deck is not None and slot_id is not None and well is not None] *)
Definition addressed (deck : option Deck) (slot_id well : pyval) : option Deck :=
  match deck with
  | Some d => if negb (is_none slot_id) && negb (is_none well) then Some d else None
  | None => None
  end.

(** [aspirate(volume_ul, syringe, deck, slot_id, labware_type, well, z_safe,
    z_aspirate, feed_xy, feed_z_down, feed_z_up, feed_u)] *)
Definition aspirate (volume_ul : float) (syringe : pyval) (deck : option Deck)
  (slot_id : pyval) (labware_type : LabwareType) (well : pyval)
  (z_safe z_aspirate : option float) (f : Feeds) : M unit :=
  syr <- _get_syringe syringe ;;
  let dU := PrimFloat.mul volume_ul (u_per_ul syr) in
  set_absolute_mode ;;
  match addressed deck slot_id well with
  | Some deck =>
      s <- try_ (slots_item deck slot_id) ;;
      let plate := MkInstance labware_type s (label_for "asp_plate_slot" slot_id) deck in
      let t := type_ plate in
      let z_safe_local := safe_z t in
      let z_asp_local := or_else (aspirate_z t) (bottom_z t) in
      (if is_ labware_type LABWARE_BEAKER_1WELL then
         move_z z_safe_local (feed_z_up f) ;;
         xy <- try_ (well_position_machine plate well) ;;
         move_xy (fst xy) (snd xy) (feed_xy f)
       else
         xy <- try_ (well_position_machine plate well) ;;
         move_xy (fst xy) (snd xy) (feed_xy f)) ;;
      move_z z_asp_local (feed_z_down f) ;;
      move_relative_u dU (feed_u f) ;;
      move_z z_safe_local (feed_z_up f)
  | None =>
      match z_safe, z_aspirate with
      | Some z_safe, Some z_aspirate =>
          move_z z_safe (feed_z_up f) ;;
          move_z z_aspirate (feed_z_down f) ;;
          move_relative_u dU (feed_u f) ;;
          move_z z_safe (feed_z_up f)
      | _, _ => raise MissingCurrentXYHeights
      end
  end.

(** [dispense(volume_ul, syringe, deck, slot_id, labware_type, well, z_safe,
    z_dispense, feed_xy, feed_z_down, feed_z_up, feed_u)] *)
Definition dispense (volume_ul : float) (syringe : pyval) (deck : option Deck)
  (slot_id : pyval) (labware_type : LabwareType) (well : pyval)
  (z_safe z_dispense : option float) (f : Feeds) : M unit :=
  syr <- _get_syringe syringe ;;
  let dU := PrimFloat.mul volume_ul (u_per_ul syr) in
  set_absolute_mode ;;
  match addressed deck slot_id well with
  | Some deck =>
      s <- try_ (slots_item deck slot_id) ;;
      let plate := MkInstance labware_type s (label_for "disp_plate_slot" slot_id) deck in
      let t := type_ plate in
      let z_safe_local := safe_z t in
      let z_disp_local := or_else (dispense_z t) (bottom_z t) in
      (if is_ labware_type LABWARE_BEAKER_1WELL then
         move_z z_safe_local (feed_z_up f) ;;
         xy <- try_ (well_position_machine plate well) ;;
         move_xy (fst xy) (snd xy) (feed_xy f)
       else
         xy <- try_ (well_position_machine plate well) ;;
         move_xy (fst xy) (snd xy) (feed_xy f)) ;;
      move_z z_disp_local (feed_z_down f) ;;
      move_relative_u (PrimFloat.opp dU) (feed_u f) ;;
      move_z z_safe_local (feed_z_up f)
  | None =>
      match z_safe, z_dispense with
      | Some z_safe, Some z_dispense =>
          move_z z_safe (feed_z_up f) ;;
          move_z z_dispense (feed_z_down f) ;;
          move_relative_u (PrimFloat.opp dU) (feed_u f) ;;
          move_z z_safe (feed_z_up f)
      | _, _ => raise MissingCurrentXYHeights
      end
  end.

(** [dispense_to_beaker(deck, slot_id, volume_ul, syringe, ...)] *)
Definition dispense_to_beaker (deck : Deck) (slot_id : pyval) (volume_ul : float)
  (syringe : pyval) (f : Feeds) : M unit :=
  dispense volume_ul syringe (Some deck) slot_id LABWARE_BEAKER_1WELL (PStr "A1")
    None None f.

(** [aspirate_from_beaker(deck, slot_id, volume_ul, syringe, ...)] *)
Definition aspirate_from_beaker (deck : Deck) (slot_id : pyval) (volume_ul : float)
  (syringe : pyval) (f : Feeds) : M unit :=
  aspirate volume_ul syringe (Some deck) slot_id LABWARE_BEAKER_1WELL (PStr "A1")
    None None f.

(** ** Protocol step executor ([gui.py]) *)

Record Step := MkStep {
  step_type : pyval;                 (* step.get("type") *)
  params : gmap string pyval         (* step.get("params", {}) or {} *)
}.

(** The part of the control panel the executor reads. *)
Record Panel := MkPanel {
  robot_connected : bool;            (* self.robot is not None *)
  panel_deck : option Deck;          (* self.deck *)
  var_syringe : string               (* self.var_syringe.get() *)
}.

(** [p[key]] *)
Definition item (p : gmap string pyval) (key : string) : M pyval :=
  lift (p !! key) (KeyError (PStr key)).

(** [p.get(key, default)] *)
Definition get (p : gmap string pyval) (key : string) (default : pyval) : pyval :=
  match p !! key with Some v => v | None => default end.

(** What the panel shows while a protocol runs: lines of its log pane and
    error boxes.  The text of a step and of an exception is left symbolic. *)
Inductive notice :=
| NotConnectedBox                    (* the error box of require_robot *)
| LogRunning                         (* "Running protocol..." *)
| LogStep (idx : Z) (step : Step)    (* f"Step {idx}: {step}" *)
| LogFinished                        (* "Protocol finished." *)
| FailedBox (e : exn)                (* box f"Run protocol failed: {e}" *)
| LogFailed (e : exn).               (* f"[ERROR] Run protocol: {e}" *)

Section Executor.

(** [float(s)] on text is Python's own literal reader; the executor is
    parametric in it. *)
Variable float_of_str : string -> option float.

(** [float(v)] *)
Definition py_float (v : pyval) : exn + float :=
  match v with
  | PFloat f => inr f
  | PStr s =>
      match float_of_str s with
      | Some f => inr f
      | None => inl (FloatLiteralError s)
      end
  | PNone => inl TypeError
  end.

(** [require_robot()] *)
Definition require_robot (g : Panel) : M Deck :=
  match robot_connected g, panel_deck g with
  | true, Some d => ret d
  | _, _ => raise PanelNotConnected
  end.

(** [_run_single_step(step)] *)
Definition _run_single_step (g : Panel) (step : Step) : M unit :=
  deck <- require_robot g ;;
  let params := params step in
  if is_str (step_type step) "home_xyz" then
    home "XYZ" (Some 9999%float)
  else if is_str (step_type step) "pick_tip" then
    slot <- item params "slot" ;;
    well <- item params "well" ;;
    pick_up_tip deck slot well 2
  else if is_str (step_type step) "drop_tip" then
    slot <- item params "slot" ;;
    let edge := get params "edge" (PStr "left") in
    drop_tip_scrape deck slot edge default_slot_half_width default_extra_scrape
  else if is_str (step_type step) "transfer" then
    let p := params in
    let syringe_name := get p "syringe" (PStr (var_syringe g)) in
    src_slot <- item p "src_slot" ;;
    src_well <- item p "src_well" ;;
    dst_slot <- item p "dst_slot" ;;
    dst_well <- item p "dst_well" ;;
    v <- item p "volume_ul" ;;
    volume_ul <- try_ (py_float v) ;;
    transfer_volume deck src_slot src_well dst_slot dst_well volume_ul
      syringe_name transfer_feeds
  else if is_str (step_type step) "aspirate" then
    let p := params in
    let syringe_name := get p "syringe" (PStr (var_syringe g)) in
    v <- item p "volume_ul" ;;
    volume_ul <- try_ (py_float v) ;;
    let slot := get p "slot" PNone in
    let well := get p "well" PNone in
    if is_none slot then raise StepNeedsSlot
    else if negb (is_none well) then
      aspirate volume_ul syringe_name (Some deck) slot LABWARE_48WELL_10MM well
        None None aspirate_feeds
    else
      aspirate_from_beaker deck slot volume_ul syringe_name aspirate_feeds
  else if is_str (step_type step) "dispense" then
    let p := params in
    let syringe_name := get p "syringe" (PStr (var_syringe g)) in
    v <- item p "volume_ul" ;;
    volume_ul <- try_ (py_float v) ;;
    let slot := get p "slot" PNone in
    let well := get p "well" PNone in
    if is_none slot then raise StepNeedsSlot
    else if negb (is_none well) then
      dispense volume_ul syringe_name (Some deck) slot LABWARE_48WELL_10MM well
        None None aspirate_feeds
    else
      dispense_to_beaker deck slot volume_ul syringe_name aspirate_feeds
  else if is_str (step_type step) "dwell" then
    seconds <- try_ (py_float (get params "seconds" (PFloat 1))) ;;
    dwell seconds
  else raise (UnknownStepType (step_type step)).

(** The [for idx, step in enumerate(self.protocol_steps, start=1)] loop of
    [on_run_protocol]: what is shown, how the loop ends and the session it
    leaves.  A step that raises ends the loop. *)
Fixpoint run_steps (g : Panel) (idx : Z) (steps : list Step) (r : Robot)
  : list notice * outcome unit * Robot :=
  match steps with
  | [] => ([], Done tt, r)
  | step :: rest =>
      match _run_single_step g step r with
      | (Done _, r') =>
          let '(shown, o, r'') := run_steps g (idx + 1) rest r' in
          (LogStep idx step :: shown, o, r'')
      | (Raised e, r') => ([LogStep idx step], Raised e, r')
      | (Starved, r') => ([LogStep idx step], Starved, r')
      end
  end.

(** [on_run_protocol()]: every exception is caught, shown in a box and
    logged. *)
Definition on_run_protocol (g : Panel) (steps : list Step) (r : Robot)
  : list notice * outcome unit * Robot :=
  match require_robot g r with
  | (Done _, r0) =>
      match run_steps g 1 steps r0 with
      | (shown, Done _, r') => (LogRunning :: shown ++ [LogFinished], Done tt, r')
      | (shown, Raised e, r') =>
          (LogRunning :: shown ++ [FailedBox e; LogFailed e], Done tt, r')
      | (shown, Starved, r') => (LogRunning :: shown, Starved, r')
      end
  | (Raised e, r0) => ([NotConnectedBox; FailedBox e; LogFailed e], Done tt, r0)
  | (Starved, r0) => ([], Starved, r0)
  end.

End Executor.

(** * Vocabulary of the properties *)

(** ** What an execution sends *)

(** The lines an execution of [m] from [r] adds to [tx]. *)
Definition emitted {A} (m : M A) (r : Robot) : list gcode :=
  drop (length (tx r)) (tx (snd (m r))).

(** Positioning mode of the firmware: [G90] selects absolute coordinates,
    [G91] relative ones, and every other line leaves the mode alone. *)
Inductive mode := Absolute | Relative.

Definition mode_step (m : mode) (g : gcode) : mode :=
  match g with
  | [Lit "G90"] => Absolute
  | [Lit "G91"] => Relative
  | _ => m
  end.

Definition firmware_mode (m0 : mode) (sent : list gcode) : mode :=
  fold_left mode_step sent m0.

(** The mode in force when line [i] of [sent] is executed. *)
Definition mode_at (m0 : mode) (sent : list gcode) (i : nat) : mode :=
  firmware_mode m0 (take i sent).

(** [sends_from r m plan]: run from [r], [m] only appends to [tx], what it
    appends is a prefix of [plan], and the whole of [plan] when it returns
    normally; it leaves the port and the selected syringe alone. *)
Definition sends_from {A} (r : Robot) (m : M A) (plan : list gcode) : Prop :=
  tx (snd (m r)) = tx r ++ emitted m r /\
  emitted m r `prefix_of` plan /\
  (forall a, fst (m r) = Done a -> emitted m r = plan) /\
  ser_open (snd (m r)) = ser_open r /\
  current_syringe (snd (m r)) = current_syringe r.

(** [sends m plan]: the same from every state, whatever the firmware
    answers. *)
Definition sends {A} (m : M A) (plan : list gcode) : Prop :=
  forall r, sends_from r m plan.

(** [quiet m]: [m] writes nothing and leaves the port and the selected
    syringe alone. *)
Definition quiet {A} (m : M A) : Prop :=
  forall r,
    tx (snd (m r)) = tx r /\
    ser_open (snd (m r)) = ser_open r /\
    current_syringe (snd (m r)) = current_syringe r.

(** ** The lines of each operation *)

Definition G90 : gcode := [Lit "G90"].
Definition G91 : gcode := [Lit "G91"].
Definition G1_Z (z f : float) : gcode := [Lit "G1"; Fixed "Z" 3 z; Fixed "F" 0 f].
Definition G1_XY (x y f : float) : gcode :=
  [Lit "G1"; Fixed "X" 3 x; Fixed "Y" 3 y; Fixed "F" 0 f].
Definition G1_U (u f : float) : gcode := [Lit "G1"; Fixed "U" 3 u; Fixed "F" 0 f].
Definition G4_P (ms : Z) : gcode := [Lit "G4"; Int "P" ms].

(** The move of [move_relative]: only the non-zero deltas appear. *)
Definition G1_delta (dx dy dz du : float) (feedrate : option float) : gcode :=
  [Lit "G1"] ++ nonzero_part "X" dx ++ nonzero_part "Y" dy
  ++ nonzero_part "Z" dz ++ nonzero_part "U" du ++ opt_part "F" 0 feedrate.

(** Lines of [pick_up_tip] for a well at machine position [xy] and [n]
    press-and-release cycles. *)
Definition tip_cycle : list gcode :=
  [G1_Z 172 600; G4_P 200; G1_Z 170 600; G4_P 200].

Definition pick_up_tip_plan (xy : float * float) (n : nat) : list gcode :=
  [G90; G1_Z 100 750; G1_XY (fst xy) (snd xy) 7500; G1_Z 170 750; G4_P 200]
  ++ concat (replicate n tip_cycle)
  ++ [G1_Z 176 750; G4_P 200; G1_Z 172 750; G1_Z 100 600].

(** Lines of [drop_tip_scrape] over a slot centred at [c]: the approach,
    then the scrape stroke to [x_target] and the lift. *)
Definition scrape_approach (c : float * float) : list gcode :=
  [G90; G1_Z 100 600; G1_XY (fst c) (snd c) 7500; G1_Z 170 750].

Definition drop_tip_scrape_plan (c : float * float) (x_target : float) : list gcode :=
  scrape_approach c ++ [G1_XY x_target (snd c) 2000; G1_Z 100 600].

(** Lines of [transfer_volume] for a resolved syringe and well positions. *)
Definition transfer_volume_plan (syr : SyringeType) (volume_ul : float)
  (src dst : float * float) (f : Feeds) : list gcode :=
  let u_asp := PrimFloat.add (u_base syr) (PrimFloat.mul volume_ul (u_per_ul syr)) in
  [ G90;
    G1_U (u_base syr) (feed_u f);
    G1_Z 158 (feed_z_up f);
    G1_XY (fst src) (snd src) (feed_xy f);
    G1_Z 170 (feed_z_down f);
    G1_U u_asp (feed_u f);
    G1_Z 158 (feed_z_up f);
    G1_Z 158 (feed_z_up f);
    G1_XY (fst dst) (snd dst) (feed_xy f);
    G1_Z 170 (feed_z_down f);
    G1_U (u_base syr) (feed_u f);
    G1_Z 158 (feed_z_up f) ].

(** Lines of [aspirate] / [dispense] addressed to the beaker: [du] is the
    relative plunger travel, [xy] the machine position of its well. *)
Definition beaker_plan (du : float) (xy : float * float) (f : Feeds) : list gcode :=
  [ G90;
    G1_Z 100 (feed_z_up f);
    G1_XY (fst xy) (snd xy) (feed_xy f);
    G1_Z 150 (feed_z_down f);
    G91;
    G1_delta 0 0 0 du (Some (feed_u f));
    G90;
    G1_Z 100 (feed_z_up f) ].

(** Lines and timeouts of [aspirate] / [dispense] at the current XY. *)
Definition current_xy_plan (z_safe z_work du : float) (f : Feeds) : list gcode :=
  [ G90;
    G1_Z z_safe (feed_z_up f);
    G1_Z z_work (feed_z_down f);
    G91;
    G1_delta 0 0 0 du (Some (feed_u f));
    G90;
    G1_Z z_safe (feed_z_up f) ].

Definition current_xy_timeouts : list (option float) :=
  [ default_send_timeout; default_move_timeout; default_move_timeout;
    default_send_timeout; default_move_timeout; default_send_timeout;
    default_move_timeout ].

(** ** The relative move, as it is described

    "A single combined-axis move with only the non-zero deltas included":
    the definitions below follow these words, and the properties compare
    them with what [move_relative] builds. *)

(** A delta that is zero, of either sign; [nan] is not. *)
Definition is_zero_delta (d : float) : bool :=
  match Prim2SF d with
  | SpecFloat.S754_zero _ => true
  | _ => false
  end.

(** The deltas that are not zero, each with its axis, in the order X, Y,
    Z, U. *)
Definition nonzero_deltas (dx dy dz du : float) : list (string * float) :=
  List.filter (fun '(_, d) => negb (is_zero_delta d))
    [("X", dx); ("Y", dy); ("Z", dz); ("U", du)].

(** The move: [G1], one word per non-zero delta holding the delta with
    three decimals, then the feedrate, without decimals, when one is
    given. *)
Definition spec_relative_move (dx dy dz du : float) (feedrate : option float)
  : gcode :=
  Lit "G1" :: map (fun '(axis, d) => Fixed axis 3 d) (nonzero_deltas dx dy dz du)
  ++ match feedrate with Some f => [Fixed "F" 0 f] | None => [] end.

(** The text of a delta in the line: nothing for a zero. *)
Definition delta_text (axis : string) (d : float) : string :=
  if is_zero_delta d then "" else (" " ++ axis ++ format_fixed 3 d)%string.

Definition feed_text (feedrate : option float) : string :=
  match feedrate with
  | Some f => (" F" ++ format_fixed 0 f)%string
  | None => ""
  end.

(** ** The safety ordering of a command sequence

    Machine Z grows downward (the safe height of the tip rack is 100, its
    touch height 170): [z] is at or above the safe height when [z <= safe]
    and below it when [safe < z]. *)

Definition at_or_above (safe z : float) : bool := PrimFloat.leb z safe.
Definition below (safe z : float) : bool := PrimFloat.ltb safe z.

(** What a reader of the sent lines knows: the positioning mode, the last
    commanded Z, and whether the XY target of the current phase has been
    commanded.  Nothing is known before the first line. *)
Record watch := MkWatch {
  w_mode : option mode;
  w_z : option float;
  w_xy : bool
}.

Definition watch0 : watch := MkWatch None None false.

Definition is_fixed (w : word) : bool :=
  match w with Fixed _ _ _ => true | _ => false end.

Definition has_letter (l : string) (ws : list word) : bool :=
  existsb (fun w => match w with Fixed l' _ _ => String.eqb l l' | _ => false end) ws.

Fixpoint z_word (ws : list word) : option float :=
  match ws with
  | Fixed "Z" _ v :: _ => Some v
  | _ :: ws' => z_word ws'
  | [] => None
  end.

Definition was_below (safe : float) (w : watch) : bool :=
  match w_z w with Some z => below safe z | None => false end.

(** One line.  [None] means the ordering is broken, or cannot be told:
    - a lateral move (an X or Y word) needs absolute mode and a commanded Z
      at or above [safe], and commands the XY target of the phase;
    - a descent below [safe] needs the XY target of the phase commanded;
    - coming back from below [safe] to [safe] or above ends the phase;
    - a move without X, Y and Z words (the plunger) and a dwell change
      nothing; mode lines set the mode; any other line is not understood. *)
Definition watch_step (safe : float) (w : watch) (g : gcode) : option watch :=
  match g with
  | [Lit "G90"] => Some (MkWatch (Some Absolute) (w_z w) (w_xy w))
  | [Lit "G91"] => Some (MkWatch (Some Relative) (w_z w) (w_xy w))
  | Lit "G4" :: _ => Some w
  | Lit "G1" :: ws =>
      if negb (forallb is_fixed ws) then None else
      let lateral := has_letter "X" ws || has_letter "Y" ws in
      match z_word ws with
      | None =>
          if lateral then
            match w_mode w, w_z w with
            | Some Absolute, Some z =>
                if at_or_above safe z then Some (MkWatch (w_mode w) (w_z w) true)
                else None
            | _, _ => None
            end
          else Some w
      | Some z =>
          if lateral then None
          else
            match w_mode w with
            | Some Absolute =>
                if at_or_above safe z then
                  Some (MkWatch (w_mode w) (Some z)
                          (if was_below safe w then false else w_xy w))
                else if below safe z then
                  if w_xy w then Some (MkWatch (w_mode w) (Some z) true) else None
                else None
            | _ => None
            end
      end
  | _ => None
  end.

Fixpoint watch_run (safe : float) (w : watch) (sent : list gcode) : option watch :=
  match sent with
  | [] => Some w
  | g :: rest =>
      match watch_step safe w g with
      | Some w' => watch_run safe w' rest
      | None => None
      end
  end.

(** [safe_order safe sent]: the lines [sent], read from the start of an
    operation, respect the safety ordering for the safe height [safe]. *)
Definition safe_order (safe : float) (sent : list gcode) : bool :=
  match watch_run safe watch0 sent with Some _ => true | None => false end.

(** During the press-and-release cycles of [pick_up_tip] the reader's
    knowledge does not change. *)
Definition watch_tip : watch := MkWatch (Some Absolute) (Some 170%float) true.

(** ** Waiting for the acknowledgement *)

(** The text [_read_line] makes of one [readline()]. *)
Definition line_of (ev : event) : string :=
  if nonempty (ev_raw ev) then strip (decode_ascii_ignore (ev_raw ev)) else "".

(** The error marker: "error" as a substring, whatever the case. *)
Definition error_marker (line : string) : bool := contains "error" (lower line).

(** The configured timeout has elapsed once [ev] has been read. *)
Definition expired (start : float) (tmo : option float) (ev : event) : bool :=
  match tmo with
  | Some t => PrimFloat.ltb 0 t && PrimFloat.ltb t (PrimFloat.sub (ev_clock ev) start)
  | None => false
  end.

(** Neither a success line nor an error line. *)
Definition neutral (ev : event) : bool :=
  negb (error_marker (line_of ev)) && negb (is_ok_line (line_of ev)).

(** The wait reads on past [ev]. *)
Definition passed_over (start : float) (tmo : option float) (ev : event) : bool :=
  neutral ev && negb (expired start tmo ev).

(** How a wait over the events [evs] ends when it ends by a success line or
    by the timeout: the events left and the clock. *)
Fixpoint answered (start : float) (tmo : option float) (evs : list event)
  : option (list event * float) :=
  match evs with
  | [] => None
  | ev :: rest =>
      if error_marker (line_of ev) then None
      else if is_ok_line (line_of ev) then Some (rest, ev_clock ev)
      else if expired start tmo ev then Some (rest, ev_clock ev)
      else answered start tmo rest
  end.

(** The events left and the clock after the waits of a sequence of sends
    with the timeouts [tmos], when each wait ends by a success line or by its
    timeout. *)
Fixpoint leftover (start : float) (tmos : list (option float)) (evs : list event)
  : option (list event * float) :=
  match tmos with
  | [] => Some (evs, start)
  | t :: ts =>
      match answered start t evs with
      | Some (rest, c) => leftover c ts rest
      | None => None
      end
  end.

(** Every wait of a sequence of sends with the timeouts [tmos] ends by a
    success line or by its timeout. *)
Definition answers (start : float) (tmos : list (option float)) (evs : list event)
  : bool :=
  match leftover start tmos evs with Some _ => true | None => false end.

(** [completes m tmos plan]: from an open port, when every wait of [m],
    with the timeouts [tmos] in order, ends by a success line or by its
    timeout, [m] returns normally, having sent [plan] and consumed exactly
    those events. *)
Definition completes (m : M unit) (tmos : list (option float)) (plan : list gcode)
  : Prop :=
  forall r rest c,
    ser_open r = true ->
    leftover (clock r) tmos (rx r) = Some (rest, c) ->
    exists r',
      m r = (Done tt, r') /\ tx r' = tx r ++ plan /\ rx r' = rest /\ clock r' = c /\
      ser_open r' = true /\ current_syringe r' = current_syringe r.

(** ** Well names *)

Definition is_letter (c : ascii) : bool :=
  let n := code c in
  ((65 <=? n) && (n <=? 90) || (97 <=? n) && (n <=? 122))%N.

(** A non-empty run of decimal digits. *)
Definition all_digits (s : string) : bool :=
  nonempty s && forallb is_digit (chars s).

(** The number a run of decimal digits denotes. *)
Definition column_number (s : string) : Z :=
  fold_left (fun acc c => 10 * acc + digit_val c) (chars s) 0.

(** The row a letter denotes: its distance from 'A', whatever the case. *)
Definition row_index (c : ascii) : Z :=
  Z.of_N (code (upper_char c)) - Z.of_N (code "A"%char).

(** ** How an execution ends *)

(** [ends m tmos plan o]: from an open port, when every wait of [m], with
    the timeouts [tmos] in order, ends by a success line or by its timeout,
    [m] ends with the outcome [o], having sent [plan] and consumed exactly
    those events. *)
Definition ends {A} (m : M A) (tmos : list (option float)) (plan : list gcode)
  (o : outcome A) : Prop :=
  forall r rest c,
    ser_open r = true ->
    leftover (clock r) tmos (rx r) = Some (rest, c) ->
    exists r',
      m r = (o, r') /\ tx r' = tx r ++ plan /\ rx r' = rest /\ clock r' = c /\
      ser_open r' = true /\ current_syringe r' = current_syringe r.

(** [raises_only P m]: whatever the session and the firmware, an exception
    raised by [m] satisfies [P]. *)
Definition raises_only {A} (P : exn -> Prop) (m : M A) : Prop :=
  forall r e, fst (m r) = Raised e -> P e.

(** The link failed: the port is closed, or the firmware answered with a
    line holding the error marker. *)
Definition link_error (e : exn) : Prop :=
  e = SerialNotConnected \/ exists l, e = FirmwareError l /\ error_marker l = true.

(** The well name does not address a well of the labware. *)
Definition well_error (e : exn) : Prop :=
  match e with
  | IndexError | AttributeError | IntLiteralError _
  | RowOutOfRange _ | ColumnOutOfRange _ => True
  | _ => False
  end.

(** [refused m]: on a closed port [m] raises and leaves the session as it
    found it. *)
Definition refused {A} (m : M A) : Prop :=
  forall r, ser_open r = false -> exists e, m r = (Raised e, r).

(** [settled m]: [m] returns or raises without touching the session. *)
Definition settled {A} (m : M A) : Prop :=
  forall r, (exists a, m r = (Done a, r)) \/ (exists e, m r = (Raised e, r)).

(** ** Timeouts and lines of the operations *)

(** The timeout [dwell] gives to its wait. *)
Definition dwell_timeout (seconds : float) : option float :=
  Some (PrimFloat.add seconds 5).

Definition pick_up_tip_timeouts (n : nat) : list (option float) :=
  [default_send_timeout; default_move_timeout; default_move_timeout;
   default_move_timeout; dwell_timeout 0.2]
  ++ concat (replicate n [default_move_timeout; dwell_timeout 0.2;
                          default_move_timeout; dwell_timeout 0.2])
  ++ [default_move_timeout; dwell_timeout 0.2; default_move_timeout;
      default_move_timeout].

Definition transfer_volume_timeouts : list (option float) :=
  default_send_timeout :: replicate 11 default_move_timeout.

Definition drop_tip_scrape_timeouts : list (option float) :=
  default_send_timeout :: replicate 5 default_move_timeout.

(** The first eight lines of [transfer_volume]: up to and including the
    lift out of the source well with the liquid drawn, and the move to the
    safe height of the destination. *)
Definition transfer_source_phase (syr : SyringeType) (volume_ul : float)
  (src : float * float) (f : Feeds) : list gcode :=
  let u_asp := PrimFloat.add (u_base syr) (PrimFloat.mul volume_ul (u_per_ul syr)) in
  [ G90;
    G1_U (u_base syr) (feed_u f);
    G1_Z 158 (feed_z_up f);
    G1_XY (fst src) (snd src) (feed_xy f);
    G1_Z 170 (feed_z_down f);
    G1_U u_asp (feed_u f);
    G1_Z 158 (feed_z_up f);
    G1_Z 158 (feed_z_up f) ].

(** Lines and timeouts of [aspirate] / [dispense] addressed to a well at
    [xy]; only for the beaker is the tool lifted before it travels. *)
Definition addressed_plan (beaker : bool) (z_safe z_work du : float)
  (xy : float * float) (f : Feeds) : list gcode :=
  G90 :: (if beaker then [G1_Z z_safe (feed_z_up f)] else [])
  ++ [ G1_XY (fst xy) (snd xy) (feed_xy f);
       G1_Z z_work (feed_z_down f);
       G91;
       G1_delta 0 0 0 du (Some (feed_u f));
       G90;
       G1_Z z_safe (feed_z_up f) ].

Definition addressed_timeouts (beaker : bool) : list (option float) :=
  default_send_timeout :: (if beaker then [default_move_timeout] else [])
  ++ [ default_move_timeout; default_move_timeout; default_send_timeout;
       default_move_timeout; default_send_timeout; default_move_timeout ].


(** A line that sets the positioning mode, and a sequence without any. *)
Definition mode_line (g : gcode) : bool :=
  match g with
  | [Lit "G90"] | [Lit "G91"] => true
  | _ => false
  end.

Definition no_mode_line (l : list gcode) : bool :=
  forallb (fun g => negb (mode_line g)) l.

(** A timeout that never expires: none, or one that is not positive. *)
Definition unbounded (tmo : option float) : bool :=
  match tmo with
  | Some t => negb (PrimFloat.ltb 0 t)
  | None => true
  end.

(** ** The position report *)

Definition M114 : gcode := [Lit "M114"].

(** A line that is not taken for the report. *)
Definition no_report (ev : event) : bool := negb (contains "X:" (line_of ev)).

Definition is_axis_key (k : string) : bool :=
  existsb (String.eqb k) ["X"; "Y"; "Z"; "U"].

(** The parts of a report line: the line split at white space, with its
    commas read as spaces. *)
Definition report_parts (line : string) : list string :=
  split (text (replace_char "," " " (chars line))).

(** The part [p] sets the key [k] to [v]: [p] is [k:val] for an axis [k] and
    a text [val] that [float] reads as [v]. *)
Definition sets_key (float_of_str : string -> option float)
  (k : string) (v : float) (p : string) : Prop :=
  is_axis_key k = true /\
  exists val, p = (k ++ ":" ++ val)%string /\ float_of_str val = Some v.

(** Text without white space and without a comma. *)
Definition plain (s : string) : bool :=
  forallb (fun c => negb (isspace c) && negb (Ascii.eqb c ",")) (chars s).

(** ** Running a protocol *)

(** The log lines of the steps, numbered from [first]. *)
Definition log_steps (first : Z) (steps : list Step) : list notice :=
  imap (fun i step => LogStep (first + Z.of_nat i) step) steps.

(** [self.robot is not None and self.deck is not None] *)
Definition connected (g : Panel) : bool :=
  robot_connected g && match panel_deck g with Some _ => true | None => false end.

(** The step kinds the executor knows, and the parameters a step of each
    kind reads with [p[key]]. *)
Definition step_kinds : list string :=
  ["home_xyz"; "pick_tip"; "drop_tip"; "transfer"; "aspirate"; "dispense"; "dwell"].

Definition required_params : list (string * string) :=
  [ ("pick_tip", "slot"); ("pick_tip", "well"); ("drop_tip", "slot");
    ("transfer", "src_slot"); ("transfer", "src_well"); ("transfer", "dst_slot");
    ("transfer", "dst_well"); ("transfer", "volume_ul");
    ("aspirate", "volume_ul"); ("dispense", "volume_ul") ].

(** ** Sample sessions and labware *)

Definition newline : string := String (ascii_of_N 10) EmptyString.

(** The firmware acknowledges at once. *)
Definition ok_event : event := Event ("ok" ++ newline) 0.

(** [readline()] gives nothing until the clock reads [t]. *)
Definition silence (t : float) : event := Event "" t.

(** A fresh session on an open port whose firmware will say [evs]. *)
Definition session (evs : list event) : Robot := MkRobot true evs 0 [] [] None.

(** A session whose firmware acknowledges the next [n] commands. *)
Definition acking (n : nat) : Robot := session (repeat ok_event n).

(** A plate like the 48-well one whose working heights are set to machine
    zero. *)
Definition PLATE_Z0 : LabwareType :=
  MkLabware 5 "48well_z0" 6 8 12.47 12.47 (-43.88) (-32.04) 158 170
    (Some 0%float) (Some 0%float) None None None None.

(** A literal reader that knows four numerals. *)
Definition toy_float (s : string) : option float :=
  if String.eqb s "10.000" then Some 10%float
  else if String.eqb s "20.000" then Some 20%float
  else if String.eqb s "5.000" then Some 5%float
  else if String.eqb s "800" then Some 800%float
  else None.

(** Lines of the firmware: a position report and an error. *)
Definition position_report : event :=
  Event ("X:10.000 Y:20.000 Z:10.000 U:5.000" ++ newline) 4.

Definition halted_line : event := Event ("Error:Printer halted" ++ newline) 3.

(** Steps of a protocol and a panel with a robot connected. *)
Definition dwell_step : Step := MkStep (PStr "dwell") {[ "seconds" := PFloat 1 ]}.
Definition empty_transfer_step : Step := MkStep (PStr "transfer") ∅.
Definition home_step : Step := MkStep (PStr "home_xyz") ∅.
Definition ready_panel : Panel := MkPanel true (Some new_Deck) "1ml".

(** * Facts about the embedding *)

(** ** What an execution sends *)

Lemma emitted_app {A} (m : M A) (r : Robot) (out : list gcode) :
  tx (snd (m r)) = tx r ++ out -> emitted m r = out.
Proof.
  intros H. unfold emitted. rewrite H. apply drop_app_length.
Qed.

Lemma sends_from_intro {A} (r : Robot) (m : M A) (plan out : list gcode) :
  tx (snd (m r)) = tx r ++ out ->
  out `prefix_of` plan ->
  (forall a, fst (m r) = Done a -> out = plan) ->
  ser_open (snd (m r)) = ser_open r ->
  current_syringe (snd (m r)) = current_syringe r ->
  sends_from r m plan.
Proof.
  intros Htx Hpre Hdone Hopen Hsyr. unfold sends_from.
  rewrite (emitted_app _ _ _ Htx). auto.
Qed.

Lemma sends_from_silent {A} (r : Robot) (m : M A) (plan : list gcode) :
  snd (m r) = r -> (forall a, fst (m r) <> Done a) -> sends_from r m plan.
Proof.
  intros Hsame Hnot. apply sends_from_intro with (out := []).
  - by rewrite Hsame, app_nil_r.
  - apply prefix_nil.
  - intros a Ha. by destruct (Hnot a).
  - by rewrite Hsame.
  - by rewrite Hsame.
Qed.

Lemma sends_ret {A} (a : A) : sends (ret a) [].
Proof.
  intros r. apply sends_from_intro with (out := []); simpl; auto.
  by rewrite app_nil_r.
Qed.

Lemma sends_raise {A} (e : exn) (plan : list gcode) : sends (@raise A e) plan.
Proof. intros r. by apply sends_from_silent. Qed.

Lemma sends_from_bind {A B} r (m : M A) (k : A -> M B) (p1 p2 : list gcode) :
  sends_from r m p1 ->
  (forall a r1, m r = (Done a, r1) -> sends_from r1 (k a) p2) ->
  sends_from r (bind m k) (p1 ++ p2).
Proof.
  intros (Htx & Hpre & Hdone & Hopen & Hsyr) Hk.
  destruct (m r) as [[a| e |] r1] eqn:Hmr; simpl in *.
  - destruct (Hk a r1 eq_refl) as (Htx2 & Hpre2 & Hdone2 & Hopen2 & Hsyr2).
    apply sends_from_intro with (out := p1 ++ emitted (k a) r1);
      unfold bind; rewrite ?Hmr; simpl.
    + by rewrite Htx2, Htx, (Hdone a eq_refl), <- app_assoc.
    + by apply prefix_app.
    + intros b Hb. by rewrite (Hdone2 b Hb).
    + congruence.
    + congruence.
  - apply sends_from_intro with (out := emitted m r);
      unfold bind; rewrite ?Hmr; simpl; auto; try discriminate.
    by apply prefix_app_r.
  - apply sends_from_intro with (out := emitted m r);
      unfold bind; rewrite ?Hmr; simpl; auto; try discriminate.
    by apply prefix_app_r.
Qed.

Lemma sends_bind {A B} (m : M A) (k : A -> M B) (p1 p2 : list gcode) :
  sends m p1 -> (forall a, sends (k a) p2) -> sends (bind m k) (p1 ++ p2).
Proof.
  intros Hm Hk r. apply sends_from_bind; [apply Hm|].
  intros a r1 _. apply Hk.
Qed.

(** A step that writes nothing: the plan is that of what follows it. *)
Lemma sends_from_quiet_bind {A B} r (m : M A) (k : A -> M B) (p : list gcode) :
  quiet m ->
  (forall a r1, m r = (Done a, r1) -> sends_from r1 (k a) p) ->
  sends_from r (bind m k) p.
Proof.
  intros Hq Hk. destruct (Hq r) as (Htx & Hopen & Hsyr).
  destruct (m r) as [[a| e |] r1] eqn:Hmr; simpl in *.
  - destruct (Hk a r1 eq_refl) as (Htx2 & Hpre2 & Hdone2 & Hopen2 & Hsyr2).
    apply sends_from_intro with (out := emitted (k a) r1);
      unfold bind; rewrite ?Hmr; simpl; auto; try congruence.
  - apply sends_from_intro with (out := []);
      unfold bind; rewrite ?Hmr; simpl; auto using prefix_nil; try discriminate.
    by rewrite app_nil_r.
  - apply sends_from_intro with (out := []);
      unfold bind; rewrite ?Hmr; simpl; auto using prefix_nil; try discriminate.
    by rewrite app_nil_r.
Qed.

Lemma sends_eq {A} (m : M A) (p p' : list gcode) :
  sends m p -> p = p' -> sends m p'.
Proof. by intros H <-. Qed.

Lemma quiet_ret {A} (a : A) : quiet (ret a).
Proof. by intros r. Qed.

Lemma quiet_raise {A} (e : exn) : quiet (@raise A e).
Proof. by intros r. Qed.

Lemma quiet_bind {A B} (m : M A) (k : A -> M B) :
  quiet m -> (forall a, quiet (k a)) -> quiet (bind m k).
Proof.
  intros Hm Hk r. unfold bind.
  destruct (Hm r) as (Ht & Ho & Hs).
  destruct (m r) as [[a| |] r1]; simpl in *; auto.
  destruct (Hk a r1) as (-> & -> & ->). auto.
Qed.

Lemma quiet_read_line : quiet _read_line.
Proof.
  intros r. unfold _read_line, _ensure_connected, bind.
  destruct (ser_open r) eqn:Ho; [|by simpl].
  destruct (rx r) as [|ev rest]; [by simpl|].
  by destruct (nonempty _).
Qed.

Lemma quiet_time : quiet time_time.
Proof. by intros r. Qed.

Lemma quiet_print s : quiet (print s).
Proof. by intros r. Qed.

Lemma quiet_check_timeout start tmo again :
  quiet again -> quiet (check_timeout start tmo again).
Proof.
  intros H. unfold check_timeout.
  destruct tmo as [t|]; [|done].
  destruct (PrimFloat.ltb 0 t); [|done].
  apply quiet_bind; [apply quiet_time|].
  intros now. destruct (PrimFloat.ltb t _); [apply quiet_print|done].
Qed.

(** The acknowledgement loop reads and prints but never writes. *)
Lemma quiet_drain_loop fuel start tmo : quiet (drain_loop fuel start tmo).
Proof.
  induction fuel as [|fuel IH]; [by intros r|].
  simpl. apply quiet_bind; [apply quiet_read_line|].
  intros line.
  destruct (nonempty line); [|by apply quiet_check_timeout].
  destruct (is_error_line line); [apply quiet_raise|].
  destruct (is_ok_line line); [apply quiet_ret|by apply quiet_check_timeout].
Qed.

Lemma quiet_get_syringe name : quiet (_get_syringe name).
Proof.
  intros r. unfold _get_syringe. destruct name as [| |n]; try done.
  - by destruct (current_syringe r) eqn:E.
  - by destruct (SYRINGES !! n).
Qed.

Lemma get_syringe_state name r : snd (_get_syringe name r) = r.
Proof.
  unfold _get_syringe. destruct name as [| |n]; try done.
  - by destruct (current_syringe r) eqn:E.
  - by destruct (SYRINGES !! n).
Qed.

Lemma sends_send_gcode g wait_ok tmo : sends (send_gcode g wait_ok tmo) [g].
Proof.
  intros r.
  unfold send_gcode, _write_line, _ensure_connected.
  destruct (ser_open r) eqn:Hopen.
  - apply sends_from_intro with (out := [g]); unfold bind; rewrite ?Hopen;
      destruct wait_ok; simpl; auto; try congruence;
      unfold _drain_until_ok_or_timeout, bind, time_time;
      destruct (quiet_drain_loop (S (length (rx (push_tx g r)))) (clock (push_tx g r))
                  tmo (push_tx g r)) as (Htx & Ho & Hs);
      destruct (drain_loop _ _ _ _) as [[[]| |] r2]; simpl in *;
      try rewrite Htx; try rewrite Ho; try rewrite Hs; auto.
  - apply sends_from_silent; unfold bind; rewrite ?Hopen; simpl; auto.
Qed.

Lemma sends_repeat (n : nat) (body : M unit) (p : list gcode) :
  sends body p -> sends (repeat_ n body) (concat (replicate n p)).
Proof.
  intros H. induction n as [|n IH]; simpl.
  - apply sends_ret.
  - apply sends_bind; auto.
Qed.

(** Prefix-closed facts about what was sent transfer from the plan. *)
Lemma sends_from_emitted_prefix {A} r (m : M A) plan :
  sends_from r m plan -> emitted m r `prefix_of` plan.
Proof. by intros (_ & H & _). Qed.

Lemma sends_from_done {A} r (m : M A) plan a :
  sends_from r m plan -> fst (m r) = Done a -> emitted m r = plan.
Proof. intros (_ & _ & H & _). apply H. Qed.

(** ** The lines of each operation *)

Lemma sends_bind_ret {A B} (a : A) (k : A -> M B) p :
  sends (k a) p -> sends (bind (ret a) k) p.
Proof. intros H. exact H. Qed.

Lemma sends_bind_raise {A B} (e : exn) (k : A -> M B) p :
  sends (bind (raise e) k) p.
Proof. intros r. by apply sends_from_silent. Qed.

Lemma sends_bind_try_inr {A B} (a : A) (k : A -> M B) p :
  sends (k a) p -> sends (bind (try_ (inr a)) k) p.
Proof. intros H. exact H. Qed.

Lemma sends_bind_try_inl {A B} (e : exn) (k : A -> M B) p :
  sends (bind (try_ (inl e)) k) p.
Proof. apply sends_bind_raise. Qed.

Lemma sends_ext {A} (m m' : M A) p :
  (forall r, m r = m' r) -> sends m p -> sends m' p.
Proof.
  intros Heq H r. destruct (H r) as (H1 & H2 & H3 & H4 & H5).
  unfold sends_from, emitted in *. rewrite <- (Heq r). auto.
Qed.

Lemma bind_assoc {A B C} (m : M A) (k : A -> M B) (h : B -> M C) r :
  bind m (fun a => bind (k a) h) r = bind (bind m k) h r.
Proof. unfold bind. by destruct (m r) as [[a| |] r1]. Qed.

Lemma sends_assoc {A B C} (m : M A) (k : A -> M B) (h : B -> M C) p :
  sends (bind m (fun a => bind (k a) h)) p -> sends (bind (bind m k) h) p.
Proof. apply sends_ext. apply bind_assoc. Qed.

Lemma sends_move_z z f : sends (move_z z f) [G1_Z z f].
Proof. apply sends_send_gcode. Qed.

Lemma sends_move_xy x y f : sends (move_xy x y f) [G1_XY x y f].
Proof. apply sends_send_gcode. Qed.

Lemma sends_move_u u f : sends (move_u u f) [G1_U u f].
Proof. apply sends_send_gcode. Qed.

Lemma sends_set_absolute_mode : sends set_absolute_mode [G90].
Proof. apply sends_send_gcode. Qed.

Lemma sends_set_relative_mode : sends set_relative_mode [G91].
Proof. apply sends_send_gcode. Qed.

Lemma sends_move_relative dx dy dz du feedrate tmo :
  sends (move_relative dx dy dz du feedrate tmo)
        [G91; G1_delta dx dy dz du feedrate; G90].
Proof.
  unfold move_relative.
  apply (sends_bind _ _ [G91] [G1_delta dx dy dz du feedrate; G90]);
    [apply sends_set_relative_mode|intros _].
  apply (sends_bind _ _ [G1_delta dx dy dz du feedrate] [G90]);
    [apply sends_send_gcode|intros _].
  apply sends_set_absolute_mode.
Qed.

Lemma sends_move_relative_u du f :
  sends (move_relative_u du f) [G91; G1_delta 0 0 0 du (Some f); G90].
Proof. apply sends_move_relative. Qed.

Lemma sends_home_all timeout :
  sends (home_all timeout) [[Lit "G28"]; [Lit "G1 U5 F200"]].
Proof.
  unfold home_all.
  apply (sends_bind _ _ [[Lit "G28"]] [[Lit "G1 U5 F200"]]);
    [apply sends_send_gcode|intros _; apply sends_send_gcode].
Qed.

(** [dwell(0.2)] asks for 200 ms. *)
Lemma sends_dwell_200ms : sends (dwell 0.2) [G4_P 200].
Proof.
  unfold dwell.
  replace (int_of_float (PrimFloat.mul 0.2 1000)) with (@inr exn Z 200)
    by (by vm_compute).
  apply sends_bind_try_inr, sends_send_gcode.
Qed.

Create HintDb sends_db.
#[local] Hint Resolve sends_ret sends_raise sends_send_gcode sends_move_z
  sends_move_xy sends_move_u sends_set_absolute_mode sends_set_relative_mode
  sends_move_relative_u sends_dwell_200ms sends_bind_raise sends_bind_try_inl
  : sends_db.

(** Walk through a sequence of sends, collecting its plan. *)
Ltac sends_walk :=
  cbv beta;
  lazymatch goal with
  | |- sends (bind (try_ (inl _)) _) _ => apply sends_bind_try_inl
  | |- sends (bind (raise _) _) _ => apply sends_bind_raise
  | |- sends (bind (try_ (inr _)) _) _ => apply sends_bind_try_inr; sends_walk
  | |- sends (bind (ret _) _) _ => apply sends_bind_ret; sends_walk
  | |- sends (bind (bind _ _) _) _ => apply sends_assoc; sends_walk
  | |- sends (bind _ _) _ => eapply sends_bind; [sends_walk | intros ?; sends_walk]
  | |- sends (repeat_ _ _) _ => eapply sends_repeat; sends_walk
  | |- _ => solve [eauto with sends_db]
  end.

(** Step into the continuation of a pure step that succeeded. *)
Ltac enter_try :=
  lazymatch goal with
  | |- context [bind (try_ (inr ?a)) ?k] =>
      change (bind (try_ (inr a)) k) with (k a); cbv beta zeta
  end.

Ltac sends_by_walk := eapply sends_eq; [sends_walk | reflexivity].

Lemma sends_pick_up_tip deck slot_id well n_cycles :
  exists xy,
    sends (pick_up_tip deck slot_id well n_cycles)
          (pick_up_tip_plan xy (Z.to_nat n_cycles)).
Proof.
  unfold pick_up_tip.
  destruct (slots_item deck slot_id) as [e|s].
  { exists (0%float, 0%float). apply sends_bind_try_inl. }
  enter_try.
  set (w := well_position_machine _ well). clearbody w.
  simpl. destruct w as [e|xy].
  - exists (0%float, 0%float). unfold pick_up_tip_plan. sends_by_walk.
  - exists xy. unfold pick_up_tip_plan. sends_by_walk.
Qed.

Lemma sends_drop_tip_scrape deck slot_id edge hw extra :
  exists c x_target,
    sends (drop_tip_scrape deck slot_id edge hw extra)
          (drop_tip_scrape_plan c x_target).
Proof.
  unfold drop_tip_scrape.
  destruct (slots_item deck slot_id) as [e|s].
  { exists (0%float, 0%float), 0%float. apply sends_bind_try_inl. }
  enter_try. simpl.
  destruct (slot_center_machine deck slot_id) as [e|c].
  { exists (0%float, 0%float), 0%float. apply sends_bind_try_inl. }
  enter_try. unfold drop_tip_scrape_plan, scrape_approach.
  destruct (is_str edge "left"); [|destruct (is_str edge "right")].
  - eexists c, _. sends_by_walk.
  - eexists c, _. sends_by_walk.
  - exists c, 0%float. sends_by_walk.
Qed.

Lemma sends_transfer_volume r deck src_slot src_well dst_slot dst_well
  volume_ul syringe f :
  exists syr src dst,
    sends_from r
      (transfer_volume deck src_slot src_well dst_slot dst_well volume_ul syringe f)
      (transfer_volume_plan syr volume_ul src dst f).
Proof.
  unfold transfer_volume.
  lazymatch goal with
  | |- context [bind (_get_syringe syringe) ?k] =>
      assert (Hk : forall syr, exists src dst,
                 sends (k syr) (transfer_volume_plan syr volume_ul src dst f))
  end.
  { intros syr. cbv beta zeta.
    destruct (below_bound _ _).
    { exists (0%float, 0%float), (0%float, 0%float). apply sends_raise. }
    destruct (above_bound _ _).
    { exists (0%float, 0%float), (0%float, 0%float). apply sends_raise. }
    destruct (slots_item deck src_slot) as [e|s_src].
    { exists (0%float, 0%float), (0%float, 0%float). apply sends_bind_try_inl. }
    enter_try.
    destruct (slots_item deck dst_slot) as [e|s_dst].
    { exists (0%float, 0%float), (0%float, 0%float). apply sends_bind_try_inl. }
    enter_try.
    set (ws := well_position_machine _ src_well). clearbody ws.
    set (wd := well_position_machine _ dst_well). clearbody wd.
    unfold transfer_volume_plan.
    destruct ws as [e|src]; [exists (0%float, 0%float), (0%float, 0%float)|].
    { sends_by_walk. }
    destruct wd as [e|dst]; [exists src, (0%float, 0%float)|exists src, dst].
    - sends_by_walk.
    - sends_by_walk. }
  destruct (_get_syringe syringe r) as [[syr| |] r1] eqn:Hget.
  - destruct (Hk syr) as (src & dst & Hs). exists syr, src, dst.
    apply sends_from_quiet_bind; [apply quiet_get_syringe|].
    intros a r2 Heq. rewrite Hget in Heq. injection Heq as <- <-. apply Hs.
  - exists Syringe_1ml, (0%float, 0%float), (0%float, 0%float).
    apply sends_from_quiet_bind; [apply quiet_get_syringe|].
    intros a r2 Heq. rewrite Hget in Heq. discriminate.
  - exists Syringe_1ml, (0%float, 0%float), (0%float, 0%float).
    apply sends_from_quiet_bind; [apply quiet_get_syringe|].
    intros a r2 Heq. rewrite Hget in Heq. discriminate.
Qed.

Lemma sends_from_resolved {B} r name (k : SyringeType -> M B) (plan : list gcode) :
  (forall syr, fst (_get_syringe name r) = Done syr -> sends (k syr) plan) ->
  sends_from r (bind (_get_syringe name) k) plan.
Proof.
  intros H. apply sends_from_quiet_bind; [apply quiet_get_syringe|].
  intros a r2 Heq. apply H. by rewrite Heq.
Qed.

Lemma addressed_deck d slot_id well d' :
  addressed (Some d) slot_id well = Some d' -> d' = d.
Proof. unfold addressed. destruct (_ && _); congruence. Qed.

(** The body of a beaker-addressed [aspirate] / [dispense], once the
    syringe is known. *)
Ltac beaker_body :=
  cbv beta zeta; unfold beaker_plan;
  lazymatch goal with
  | |- context [addressed (Some ?deck) ?slot_id ?well] =>
      let d := fresh "d" in
      let Haddr := fresh "Haddr" in
      destruct (addressed (Some deck) slot_id well) as [d|] eqn:Haddr;
      [ apply addressed_deck in Haddr; subst d;
        destruct (slots_item deck slot_id) as [?|?];
        [ exists (0%float, 0%float); sends_by_walk
        | enter_try;
          lazymatch goal with
          | |- context [well_position_machine ?i ?w] =>
              destruct (well_position_machine i w) as [?|xy];
              [ exists (0%float, 0%float) | exists xy ];
              simpl; sends_by_walk
          end ]
      | exists (0%float, 0%float); sends_by_walk ]
  end.

Lemma sends_aspirate_from_beaker r deck slot_id volume_ul syringe f :
  exists du xy,
    sends_from r (aspirate_from_beaker deck slot_id volume_ul syringe f)
              (beaker_plan du xy f).
Proof.
  unfold aspirate_from_beaker, aspirate.
  lazymatch goal with
  | |- context [bind (_get_syringe syringe) ?k] =>
      assert (Hk : forall syr, exists xy,
                 sends (k syr)
                   (beaker_plan (PrimFloat.mul volume_ul (u_per_ul syr)) xy f))
  end.
  { intros syr. beaker_body. }
  destruct (_get_syringe syringe r) as [[syr| |] r1] eqn:Hget.
  2,3: exists 0%float, (0%float, 0%float); apply sends_from_resolved;
       intros syr Hs; rewrite Hget in Hs; discriminate.
  destruct (Hk syr) as [xy Hxy]. eexists _, xy.
  apply sends_from_resolved. intros syr' Hs. rewrite Hget in Hs.
  injection Hs as <-. apply Hxy.
Qed.

Lemma sends_dispense_to_beaker r deck slot_id volume_ul syringe f :
  exists du xy,
    sends_from r (dispense_to_beaker deck slot_id volume_ul syringe f)
              (beaker_plan du xy f).
Proof.
  unfold dispense_to_beaker, dispense.
  lazymatch goal with
  | |- context [bind (_get_syringe syringe) ?k] =>
      assert (Hk : forall syr, exists xy,
                 sends (k syr)
                   (beaker_plan
                      (PrimFloat.opp (PrimFloat.mul volume_ul (u_per_ul syr))) xy f))
  end.
  { intros syr. beaker_body. }
  destruct (_get_syringe syringe r) as [[syr| |] r1] eqn:Hget.
  2,3: exists 0%float, (0%float, 0%float); apply sends_from_resolved;
       intros syr Hs; rewrite Hget in Hs; discriminate.
  destruct (Hk syr) as [xy Hxy]. eexists _, xy.
  apply sends_from_resolved. intros syr' Hs. rewrite Hget in Hs.
  injection Hs as <-. apply Hxy.
Qed.

(** ** The safety ordering *)

Lemma watch_run_app safe w l1 l2 :
  watch_run safe w (l1 ++ l2) =
  match watch_run safe w l1 with
  | Some w' => watch_run safe w' l2
  | None => None
  end.
Proof.
  revert w. induction l1 as [|g l1 IH]; intros w; simpl; [done|].
  destruct (watch_step safe w g); [apply IH|done].
Qed.

(** The ordering is a safety property: it holds of every prefix. *)
Lemma safe_order_prefix safe l1 l2 :
  l1 `prefix_of` l2 -> safe_order safe l2 = true -> safe_order safe l1 = true.
Proof.
  intros [k ->]. unfold safe_order. rewrite watch_run_app.
  by destruct (watch_run safe watch0 l1).
Qed.

Lemma safe_order_emitted {A} safe r (m : M A) plan :
  sends_from r m plan -> safe_order safe plan = true ->
  safe_order safe (emitted m r) = true.
Proof.
  intros H. apply safe_order_prefix. by apply sends_from_emitted_prefix.
Qed.

Lemma watch_run_tip_cycles n :
  watch_run 100 watch_tip (concat (replicate n tip_cycle)) = Some watch_tip.
Proof.
  induction n as [|n IH]; [done|].
  change (concat (replicate (S n) tip_cycle))
    with (tip_cycle ++ concat (replicate n tip_cycle)).
  rewrite watch_run_app.
  replace (watch_run 100 watch_tip tip_cycle) with (Some watch_tip)
    by (by vm_compute).
  exact IH.
Qed.

Lemma safe_order_pick_up_tip xy n :
  safe_order (safe_z LABWARE_TIPRACK_96) (pick_up_tip_plan xy n) = true.
Proof.
  unfold safe_order.
  change (safe_z LABWARE_TIPRACK_96) with 100%float.
  set (approach := [G90; G1_Z 100 750; G1_XY (fst xy) (snd xy) 7500;
                    G1_Z 170 750; G4_P 200]).
  set (seat := [G1_Z 176 750; G4_P 200; G1_Z 172 750; G1_Z 100 600]).
  change (pick_up_tip_plan xy n)
    with (approach ++ concat (replicate n tip_cycle) ++ seat).
  rewrite watch_run_app.
  replace (watch_run 100 watch0 approach) with (Some watch_tip) by (by vm_compute).
  rewrite watch_run_app, watch_run_tip_cycles. by vm_compute.
Qed.

Lemma safe_order_transfer_volume syr volume_ul src dst f :
  safe_order (safe_z LABWARE_48WELL_10MM)
             (transfer_volume_plan syr volume_ul src dst f) = true.
Proof. by vm_compute. Qed.

Lemma safe_order_beaker du xy f :
  safe_order (safe_z LABWARE_BEAKER_1WELL) (beaker_plan du xy f) = true.
Proof.
  unfold beaker_plan, G1_delta, nonzero_part.
  destruct (negb (PrimFloat.eqb du 0)); by vm_compute.
Qed.

(** ** Waiting for the acknowledgement *)

Lemma prefix_split p s :
  String.prefix p s = true -> exists rest, s = (p ++ rest)%string.
Proof.
  revert s. induction p as [|a p IH]; intros s H.
  - by exists s.
  - destruct s as [|b s]; [done|]. simpl in H.
    destruct (ascii_dec a b) as [->|]; [|done].
    destruct (IH s H) as [rest ->]. by exists rest.
Qed.

Lemma prefix_append p rest : String.prefix p (p ++ rest)%string = true.
Proof.
  induction p as [|a p IH]; simpl; [by destruct rest|].
  by destruct (ascii_dec a a).
Qed.

Lemma contains_prefix p s : String.prefix p s = true -> contains p s = true.
Proof. intros H. destruct s; cbn [contains]; by rewrite H. Qed.

Lemma prefix_Error_marker line :
  startswith "Error" line = true -> error_marker line = true.
Proof.
  intros H. destruct (prefix_split _ _ H) as [rest ->].
  unfold error_marker.
  replace (lower ("Error" ++ rest)) with ("error" ++ lower rest)%string
    by (vm_compute; reflexivity).
  apply contains_prefix, prefix_append.
Qed.

Lemma is_error_line_marker line : is_error_line line = error_marker line.
Proof.
  unfold is_error_line.
  destruct (startswith "Error" line) eqn:H; [|done].
  by rewrite (prefix_Error_marker _ H).
Qed.

Lemma empty_line_neutral line :
  nonempty line = false -> error_marker line = false /\ is_ok_line line = false.
Proof. by destruct line. Qed.

(** One turn of the loop, by the kind of the line read. *)
Lemma drain_loop_step fuel start tmo r ev rest :
  ser_open r = true -> rx r = ev :: rest ->
  let r' := set_clock (ev_clock ev) (set_rx rest r) in
  drain_loop (S fuel) start tmo r =
    if error_marker (line_of ev) then (Raised (FirmwareError (line_of ev)), r')
    else if is_ok_line (line_of ev) then (Done tt, r')
    else if expired start tmo ev then (Done tt, push_log timeout_warning r')
    else drain_loop fuel start tmo r'.
Proof.
  intros Hopen Hrx r'. simpl drain_loop.
  unfold bind at 1. unfold _read_line, _ensure_connected, bind.
  rewrite Hopen, Hrx. fold r'.
  assert (Hrest : check_timeout start tmo (drain_loop fuel start tmo) r' =
                  if expired start tmo ev then (Done tt, push_log timeout_warning r')
                  else drain_loop fuel start tmo r').
  { unfold check_timeout, expired. destruct tmo as [t|]; [|done].
    destruct (PrimFloat.ltb 0 t); [|done]. simpl.
    unfold bind, time_time. simpl.
    by destruct (PrimFloat.ltb t _). }
  assert (Hline : (if nonempty (ev_raw ev)
                   then (Done (strip (decode_ascii_ignore (ev_raw ev))), r')
                   else (Done "", r')) = (Done (line_of ev), r')).
  { unfold line_of. by destruct (nonempty (ev_raw ev)). }
  rewrite Hline. rewrite <- is_error_line_marker.
  destruct (nonempty (line_of ev)) eqn:Hne.
  - destruct (is_error_line _); [done|].
    destruct (is_ok_line _); [done|]. exact Hrest.
  - destruct (empty_line_neutral _ Hne) as [He Hok].
    rewrite is_error_line_marker, He, Hok. exact Hrest.
Qed.

Lemma drain_loop_starved fuel start tmo r :
  ser_open r = true -> rx r = [] ->
  drain_loop fuel start tmo r = (Starved, r).
Proof.
  intros Hopen Hrx. destruct fuel; [done|]. simpl.
  unfold bind, _read_line, _ensure_connected, bind. by rewrite Hopen, Hrx.
Qed.

(** A wait that is answered returns normally, having consumed the events
    up to the answer. *)
Lemma drain_loop_answered evs : forall fuel start tmo r rest c,
  ser_open r = true -> rx r = evs -> (length evs < fuel)%nat ->
  answered start tmo evs = Some (rest, c) ->
  exists r',
    drain_loop fuel start tmo r = (Done tt, r') /\
    tx r' = tx r /\ rx r' = rest /\ clock r' = c /\ ser_open r' = true /\
    current_syringe r' = current_syringe r.
Proof.
  induction evs as [|ev evs IH]; intros fuel start tmo r rest c Hopen Hrx Hlen Hans;
    [done|].
  destruct fuel as [|fuel]; [simpl in Hlen; lia|].
  rewrite (drain_loop_step _ _ _ _ _ _ Hopen Hrx). simpl in Hans.
  destruct (error_marker (line_of ev)); [done|].
  destruct (is_ok_line (line_of ev)).
  { injection Hans as <- <-. eexists. split; [done|]. by simpl. }
  destruct (expired start tmo ev).
  { injection Hans as <- <-. eexists. split; [done|]. by simpl. }
  destruct (IH fuel start tmo (set_clock (ev_clock ev) (set_rx evs r)) rest c)
    as (r' & Hrun & H1 & H2 & H3 & H4 & H5); simpl; auto.
  { simpl in Hlen. lia. }
  exists r'. by rewrite Hrun.
Qed.

Lemma send_gcode_answered g tmo r rest c :
  ser_open r = true ->
  answered (clock r) tmo (rx r) = Some (rest, c) ->
  exists r',
    send_gcode g true tmo r = (Done tt, r') /\
    tx r' = tx r ++ [g] /\ rx r' = rest /\ clock r' = c /\ ser_open r' = true /\
    current_syringe r' = current_syringe r.
Proof.
  intros Hopen Hans.
  destruct (drain_loop_answered (rx r) (S (length (rx r))) (clock r) tmo
              (push_tx g r) rest c Hopen eq_refl (Nat.lt_succ_diag_r _) Hans)
    as (r' & Hrun & H1 & H2 & H3 & H4 & H5).
  exists r'. split; [|by auto].
  unfold send_gcode, _write_line, _ensure_connected, bind. rewrite Hopen.
  exact Hrun.
Qed.

(** The wait fails exactly when an error line is reached. *)
Lemma drain_loop_fails_iff evs : forall fuel start tmo r,
  ser_open r = true -> rx r = evs -> (length evs < fuel)%nat ->
  (exists l, fst (drain_loop fuel start tmo r) = Raised (FirmwareError l)) <->
  (exists pre ev post,
      evs = pre ++ ev :: post /\
      forallb (passed_over start tmo) pre = true /\
      error_marker (line_of ev) = true).
Proof.
  induction evs as [|ev evs IH]; intros fuel start tmo r Hopen Hrx Hlen.
  - rewrite (drain_loop_starved _ _ _ _ Hopen Hrx). split.
    + by intros [l Hl].
    + intros (pre & ev & post & Heq & _). by destruct pre.
  - destruct fuel as [|fuel]; [simpl in Hlen; lia|].
    rewrite (drain_loop_step _ _ _ _ _ _ Hopen Hrx).
    destruct (error_marker (line_of ev)) eqn:Herr.
    { split; [|by eexists]. intros _. by exists [], ev, evs. }
    assert (Hsplit :
      forall pre e post, ev :: evs = pre ++ e :: post ->
         forallb (passed_over start tmo) pre = true ->
         error_marker (line_of e) = true ->
         passed_over start tmo ev = true /\
         exists pre', pre = ev :: pre' /\ evs = pre' ++ e :: post).
    { intros pre e post Heq Hpre He. destruct pre as [|p pre].
      - injection Heq as <- <-. congruence.
      - injection Heq as <- ->. simpl in Hpre.
        apply andb_prop in Hpre as [Hp Hpre]. eauto. }
    destruct (is_ok_line (line_of ev)) eqn:Hok.
    { split; [by intros [l Hl]|]. intros (pre & e & post & Heq & Hpre & He).
      destruct (Hsplit _ _ _ Heq Hpre He) as [Hp _].
      unfold passed_over, neutral in Hp. rewrite Hok in Hp.
      by rewrite andb_false_r in Hp. }
    destruct (expired start tmo ev) eqn:Hexp.
    { split; [by intros [l Hl]|]. intros (pre & e & post & Heq & Hpre & He).
      destruct (Hsplit _ _ _ Heq Hpre He) as [Hp _].
      unfold passed_over in Hp. rewrite Hexp in Hp.
      by rewrite andb_false_r in Hp. }
    rewrite (IH fuel start tmo (set_clock (ev_clock ev) (set_rx evs r)));
      [|done|done|simpl in Hlen; lia].
    split.
    + intros (pre & e & post & -> & Hpre & He).
      exists (ev :: pre), e, post. repeat split; [|done]. simpl.
      unfold passed_over at 1, neutral. by rewrite Herr, Hok, Hexp.
    + intros (pre & e & post & Heq & Hpre & He).
      destruct (Hsplit _ _ _ Heq Hpre He) as [_ (pre' & -> & ->)].
      simpl in Hpre. apply andb_prop in Hpre as [_ Hpre]. by exists pre', e, post.
Qed.

(** The only exception of the wait is the firmware error, and it carries a
    line with the error marker. *)
Lemma drain_loop_raises evs : forall fuel start tmo r e,
  ser_open r = true -> rx r = evs ->
  fst (drain_loop fuel start tmo r) = Raised e ->
  exists l, e = FirmwareError l /\ error_marker l = true.
Proof.
  induction evs as [|ev evs IH]; intros fuel start tmo r e Hopen Hrx.
  - by rewrite (drain_loop_starved _ _ _ _ Hopen Hrx).
  - destruct fuel as [|fuel]; [done|].
    rewrite (drain_loop_step _ _ _ _ _ _ Hopen Hrx).
    destruct (error_marker (line_of ev)) eqn:Herr.
    { intros [= <-]. eauto. }
    destruct (is_ok_line (line_of ev)); [done|].
    destruct (expired start tmo ev); [done|].
    by apply IH.
Qed.

(** When the timeout elapses with neither marker seen, the wait warns and
    returns normally. *)
Lemma drain_loop_times_out pre : forall fuel start tmo r ev post,
  ser_open r = true -> rx r = pre ++ ev :: post ->
  (length (pre ++ ev :: post) < fuel)%nat ->
  forallb (passed_over start tmo) pre = true ->
  neutral ev = true -> expired start tmo ev = true ->
  fst (drain_loop fuel start tmo r) = Done tt /\
  log (snd (drain_loop fuel start tmo r)) = log r ++ [timeout_warning].
Proof.
  induction pre as [|p pre IH]; intros fuel start tmo r ev post Hopen Hrx Hlen
    Hpre Hneu Hexp; (destruct fuel as [|fuel]; [simpl in Hlen; lia|]);
    rewrite (drain_loop_step _ _ _ _ _ _ Hopen Hrx).
  - unfold neutral in Hneu. apply andb_prop in Hneu as [He Hok].
    apply negb_true_iff in He, Hok. by rewrite He, Hok, Hexp.
  - simpl in Hpre. apply andb_prop in Hpre as [Hp Hpre].
    unfold passed_over, neutral in Hp.
    apply andb_prop in Hp as [Hn Hx]. apply andb_prop in Hn as [He Hok].
    apply negb_true_iff in He, Hok, Hx. rewrite He, Hok, Hx.
    apply (IH fuel start tmo (set_clock (ev_clock p) (set_rx (pre ++ ev :: post) r))
             ev post); auto.
    simpl in Hlen. lia.
Qed.

(** ** Well names *)

Lemma text_chars s : text (chars s) = s.
Proof. apply string_of_list_ascii_of_string. Qed.

Lemma chars_text l : chars (text l) = l.
Proof. apply list_ascii_of_string_of_list_ascii. Qed.

Lemma letter_not_space c : is_letter c = true -> isspace c = false.
Proof. destruct c as [[] [] [] [] [] [] [] []]; by vm_compute. Qed.

Lemma digit_not_space c : is_digit c = true -> isspace c = false.
Proof. destruct c as [[] [] [] [] [] [] [] []]; by vm_compute. Qed.

Lemma digit_upper c : is_digit c = true -> upper_char c = c.
Proof. destruct c as [[] [] [] [] [] [] [] []]; by vm_compute. Qed.

Lemma lstrip_head c l : isspace c = false -> lstrip (c :: l) = c :: l.
Proof. intros H. simpl. by rewrite H. Qed.

(** Text that neither starts nor ends with white space is its own strip. *)
Lemma strip_id (l : list ascii) (a b : ascii) (mid : list ascii) :
  l = a :: mid -> (exists pre, l = pre ++ [b]) ->
  isspace a = false -> isspace b = false ->
  strip (text l) = text l.
Proof.
  intros Hl [pre Hr] Ha Hb. unfold strip, rstrip. rewrite chars_text.
  assert (H1 : lstrip l = l) by (rewrite Hl; by apply lstrip_head).
  assert (H2 : rev l = b :: rev pre) by (by rewrite Hr, rev_app_distr).
  assert (H3 : lstrip (rev l) = rev l) by (rewrite H2; by apply lstrip_head).
  by rewrite H1, H3, rev_involutive.
Qed.

Lemma digits_last (l : list ascii) :
  l <> [] -> forallb is_digit l = true ->
  exists pre b, l = pre ++ [b] /\ is_digit b = true.
Proof.
  intros Hne Hall. destruct (exists_last Hne) as (pre & b & ->).
  exists pre, b. split; [done|].
  rewrite forallb_app in Hall. apply andb_prop in Hall as [_ Hb].
  simpl in Hb. by rewrite andb_true_r in Hb.
Qed.

Lemma all_digits_chars s :
  all_digits s = true -> chars s <> [] /\ forallb is_digit (chars s) = true.
Proof.
  unfold all_digits. intros H. apply andb_prop in H as [Hne Hall].
  split; [|done]. by destruct s.
Qed.

Lemma strip_digits s : all_digits s = true -> strip s = s.
Proof.
  intros H. destruct (all_digits_chars _ H) as [Hne Hall].
  destruct (digits_last _ Hne Hall) as (pre & b & Hl & Hb).
  destruct (chars s) as [|a mid] eqn:Hc; [done|].
  rewrite <- (text_chars s), Hc.
  apply (strip_id _ a b mid); eauto using digit_not_space.
  apply digit_not_space. simpl in Hall. by apply andb_prop in Hall as [? _].
Qed.

Lemma strip_well c ds :
  is_letter c = true -> all_digits ds = true ->
  strip (String c ds) = String c ds.
Proof.
  intros Hc H. destruct (all_digits_chars _ H) as [Hne Hall].
  destruct (digits_last _ Hne Hall) as (pre & b & Hl & Hb).
  rewrite <- (text_chars (String c ds)).
  apply (strip_id _ c b (chars ds)); eauto using letter_not_space, digit_not_space.
  exists (c :: pre). change (chars (String c ds)) with (c :: chars ds).
  by rewrite Hl.
Qed.

Lemma upper_digits l :
  forallb is_digit l = true -> map upper_char l = l.
Proof.
  induction l as [|c l IH]; [done|]. simpl. intros H.
  apply andb_prop in H as [Hc Hl]. by rewrite (digit_upper _ Hc), (IH Hl).
Qed.

Lemma upper_well c ds :
  all_digits ds = true -> upper (String c ds) = String (upper_char c) ds.
Proof.
  intros H. destruct (all_digits_chars _ H) as [_ Hall].
  unfold upper. simpl. by rewrite (upper_digits _ Hall), text_chars.
Qed.

Lemma int_digits_value l : forall b acc,
  forallb is_digit l = true -> (l <> [] \/ b = true) ->
  int_digits b acc l = Some (fold_left (fun acc c => 10 * acc + digit_val c) l acc).
Proof.
  induction l as [|c l IH]; intros b acc Hall Hne.
  - destruct Hne as [?| ->]; done.
  - simpl in Hall. apply andb_prop in Hall as [Hc Hl].
    simpl. rewrite Hc. apply IH; auto.
Qed.

Lemma digit_not_sign c :
  is_digit c = true -> Ascii.eqb c "+" = false /\ Ascii.eqb c "-" = false.
Proof. destruct c as [[] [] [] [] [] [] [] []]; by vm_compute. Qed.

Lemma digit_not_int_space c : is_digit c = true -> int_space c = false.
Proof. destruct c as [[] [] [] [] [] [] [] []]; by vm_compute. Qed.

Lemma count_digits_all l :
  forallb is_digit l = true -> count_digits l = Z.of_nat (length l).
Proof.
  induction l as [|c l IH]; [done|]. simpl forallb. intros H.
  apply andb_prop in H as [Hc Hl].
  change (count_digits (c :: l)) with ((if is_digit c then 1 else 0) + count_digits l).
  rewrite Hc, (IH Hl). simpl length. lia.
Qed.

Lemma length_chars s : length (chars s) = String.length s.
Proof. induction s as [|c s IH]; [done|]. simpl. by rewrite IH. Qed.

(** A run of digits has no white space for [int] to skip. *)
Lemma skip_int_space_digits l :
  forallb is_digit l = true ->
  rev (skip_int_space (rev (skip_int_space l))) = l.
Proof.
  intros Hall. destruct l as [|a mid]; [done|].
  destruct (digits_last (a :: mid) ltac:(done) Hall) as (pre & b & Hl & Hb).
  assert (Ha : is_digit a = true).
  { simpl in Hall. by apply andb_prop in Hall as [? _]. }
  assert (H1 : skip_int_space (a :: mid) = a :: mid).
  { simpl. by rewrite (digit_not_int_space _ Ha). }
  assert (H2 : skip_int_space (b :: rev pre) = b :: rev pre).
  { simpl. by rewrite (digit_not_int_space _ Hb). }
  assert (H3 : rev (a :: mid) = b :: rev pre) by (by rewrite Hl, rev_app_distr).
  by rewrite H1, H3, H2, <- H3, rev_involutive.
Qed.

(** [int] on a run of digits: its number when the run has at most
    [max_str_digits] digits, the [ValueError] of [int] when it has more. *)
Lemma int_of_str_digits s :
  all_digits s = true ->
  int_of_str s =
    if max_str_digits <? Z.of_nat (String.length s) then None
    else Some (column_number s).
Proof.
  intros H. destruct (all_digits_chars _ H) as [Hne Hall].
  unfold int_of_str, column_number. rewrite (skip_int_space_digits _ Hall).
  rewrite <- length_chars.
  destruct (chars s) as [|c l] eqn:Hc; [done|].
  assert (Hd : is_digit c = true).
  { simpl in Hall. by apply andb_prop in Hall as [? _]. }
  destruct (digit_not_sign c Hd) as [-> ->].
  unfold int_body.
  rewrite (int_digits_value (c :: l) false 0 Hall) by (by left).
  by rewrite (count_digits_all _ Hall).
Qed.

(** [int] at work: its white space is skipped around the literal and
    nowhere else, the separators 0x1c..0x1f are not white space for it, an
    underscore may stand between two digits, and 4300 digits are read where
    4301 are refused. *)
Lemma int_of_str_samples :
  let tab := String (ascii_of_N 9) "" in
  let gs := String (ascii_of_N 29) "" in
  (int_of_str (" 12" ++ tab) = Some 12 /\ int_of_str "+7" = Some 7 /\
   int_of_str "-7" = Some (-7) /\ int_of_str "1_0" = Some 10 /\
   int_of_str (zeros 4299 ++ "8") = Some 8) /\
  (int_of_str "" = None /\ int_of_str "- 7" = None /\ int_of_str "1 2" = None /\
   int_of_str (gs ++ "2") = None /\ int_of_str ("2" ++ gs) = None /\
   int_of_str "1__0" = None /\ int_of_str "_1" = None /\
   int_of_str (zeros 4300 ++ "8") = None).
Proof. by vm_compute. Qed.

(** The name "b", a group separator, "2" keeps its separator through
    [strip], and [int] refuses it. *)
Lemma well_rc_separator (self : LabwareInstance) :
  let rest := String (ascii_of_N 29) "2" in
  _well_rc self (PStr (String "b" rest)) = inl (IntLiteralError rest).
Proof. done. Qed.

(** Integers below 256 convert to a float. *)
Lemma float_of_int_small z :
  0 <= z < 256 -> float_of_int z = inr (nearest_float z).
Proof.
  intros Hz.
  assert (Hall : forallb (fun n => negb (PrimFloat.is_infinity (nearest_float (Z.of_nat n))))
                   (seq 0 256) = true) by (by vm_compute).
  rewrite forallb_forall in Hall.
  specialize (Hall (Z.to_nat z)). rewrite Z2Nat.id in Hall by lia.
  unfold float_of_int.
  destruct (PrimFloat.is_infinity (nearest_float z)); [|done].
  discriminate Hall. apply in_seq. lia.
Qed.

Lemma code_below_256 c : (code c < 256)%N.
Proof. destruct c as [[] [] [] [] [] [] [] []]; by vm_compute. Qed.

(** ** Returning normally *)

Lemma leftover_app start t1 t2 evs :
  leftover start (t1 ++ t2) evs =
  match leftover start t1 evs with
  | Some (rest, c) => leftover c t2 rest
  | None => None
  end.
Proof.
  revert start evs. induction t1 as [|t t1 IH]; intros start evs; [done|].
  simpl. destruct (answered start t evs) as [[rest c]|]; [apply IH|done].
Qed.

Lemma completes_ret : completes (ret tt) [] [].
Proof.
  intros r rest c Hopen [= <- <-]. exists r. by rewrite app_nil_r.
Qed.

Lemma completes_send_gcode g tmo : completes (send_gcode g true tmo) [tmo] [g].
Proof.
  intros r rest c Hopen Hleft. simpl in Hleft.
  destruct (answered (clock r) tmo (rx r)) as [[rest' c']|] eqn:Hans; [|done].
  injection Hleft as <- <-.
  destruct (send_gcode_answered g tmo r rest' c' Hopen Hans)
    as (r' & Hrun & H1 & H2 & H3 & H4 & H5).
  by exists r'.
Qed.

(** What follows a step that completes runs from the state it leaves. *)
Lemma completes_then {B} (m : M unit) (k : unit -> M B) t p r rest c :
  completes m t p ->
  ser_open r = true ->
  leftover (clock r) t (rx r) = Some (rest, c) ->
  exists r',
    bind m k r = k tt r' /\ tx r' = tx r ++ p /\ rx r' = rest /\ clock r' = c /\
    ser_open r' = true /\ current_syringe r' = current_syringe r.
Proof.
  intros Hm Hopen Hleft.
  destruct (Hm r rest c Hopen Hleft) as (r' & Hrun & H).
  exists r'. unfold bind. by rewrite Hrun.
Qed.

Lemma completes_bind (m : M unit) (k : unit -> M unit) t1 t2 p1 p2 :
  completes m t1 p1 -> completes (k tt) t2 p2 ->
  completes (bind m k) (t1 ++ t2) (p1 ++ p2).
Proof.
  intros Hm Hk r rest c Hopen Hleft. rewrite leftover_app in Hleft.
  destruct (leftover (clock r) t1 (rx r)) as [[rest1 c1]|] eqn:H1; [|done].
  destruct (completes_then m k t1 p1 r rest1 c1 Hm Hopen H1)
    as (r1 & Hrun & Htx & Hrx & Hc & Ho & Hs).
  rewrite <- Hrx, <- Hc in Hleft.
  destruct (Hk r1 rest c Ho Hleft) as (r2 & Hrun2 & Htx2 & ? & ? & ? & ?).
  exists r2. rewrite Hrun, Hrun2, Htx2, Htx, <- app_assoc.
  repeat split; congruence.
Qed.

Lemma completes_eq (m : M unit) t t' p p' :
  completes m t p -> t = t' -> p = p' -> completes m t' p'.
Proof. by intros H <- <-. Qed.

Lemma completes_move_to x y z u feedrate tmo :
  completes (move_to x y z u feedrate tmo) [tmo]
    [[Lit "G1"] ++ opt_part "X" 3 x ++ opt_part "Y" 3 y ++ opt_part "Z" 3 z
     ++ opt_part "U" 3 u ++ opt_part "F" 0 feedrate].
Proof. apply completes_send_gcode. Qed.

Lemma completes_move_relative dx dy dz du feedrate tmo :
  completes (move_relative dx dy dz du feedrate tmo)
            [default_send_timeout; tmo; default_send_timeout]
            [G91; G1_delta dx dy dz du feedrate; G90].
Proof.
  unfold move_relative.
  apply (completes_bind _ _ [_] [_; _] [_] [_; _]); [apply completes_send_gcode|].
  apply (completes_bind _ _ [_] [_] [_] [_]); apply completes_send_gcode.
Qed.

Lemma completes_home_all timeout :
  completes (home_all timeout) [timeout; default_send_timeout]
            [[Lit "G28"]; [Lit "G1 U5 F200"]].
Proof.
  unfold home_all.
  apply (completes_bind _ _ [_] [_] [_] [_]); apply completes_send_gcode.
Qed.

(** Without the hypothesis on the waits: whenever [move_relative] returns,
    it has sent the three lines and left the firmware in absolute mode. *)
Lemma move_relative_returns_absolute m0 dx dy dz du feedrate tmo r :
  fst (move_relative dx dy dz du feedrate tmo r) = Done tt ->
  firmware_mode m0 (emitted (move_relative dx dy dz du feedrate tmo) r) = Absolute.
Proof.
  intros Hdone.
  rewrite (sends_from_done _ _ _ _ (sends_move_relative dx dy dz du feedrate tmo r) Hdone).
  unfold firmware_mode, G1_delta, nonzero_part.
  by destruct (negb (PrimFloat.eqb dx 0)), (negb (PrimFloat.eqb dy 0)),
    (negb (PrimFloat.eqb dz 0)), (negb (PrimFloat.eqb du 0)), feedrate.
Qed.

Lemma prefix_of_two {A} (l : list A) (a b : A) :
  l `prefix_of` [a; b] -> l = [] \/ l = [a] \/ l = [a; b].
Proof.
  intros [k Hk]. destruct l as [|x [|y [|z l]]]; simpl in Hk; simplify_eq; auto.
Qed.

Ltac completes_walk :=
  cbv beta;
  lazymatch goal with
  | |- completes (bind _ _) _ _ =>
      eapply completes_bind; [completes_walk | completes_walk]
  | |- _ =>
      first [ apply completes_send_gcode | apply completes_move_relative
            | apply completes_move_to | apply completes_ret ]
  end.

Ltac completes_by_walk :=
  eapply completes_eq; [completes_walk | reflexivity | reflexivity].

Lemma get_syringe_resolved name r syr :
  fst (_get_syringe name r) = Done syr -> _get_syringe name r = (Done syr, r).
Proof.
  intros H. pose proof (get_syringe_state name r) as Hs.
  destruct (_get_syringe name r) as [o r']. simpl in *. congruence.
Qed.

Lemma aspirate_current_xy volume_ul syringe syr labware_type z_safe z_aspirate f r :
  fst (_get_syringe syringe r) = Done syr ->
  let run := aspirate volume_ul syringe None PNone labware_type PNone
               (Some z_safe) (Some z_aspirate) f in
  sends_from r run
    (current_xy_plan z_safe z_aspirate (PrimFloat.mul volume_ul (u_per_ul syr)) f) /\
  (ser_open r = true -> answers (clock r) current_xy_timeouts (rx r) = true ->
   fst (run r) = Done tt).
Proof.
  intros Hget run. subst run. unfold aspirate. split.
  - apply sends_from_resolved. intros syr' Hs. rewrite Hget in Hs.
    injection Hs as <-. cbv beta zeta. simpl addressed. cbv iota.
    unfold current_xy_plan. sends_by_walk.
  - intros Hopen Hans. unfold answers in Hans.
    destruct (leftover _ _ _) as [[rest c]|] eqn:Hleft; [|done].
    unfold bind at 1. rewrite (get_syringe_resolved _ _ _ Hget).
    cbv beta zeta. simpl addressed. cbv iota.
    lazymatch goal with
    | |- fst (?m r) = _ =>
        assert (Hc : exists p, completes m current_xy_timeouts p)
          by (eexists; unfold move_z, move_relative_u; completes_by_walk)
    end.
    destruct Hc as [p Hc].
    destruct (Hc r rest c Hopen Hleft) as (r' & Hrun & _). by rewrite Hrun.
Qed.

Lemma dispense_current_xy volume_ul syringe syr labware_type z_safe z_dispense f r :
  fst (_get_syringe syringe r) = Done syr ->
  let run := dispense volume_ul syringe None PNone labware_type PNone
               (Some z_safe) (Some z_dispense) f in
  sends_from r run
    (current_xy_plan z_safe z_dispense
       (PrimFloat.opp (PrimFloat.mul volume_ul (u_per_ul syr))) f) /\
  (ser_open r = true -> answers (clock r) current_xy_timeouts (rx r) = true ->
   fst (run r) = Done tt).
Proof.
  intros Hget run. subst run. unfold dispense. split.
  - apply sends_from_resolved. intros syr' Hs. rewrite Hget in Hs.
    injection Hs as <-. cbv beta zeta. simpl addressed. cbv iota.
    unfold current_xy_plan. sends_by_walk.
  - intros Hopen Hans. unfold answers in Hans.
    destruct (leftover _ _ _) as [[rest c]|] eqn:Hleft; [|done].
    unfold bind at 1. rewrite (get_syringe_resolved _ _ _ Hget).
    cbv beta zeta. simpl addressed. cbv iota.
    lazymatch goal with
    | |- fst (?m r) = _ =>
        assert (Hc : exists p, completes m current_xy_timeouts p)
          by (eexists; unfold move_z, move_relative_u; completes_by_walk)
    end.
    destruct Hc as [p Hc].
    destruct (Hc r rest c Hopen Hleft) as (r' & Hrun & _). by rewrite Hrun.
Qed.

(** For every unrecognised edge: when the four waits of the approach are
    answered, the invalid-edge error is raised with the approach sent. *)
Lemma drop_tip_scrape_bad_edge deck slot_id edge hw extra c r :
  is_str edge "left" = false -> is_str edge "right" = false ->
  slot_center_machine deck slot_id = inr c ->
  ser_open r = true ->
  answers (clock r)
    [default_send_timeout; default_move_timeout; default_move_timeout;
     default_move_timeout] (rx r) = true ->
  fst (drop_tip_scrape deck slot_id edge hw extra r) = Raised BadEdge /\
  emitted (drop_tip_scrape deck slot_id edge hw extra) r = scrape_approach c.
Proof.
  intros Hl Hr Hc Hopen Hans. unfold answers in Hans.
  destruct (leftover _ _ _) as [[rest cl]|] eqn:Hleft; [|done].
  assert (Hrun : exists r',
    drop_tip_scrape deck slot_id edge hw extra r = (Raised BadEdge, r') /\
    tx r' = tx r ++ scrape_approach c).
  { unfold drop_tip_scrape. rewrite Hl, Hr.
    pose proof Hc as Hslot. unfold slot_center_machine in Hslot.
    destruct (slots_item deck slot_id) as [e|s]; [done|]. clear Hslot.
    enter_try. simpl. rewrite Hc. enter_try.
    lazymatch goal with
    | |- exists r', ?m r = _ /\ _ =>
        assert (Heq : forall r0,
          m r0 = bind (set_absolute_mode ;; move_z 100 600 ;;
                       move_xy (fst c) (snd c) 7500 ;; move_z 170 750)
                      (fun _ => @raise unit BadEdge) r0)
    end.
    { intros r0. unfold bind.
      destruct (set_absolute_mode r0) as [[[]| |] r1]; [|done..].
      destruct (move_z _ _ r1) as [[[]| |] r2]; [|done..].
      destruct (move_xy _ _ _ r2) as [[[]| |] r3]; [|done..].
      by destruct (move_z _ _ r3) as [[[]| |] r4]. }
    rewrite Heq.
    assert (Hcp : completes
              (set_absolute_mode ;; move_z 100 600 ;;
               move_xy (fst c) (snd c) 7500 ;; move_z 170 750)
              [default_send_timeout; default_move_timeout; default_move_timeout;
               default_move_timeout] (scrape_approach c))
      by (unfold set_absolute_mode, move_z, move_xy; completes_by_walk).
    destruct (completes_then _ (fun _ => @raise unit BadEdge) _ _ r rest cl
                Hcp Hopen Hleft)
      as (r' & Hk & Htx & _).
    exists r'. by rewrite Hk. }
  destruct Hrun as (r' & Hrun & Htx). split; [by rewrite Hrun|].
  apply emitted_app. by rewrite Hrun.
Qed.

(** The working height [a or bottom]: the height [a] when it is set and not
    zero, the bottom height when it is unset, and also when it is set to
    zero. *)
Lemma or_else_set (z b : float) : PrimFloat.eqb z 0 = false -> or_else (Some z) b = z.
Proof. intros H. unfold or_else, truthy. by rewrite H. Qed.

Lemma or_else_unset (b : float) : or_else None b = b.
Proof. reflexivity. Qed.

Lemma or_else_zero (z b : float) : PrimFloat.eqb z 0 = true -> or_else (Some z) b = b.
Proof. intros H. unfold or_else, truthy. by rewrite H. Qed.

Lemma sends_from_ext {A} r (m m' : M A) p :
  m r = m' r -> sends_from r m' p -> sends_from r m p.
Proof. intros Heq H. unfold sends_from, emitted in *. by rewrite Heq. Qed.

(** ** How an execution ends *)

Lemma ends_ret {A} (a : A) : ends (ret a) [] [] (Done a).
Proof. intros r rest c Hopen [= <- <-]. exists r. by rewrite app_nil_r. Qed.

Lemma ends_raise {A} (e : exn) : ends (@raise A e) [] [] (Raised e).
Proof. intros r rest c Hopen [= <- <-]. exists r. by rewrite app_nil_r. Qed.

Lemma ends_send_gcode g tmo : ends (send_gcode g true tmo) [tmo] [g] (Done tt).
Proof. apply completes_send_gcode. Qed.

Lemma ends_bind {A B} (m : M A) (k : A -> M B) a t1 t2 p1 p2 o :
  ends m t1 p1 (Done a) -> ends (k a) t2 p2 o ->
  ends (bind m k) (t1 ++ t2) (p1 ++ p2) o.
Proof.
  intros Hm Hk r rest c Hopen Hleft. rewrite leftover_app in Hleft.
  destruct (leftover (clock r) t1 (rx r)) as [[rest1 c1]|] eqn:H1; [|done].
  destruct (Hm r rest1 c1 Hopen H1) as (r1 & Hrun & Htx & Hrx & Hc & Ho & Hs).
  rewrite <- Hrx, <- Hc in Hleft.
  destruct (Hk r1 rest c Ho Hleft) as (r2 & Hrun2 & Htx2 & ? & ? & ? & ?).
  exists r2. unfold bind. rewrite Hrun, Hrun2, Htx2, Htx, <- app_assoc.
  repeat split; congruence.
Qed.

Lemma ends_bind_raised {A B} (m : M A) (k : A -> M B) t p e :
  ends m t p (Raised e) -> ends (bind m k) t p (Raised e).
Proof.
  intros Hm r rest c Hopen Hleft.
  destruct (Hm r rest c Hopen Hleft) as (r1 & Hrun & H).
  exists r1. unfold bind. by rewrite Hrun.
Qed.

Lemma ends_eq {A} (m : M A) t t' p p' o :
  ends m t p o -> t = t' -> p = p' -> ends m t' p' o.
Proof. by intros H <- <-. Qed.

Lemma ends_repeat (n : nat) (body : M unit) t p :
  ends body t p (Done tt) ->
  ends (repeat_ n body) (concat (replicate n t)) (concat (replicate n p)) (Done tt).
Proof.
  intros H. induction n as [|n IH]; simpl.
  - apply ends_ret.
  - by apply (ends_bind body _ tt).
Qed.

Lemma ends_dwell_200ms : ends (dwell 0.2) [dwell_timeout 0.2] [G4_P 200] (Done tt).
Proof.
  unfold dwell.
  replace (int_of_float (PrimFloat.mul 0.2 1000)) with (@inr exn Z 200)
    by (by vm_compute).
  apply (ends_bind _ _ 200 [] [_] [] [_]); [apply ends_ret|apply ends_send_gcode].
Qed.

Lemma ends_move_relative dx dy dz du feedrate tmo :
  ends (move_relative dx dy dz du feedrate tmo)
       [default_send_timeout; tmo; default_send_timeout]
       [G91; G1_delta dx dy dz du feedrate; G90] (Done tt).
Proof. apply completes_move_relative. Qed.

(** What an execution that ends so returns and has sent. *)
Lemma ends_run {A} (m : M A) t p o r :
  ends m t p o -> ser_open r = true -> answers (clock r) t (rx r) = true ->
  fst (m r) = o /\ emitted m r = p.
Proof.
  intros H Hopen Hans. unfold answers in Hans.
  destruct (leftover _ _ _) as [[rest c]|] eqn:Hleft; [|done].
  destruct (H r rest c Hopen Hleft) as (r' & Hrun & Htx & _).
  split; [by rewrite Hrun|]. apply emitted_app. by rewrite Hrun.
Qed.

Lemma ends_from {A} (m m' : M A) t p o r :
  m r = m' r -> ends m' t p o ->
  ser_open r = true -> answers (clock r) t (rx r) = true ->
  fst (m r) = o /\ emitted m r = p.
Proof.
  intros Heq He Hopen Hans. unfold emitted. rewrite Heq.
  exact (ends_run m' t p o r He Hopen Hans).
Qed.

(** Walk through a sequence of sends, collecting its timeouts and lines. *)
Ltac ends_walk :=
  cbv beta;
  lazymatch goal with
  | |- ends (bind (try_ (inl _)) _) _ _ _ => apply ends_bind_raised, ends_raise
  | |- ends (bind (raise _) _) _ _ _ => apply ends_bind_raised, ends_raise
  | |- ends (bind (try_ (inr _)) _) _ _ _ =>
      eapply ends_bind; [apply ends_ret | ends_walk]
  | |- ends (bind (ret _) _) _ _ _ =>
      eapply ends_bind; [apply ends_ret | ends_walk]
  | |- ends (bind _ _) _ _ _ => eapply ends_bind; [ends_walk | ends_walk]
  | |- ends (repeat_ _ _) _ _ _ => eapply ends_repeat; ends_walk
  | |- ends (ret _) _ _ _ => apply ends_ret
  | |- ends (raise _) _ _ _ => apply ends_raise
  | |- ends (try_ (inl _)) _ _ _ => apply ends_raise
  | |- ends (dwell _) _ _ _ => apply ends_dwell_200ms
  | |- ends (move_relative_u _ _) _ _ _ => apply ends_move_relative
  | |- ends (move_relative _ _ _ _ _ _) _ _ _ => apply ends_move_relative
  | |- _ => apply ends_send_gcode
  end.

Ltac ends_by_walk := eapply ends_eq; [ends_walk | reflexivity | reflexivity].

Lemma ends_pick_up_tip deck slot_id well n_cycles s xy :
  slots_item deck slot_id = inr s ->
  well_position_machine
    (MkInstance LABWARE_TIPRACK_96 s (label_for "tiprack_slot" slot_id) deck) well
    = inr xy ->
  ends (pick_up_tip deck slot_id well n_cycles)
       (pick_up_tip_timeouts (Z.to_nat n_cycles))
       (pick_up_tip_plan xy (Z.to_nat n_cycles)) (Done tt).
Proof.
  intros Hs Hw. unfold pick_up_tip. rewrite Hs. enter_try. simpl.
  rewrite Hw. unfold pick_up_tip_timeouts, pick_up_tip_plan.
  ends_by_walk.
Qed.

Lemma ends_pick_up_tip_bad_well deck slot_id well n_cycles s e :
  slots_item deck slot_id = inr s ->
  well_position_machine
    (MkInstance LABWARE_TIPRACK_96 s (label_for "tiprack_slot" slot_id) deck) well
    = inl e ->
  ends (pick_up_tip deck slot_id well n_cycles)
       [default_send_timeout; default_move_timeout]
       [G90; G1_Z 100 750] (Raised e).
Proof.
  intros Hs Hw. unfold pick_up_tip. rewrite Hs. enter_try. simpl.
  rewrite Hw. ends_by_walk.
Qed.

(** [transfer_volume], [aspirate] and [dispense] once the syringe is
    resolved and the checks before the first send have passed. *)
Lemma transfer_volume_body (deck : Deck) (src_slot src_well dst_slot dst_well : pyval)
  (volume_ul : float) (syringe : pyval) (f : Feeds) (syr : SyringeType)
  (s_src s_dst : DeckSlot) (r : Robot) :
  fst (_get_syringe syringe r) = Done syr ->
  below_bound (u_base syr) (u_min syr) = false ->
  above_bound (PrimFloat.add (u_base syr) (PrimFloat.mul volume_ul (u_per_ul syr)))
    (u_max syr) = false ->
  slots_item deck src_slot = inr s_src ->
  slots_item deck dst_slot = inr s_dst ->
  let src_plate := MkInstance LABWARE_48WELL_10MM s_src
                     (label_for "plate_src_slot" src_slot) deck in
  let dst_plate := MkInstance LABWARE_48WELL_10MM s_dst
                     (label_for "plate_dst_slot" dst_slot) deck in
  let u_asp := PrimFloat.add (u_base syr) (PrimFloat.mul volume_ul (u_per_ul syr)) in
  transfer_volume deck src_slot src_well dst_slot dst_well volume_ul syringe f r =
  (set_absolute_mode ;;
   move_u (u_base syr) (feed_u f) ;;
   move_z 158 (feed_z_up f) ;;
   src <- try_ (well_position_machine src_plate src_well) ;;
   move_xy (fst src) (snd src) (feed_xy f) ;;
   move_z 170 (feed_z_down f) ;;
   move_u u_asp (feed_u f) ;;
   move_z 158 (feed_z_up f) ;;
   move_z 158 (feed_z_up f) ;;
   dst <- try_ (well_position_machine dst_plate dst_well) ;;
   move_xy (fst dst) (snd dst) (feed_xy f) ;;
   move_z 170 (feed_z_down f) ;;
   move_u (u_base syr) (feed_u f) ;;
   move_z 158 (feed_z_up f)) r.
Proof.
  intros Hget Hmin Hmax Hsrc Hdst src_plate dst_plate u_asp.
  unfold transfer_volume. unfold bind at 1.
  rewrite (get_syringe_resolved _ _ _ Hget). cbv beta zeta.
  rewrite Hmin, Hmax, Hsrc. enter_try. rewrite Hdst. enter_try. reflexivity.
Qed.

Lemma addressed_some d slot_id well :
  is_none slot_id = false -> is_none well = false ->
  addressed (Some d) slot_id well = Some d.
Proof. intros H1 H2. unfold addressed. by rewrite H1, H2. Qed.

Lemma aspirate_resolved volume_ul syringe syr deck slot_id labware_type well
  z_safe z_work f r :
  fst (_get_syringe syringe r) = Done syr ->
  aspirate volume_ul syringe deck slot_id labware_type well z_safe z_work f r =
  (set_absolute_mode ;;
   match addressed deck slot_id well with
   | Some deck =>
       s <- try_ (slots_item deck slot_id) ;;
       let plate := MkInstance labware_type s (label_for "asp_plate_slot" slot_id) deck in
       (if is_ labware_type LABWARE_BEAKER_1WELL then
          move_z (safe_z labware_type) (feed_z_up f) ;;
          xy <- try_ (well_position_machine plate well) ;;
          move_xy (fst xy) (snd xy) (feed_xy f)
        else
          xy <- try_ (well_position_machine plate well) ;;
          move_xy (fst xy) (snd xy) (feed_xy f)) ;;
       move_z (or_else (aspirate_z labware_type) (bottom_z labware_type)) (feed_z_down f) ;;
       move_relative_u (PrimFloat.mul volume_ul (u_per_ul syr)) (feed_u f) ;;
       move_z (safe_z labware_type) (feed_z_up f)
   | None =>
       match z_safe, z_work with
       | Some z_safe, Some z_aspirate =>
           move_z z_safe (feed_z_up f) ;;
           move_z z_aspirate (feed_z_down f) ;;
           move_relative_u (PrimFloat.mul volume_ul (u_per_ul syr)) (feed_u f) ;;
           move_z z_safe (feed_z_up f)
       | _, _ => raise MissingCurrentXYHeights
       end
   end) r.
Proof.
  intros Hget. unfold aspirate. unfold bind at 1.
  by rewrite (get_syringe_resolved _ _ _ Hget).
Qed.

Lemma dispense_resolved volume_ul syringe syr deck slot_id labware_type well
  z_safe z_work f r :
  fst (_get_syringe syringe r) = Done syr ->
  dispense volume_ul syringe deck slot_id labware_type well z_safe z_work f r =
  (set_absolute_mode ;;
   match addressed deck slot_id well with
   | Some deck =>
       s <- try_ (slots_item deck slot_id) ;;
       let plate := MkInstance labware_type s (label_for "disp_plate_slot" slot_id) deck in
       (if is_ labware_type LABWARE_BEAKER_1WELL then
          move_z (safe_z labware_type) (feed_z_up f) ;;
          xy <- try_ (well_position_machine plate well) ;;
          move_xy (fst xy) (snd xy) (feed_xy f)
        else
          xy <- try_ (well_position_machine plate well) ;;
          move_xy (fst xy) (snd xy) (feed_xy f)) ;;
       move_z (or_else (dispense_z labware_type) (bottom_z labware_type)) (feed_z_down f) ;;
       move_relative_u (PrimFloat.opp (PrimFloat.mul volume_ul (u_per_ul syr))) (feed_u f) ;;
       move_z (safe_z labware_type) (feed_z_up f)
   | None =>
       match z_safe, z_work with
       | Some z_safe, Some z_dispense =>
           move_z z_safe (feed_z_up f) ;;
           move_z z_dispense (feed_z_down f) ;;
           move_relative_u (PrimFloat.opp (PrimFloat.mul volume_ul (u_per_ul syr)))
             (feed_u f) ;;
           move_z z_safe (feed_z_up f)
       | _, _ => raise MissingCurrentXYHeights
       end
   end) r.
Proof.
  intros Hget. unfold dispense. unfold bind at 1.
  by rewrite (get_syringe_resolved _ _ _ Hget).
Qed.

(** ** Waits that fail, and waits without a timeout *)

Lemma drain_loop_fails pre : forall fuel start tmo r ev post,
  ser_open r = true -> rx r = pre ++ ev :: post ->
  (length (pre ++ ev :: post) < fuel)%nat ->
  forallb (passed_over start tmo) pre = true ->
  error_marker (line_of ev) = true ->
  exists r',
    drain_loop fuel start tmo r = (Raised (FirmwareError (line_of ev)), r') /\
    tx r' = tx r /\ rx r' = post.
Proof.
  induction pre as [|p pre IH]; intros fuel start tmo r ev post Hopen Hrx Hfuel Hpre Herr.
  - destruct fuel as [|fuel]; [simpl in Hfuel; lia|].
    rewrite (drain_loop_step _ _ _ _ _ _ Hopen Hrx), Herr. by eexists.
  - destruct fuel as [|fuel]; [simpl in Hfuel; lia|].
    simpl in Hpre. apply andb_prop in Hpre as [Hp Hpre].
    unfold passed_over, neutral in Hp.
    apply andb_prop in Hp as [Hn Hexp]. apply andb_prop in Hn as [Hne Hnok].
    apply negb_true_iff in Hne, Hnok, Hexp.
    rewrite (drain_loop_step _ _ _ _ _ _ Hopen Hrx), Hne, Hnok, Hexp.
    destruct (IH fuel start tmo (set_clock (ev_clock p) (set_rx (pre ++ ev :: post) r))
                ev post) as (r' & Hr & Htx & Hrx'); [done|done|simpl in *; lia|done|done|].
    by exists r'.
Qed.

Lemma send_gcode_fails g tmo r pre ev post :
  ser_open r = true -> rx r = pre ++ ev :: post ->
  forallb (passed_over (clock r) tmo) pre = true ->
  error_marker (line_of ev) = true ->
  exists r',
    send_gcode g true tmo r = (Raised (FirmwareError (line_of ev)), r') /\
    tx r' = tx r ++ [g] /\ rx r' = post.
Proof.
  intros Hopen Hrx Hpre Herr.
  assert (Hrun : send_gcode g true tmo r
                 = drain_loop (S (length (rx r))) (clock r) tmo (push_tx g r)).
  { unfold send_gcode, _write_line, _ensure_connected, bind. by rewrite Hopen. }
  rewrite Hrun.
  destruct (drain_loop_fails pre (S (length (rx r))) (clock r) tmo (push_tx g r) ev post)
    as (r' & Hr & Htx & Hrx'); [done|done|rewrite Hrx; lia|done|done|].
  by exists r'.
Qed.

Lemma unbounded_not_expired start tmo ev :
  unbounded tmo = true -> expired start tmo ev = false.
Proof.
  destruct tmo as [t|]; [|done]. simpl. intros H%negb_true_iff. by rewrite H.
Qed.

Lemma drain_loop_waits evs : forall fuel start tmo r,
  ser_open r = true -> rx r = evs -> (length evs < fuel)%nat ->
  unbounded tmo = true ->
  forallb neutral evs = true ->
  exists r',
    drain_loop fuel start tmo r = (Starved, r') /\
    tx r' = tx r /\ rx r' = [] /\ log r' = log r.
Proof.
  induction evs as [|ev evs IH]; intros fuel start tmo r Hopen Hrx Hfuel Ht Hall.
  - rewrite (drain_loop_starved _ _ _ _ Hopen Hrx). by exists r.
  - destruct fuel as [|fuel]; [simpl in Hfuel; lia|].
    simpl in Hall. apply andb_prop in Hall as [Hn Hall].
    unfold neutral in Hn. apply andb_prop in Hn as [Hne Hnok].
    apply negb_true_iff in Hne, Hnok.
    rewrite (drain_loop_step _ _ _ _ _ _ Hopen Hrx), Hne, Hnok.
    rewrite (unbounded_not_expired start tmo ev Ht).
    destruct (IH fuel start tmo (set_clock (ev_clock ev) (set_rx evs r)))
      as (r' & Hr & Htx & Hrx' & Hlog); [done|done|simpl in *; lia|done|done|].
    by exists r'.
Qed.

(** ** The mode an operation leaves *)

Lemma mode_step_other m g : mode_line g = false -> mode_step m g = m.
Proof.
  unfold mode_line, mode_step. intros H.
  repeat match goal with
         | H : context [match ?x with _ => _ end] |- _ => destruct x; try done
         end.
Qed.

Lemma firmware_mode_keeps l : forall m,
  no_mode_line l = true -> firmware_mode m l = m.
Proof.
  induction l as [|g l IH]; intros m H; [done|].
  unfold no_mode_line in H. simpl in H. apply andb_prop in H as [Hg Hl].
  apply negb_true_iff in Hg. unfold firmware_mode. simpl.
  rewrite (mode_step_other m g Hg). by apply IH.
Qed.

Lemma no_mode_line_prefix l1 l2 :
  l1 `prefix_of` l2 -> no_mode_line l2 = true -> no_mode_line l1 = true.
Proof.
  intros [k ->]. unfold no_mode_line. rewrite forallb_app.
  by intros [? _]%andb_prop.
Qed.

Lemma absolute_after_G90 m0 sent rest :
  sent `prefix_of` G90 :: rest -> sent <> [] -> no_mode_line rest = true ->
  firmware_mode m0 sent = Absolute.
Proof.
  intros Hp Hne Hrest. destruct sent as [|g sent]; [done|].
  apply prefix_cons_inv_1 in Hp as Hg. apply prefix_cons_inv_2 in Hp. subst g.
  unfold firmware_mode. simpl. apply firmware_mode_keeps.
  by apply (no_mode_line_prefix _ rest).
Qed.

Lemma no_mode_line_tip_cycles n : no_mode_line (concat (replicate n tip_cycle)) = true.
Proof.
  induction n as [|n IH]; [done|]. unfold no_mode_line in *.
  cbn [replicate concat]. by rewrite forallb_app, IH.
Qed.

Lemma pick_up_tip_plan_mode xy n :
  exists rest, pick_up_tip_plan xy n = G90 :: rest /\ no_mode_line rest = true.
Proof.
  exists ([G1_Z 100 750; G1_XY (fst xy) (snd xy) 7500; G1_Z 170 750; G4_P 200]
          ++ concat (replicate n tip_cycle)
          ++ [G1_Z 176 750; G4_P 200; G1_Z 172 750; G1_Z 100 600]).
  split; [reflexivity|]. unfold no_mode_line.
  rewrite !forallb_app. fold (no_mode_line (concat (replicate n tip_cycle))).
  by rewrite no_mode_line_tip_cycles.
Qed.

Lemma firmware_mode_ends_absolute m0 l post :
  no_mode_line post = true -> firmware_mode m0 (l ++ G90 :: post) = Absolute.
Proof.
  intros H. unfold firmware_mode. rewrite fold_left_app. simpl.
  by apply firmware_mode_keeps.
Qed.

Lemma addressed_plan_mode b zs zw du xy f m0 :
  firmware_mode m0 (addressed_plan b zs zw du xy f) = Absolute.
Proof.
  replace (addressed_plan b zs zw du xy f) with
    ((G90 :: (if b then [G1_Z zs (feed_z_up f)] else [])
      ++ [G1_XY (fst xy) (snd xy) (feed_xy f); G1_Z zw (feed_z_down f); G91;
          G1_delta 0 0 0 du (Some (feed_u f))])
     ++ G90 :: [G1_Z zs (feed_z_up f)])
    by (unfold addressed_plan; by destruct b).
  by apply firmware_mode_ends_absolute.
Qed.

Lemma current_xy_plan_mode zs zw du f m0 :
  firmware_mode m0 (current_xy_plan zs zw du f) = Absolute.
Proof.
  change (current_xy_plan zs zw du f) with
    ([G90; G1_Z zs (feed_z_up f); G1_Z zw (feed_z_down f); G91;
      G1_delta 0 0 0 du (Some (feed_u f))]
     ++ G90 :: [G1_Z zs (feed_z_up f)]).
  by apply firmware_mode_ends_absolute.
Qed.

Ltac addressed_well b :=
  lazymatch goal with
  | |- context [well_position_machine ?i ?w] =>
      let xy := fresh "xy" in
      destruct (well_position_machine i w) as [?|xy];
      [ lazymatch b with
        | true => eexists [G90; G1_Z _ _]
        | false => exists [G90]
        end;
        (split; [sends_by_walk|done])
      | eexists (addressed_plan b _ _ _ xy _);
        (split; [unfold addressed_plan; sends_by_walk
                |intros; apply addressed_plan_mode]) ]
  end.

Ltac addressed_body :=
  cbv beta zeta;
  lazymatch goal with
  | |- context [addressed ?deck ?slot_id ?well] =>
      let d := fresh "d" in
      destruct (addressed deck slot_id well) as [d|];
      [ destruct (slots_item d slot_id) as [?|?];
        [ exists [G90]; split; [sends_by_walk|done]
        | enter_try;
          lazymatch goal with
          | |- context [is_ ?t LABWARE_BEAKER_1WELL] =>
              destruct (is_ t LABWARE_BEAKER_1WELL);
              [addressed_well true | addressed_well false]
          end ]
      | lazymatch goal with
        | |- context [match ?zs with Some _ => _ | None => _ end] =>
            destruct zs as [?|];
            [ lazymatch goal with
              | |- context [match ?zw with Some _ => _ | None => _ end] =>
                  destruct zw as [?|];
                  [ eexists (current_xy_plan _ _ _ _);
                    split; [unfold current_xy_plan; sends_by_walk
                           |intros; apply current_xy_plan_mode]
                  | exists [G90]; split; [sends_by_walk|done] ]
              end
            | exists [G90]; split; [sends_by_walk|done] ]
        end ]
  end.

Lemma sends_aspirate r volume_ul syringe deck slot_id labware_type well z_safe z_work f :
  exists plan,
    sends_from r
      (aspirate volume_ul syringe deck slot_id labware_type well z_safe z_work f) plan /\
    forall m0, firmware_mode m0 plan = Absolute.
Proof.
  unfold aspirate.
  lazymatch goal with
  | |- context [bind (_get_syringe syringe) ?k] =>
      assert (Hk : forall syr, exists plan,
                 sends (k syr) plan /\ forall m0, firmware_mode m0 plan = Absolute)
  end.
  { intros syr. addressed_body. }
  destruct (_get_syringe syringe r) as [[syr| |] r1] eqn:Hget.
  2,3: exists [G90]; split; [|done]; apply sends_from_resolved;
       intros syr Hs; rewrite Hget in Hs; discriminate.
  destruct (Hk syr) as (plan & Hs & Hm). exists plan. split; [|done].
  apply sends_from_resolved. intros syr' Hs'. rewrite Hget in Hs'.
  injection Hs' as <-. apply Hs.
Qed.

Lemma sends_dispense r volume_ul syringe deck slot_id labware_type well z_safe z_work f :
  exists plan,
    sends_from r
      (dispense volume_ul syringe deck slot_id labware_type well z_safe z_work f) plan /\
    forall m0, firmware_mode m0 plan = Absolute.
Proof.
  unfold dispense.
  lazymatch goal with
  | |- context [bind (_get_syringe syringe) ?k] =>
      assert (Hk : forall syr, exists plan,
                 sends (k syr) plan /\ forall m0, firmware_mode m0 plan = Absolute)
  end.
  { intros syr. addressed_body. }
  destruct (_get_syringe syringe r) as [[syr| |] r1] eqn:Hget.
  2,3: exists [G90]; split; [|done]; apply sends_from_resolved;
       intros syr Hs; rewrite Hget in Hs; discriminate.
  destruct (Hk syr) as (plan & Hs & Hm). exists plan. split; [|done].
  apply sends_from_resolved. intros syr' Hs'. rewrite Hget in Hs'.
  injection Hs' as <-. apply Hs.
Qed.

(** ** A closed port *)

Lemma refused_send_gcode g wait_ok tmo r :
  ser_open r = false -> send_gcode g wait_ok tmo r = (Raised SerialNotConnected, r).
Proof.
  intros H. unfold send_gcode, _write_line, bind, _ensure_connected. by rewrite H.
Qed.

Lemma refused_send g wait_ok tmo : refused (send_gcode g wait_ok tmo).
Proof. intros r H. eexists. by apply refused_send_gcode. Qed.

Lemma refused_raise {A} (e : exn) : refused (@raise A e).
Proof. intros r _. by exists e. Qed.

Lemma refused_bind {A B} (m : M A) (k : A -> M B) : refused m -> refused (bind m k).
Proof.
  intros Hm r H. destruct (Hm r H) as [e He]. exists e. unfold bind. by rewrite He.
Qed.

Lemma refused_after {A B} (m : M A) (k : A -> M B) :
  settled m -> (forall a, refused (k a)) -> refused (bind m k).
Proof.
  intros Hm Hk r H. unfold bind.
  destruct (Hm r) as [[a Ha]|[e He]].
  - rewrite Ha. by apply Hk.
  - rewrite He. by exists e.
Qed.

Lemma settled_ret {A} (a : A) : settled (ret a).
Proof. intros r. left. by exists a. Qed.

Lemma settled_raise {A} (e : exn) : settled (@raise A e).
Proof. intros r. right. by exists e. Qed.

Lemma settled_try {A} (x : exn + A) : settled (try_ x).
Proof. destruct x; [apply settled_raise|apply settled_ret]. Qed.

Lemma settled_lift {A} (o : option A) e : settled (lift o e).
Proof. destruct o; [apply settled_ret|apply settled_raise]. Qed.

Lemma settled_get_syringe name : settled (_get_syringe name).
Proof.
  intros r. destruct name as [|f|n]; simpl.
  - destruct (current_syringe r); [left|right]; eauto.
  - right. eauto.
  - destruct (SYRINGES !! n); [left|right]; eauto.
Qed.

Create HintDb refused_db.
#[local] Hint Resolve refused_send refused_raise : refused_db.

Ltac refused_walk :=
  cbv beta zeta;
  lazymatch goal with
  | |- refused (bind (try_ _) _) =>
      apply refused_after; [apply settled_try | intros ?; refused_walk]
  | |- refused (bind (lift _ _) _) =>
      apply refused_after; [apply settled_lift | intros ?; refused_walk]
  | |- refused (bind (item _ _) _) =>
      apply refused_after; [apply settled_lift | intros ?; refused_walk]
  | |- refused (bind (_get_syringe _) _) =>
      apply refused_after; [apply settled_get_syringe | intros ?; refused_walk]
  | |- refused (bind (bind _ _) _) => apply refused_bind; refused_walk
  | |- refused (bind _ _) => apply refused_bind; refused_walk
  | |- refused (raise _) => apply refused_raise
  | |- refused (if ?b then _ else _) => destruct b; refused_walk
  | |- refused (match ?x with Some _ => _ | None => _ end) => destruct x; refused_walk
  | |- _ => first [solve [auto with refused_db] | apply refused_send]
  end.

Lemma refused_dwell seconds : refused (dwell seconds).
Proof. unfold dwell. refused_walk. Qed.

Lemma refused_home axes timeout : refused (home axes timeout).
Proof. apply refused_send. Qed.

Lemma refused_home_all timeout : refused (home_all timeout).
Proof. unfold home_all. refused_walk. Qed.

Lemma refused_move_to x y z u feedrate tmo : refused (move_to x y z u feedrate tmo).
Proof. apply refused_send. Qed.

Lemma refused_move_relative dx dy dz du feedrate tmo :
  refused (move_relative dx dy dz du feedrate tmo).
Proof. unfold move_relative. refused_walk. Qed.

Lemma refused_get_position fs : refused (get_position fs).
Proof.
  intros r H. exists SerialNotConnected.
  unfold get_position, bind, _ensure_connected. by rewrite H.
Qed.

Lemma refused_pick_up_tip deck slot_id well n_cycles :
  refused (pick_up_tip deck slot_id well n_cycles).
Proof. unfold pick_up_tip. refused_walk. Qed.

Lemma refused_drop_tip_scrape deck slot_id edge hw extra :
  refused (drop_tip_scrape deck slot_id edge hw extra).
Proof. unfold drop_tip_scrape. refused_walk. Qed.

Lemma refused_transfer_volume deck src_slot src_well dst_slot dst_well volume_ul
  syringe f :
  refused (transfer_volume deck src_slot src_well dst_slot dst_well volume_ul syringe f).
Proof. unfold transfer_volume. refused_walk. Qed.

Lemma refused_aspirate volume_ul syringe deck slot_id labware_type well z_safe z_work f :
  refused (aspirate volume_ul syringe deck slot_id labware_type well z_safe z_work f).
Proof. unfold aspirate. refused_walk. Qed.

Lemma refused_dispense volume_ul syringe deck slot_id labware_type well z_safe z_work f :
  refused (dispense volume_ul syringe deck slot_id labware_type well z_safe z_work f).
Proof. unfold dispense. refused_walk. Qed.

#[local] Hint Resolve refused_dwell refused_home refused_pick_up_tip
  refused_drop_tip_scrape refused_transfer_volume refused_aspirate refused_dispense
  : refused_db.

Lemma refused_step fs g step : refused (_run_single_step fs g step).
Proof.
  unfold _run_single_step, require_robot.
  destruct (robot_connected g), (panel_deck g) as [d|];
    try (apply refused_bind, refused_raise).
  apply refused_after; [apply settled_ret|]. intros deck. cbv beta zeta.
  repeat lazymatch goal with
         | |- refused (if is_str ?a ?b then _ else _) => destruct (is_str a b)
         end.

  all: unfold aspirate_from_beaker, dispense_to_beaker; refused_walk.
Qed.

(** ** The exceptions of an operation *)

Lemma raises_only_bind {A B} (P : exn -> Prop) (m : M A) (k : A -> M B) :
  raises_only P m -> (forall a, raises_only P (k a)) -> raises_only P (bind m k).
Proof.
  intros Hm Hk r e. unfold bind. specialize (Hm r).
  destruct (m r) as [[a|e'|] r'] eqn:Hr; simpl in *.
  - apply Hk.
  - intros [= <-]. by apply Hm.
  - done.
Qed.

Lemma raises_only_ret {A} (P : exn -> Prop) (a : A) : raises_only P (ret a).
Proof. by intros r e. Qed.

Lemma raises_only_raise {A} (P : exn -> Prop) (e : exn) :
  P e -> raises_only P (@raise A e).
Proof. intros H r e' [= <-]. done. Qed.

Lemma raises_only_try {A} (P : exn -> Prop) (x : exn + A) :
  (forall e, x = inl e -> P e) -> raises_only P (try_ x).
Proof.
  intros H. destruct x as [e|a]; [|apply raises_only_ret].
  apply raises_only_raise. by apply H.
Qed.

Lemma raises_only_mono {A} (P Q : exn -> Prop) (m : M A) :
  (forall e, P e -> Q e) -> raises_only P m -> raises_only Q m.
Proof. intros H Hm r e He. apply H. by apply (Hm r). Qed.

Lemma raises_only_send g wait_ok tmo : raises_only link_error (send_gcode g wait_ok tmo).
Proof.
  intros r e. destruct (ser_open r) eqn:Hopen.
  - assert (Hrun : send_gcode g wait_ok tmo r =
                   if wait_ok
                   then drain_loop (S (length (rx r))) (clock r) tmo (push_tx g r)
                   else (Done tt, push_tx g r)).
    { unfold send_gcode, _write_line, _ensure_connected, bind. rewrite Hopen.
      by destruct wait_ok. }
    rewrite Hrun. destruct wait_ok; [|done].
    intros H. right. eapply (drain_loop_raises (rx r)); [| |exact H]; done.
  - rewrite refused_send_gcode by done. intros [= <-]. by left.
Qed.

Lemma raises_only_repeat (P : exn -> Prop) n (body : M unit) :
  raises_only P body -> raises_only P (repeat_ n body).
Proof.
  intros H. induction n as [|n IH]; simpl; [apply raises_only_ret|].
  by apply raises_only_bind.
Qed.

Lemma raises_only_dwell_200ms : raises_only link_error (dwell 0.2).
Proof.
  unfold dwell.
  replace (int_of_float (PrimFloat.mul 0.2 1000)) with (@inr exn Z 200)
    by (by vm_compute).
  apply raises_only_bind; [apply raises_only_ret|]. intros ms. apply raises_only_send.
Qed.

Lemma raises_only_get_syringe name :
  raises_only (fun e => e = NoSyringeSelected \/ e = UnknownSyringe name)
              (_get_syringe name).
Proof.
  intros r e. destruct name as [|f|n]; simpl.
  - destruct (current_syringe r); [done|]. intros [= <-]. by left.
  - intros [= <-]. by right.
  - destruct (SYRINGES !! n); [done|]. intros [= <-]. by right.
Qed.

Lemma slots_item_error d key e : slots_item d key = inl e -> e = KeyError key.
Proof.
  unfold slots_item. destruct key as [|f|k]; try (by intros [= <-]).
  destruct (slots d !! k); [done|]. by intros [= <-].
Qed.

Lemma well_position_error self well e :
  cols (type_ self) <= 256 ->
  well_position_machine self well = inl e -> well_error e.
Proof.
  intros Hcols.
  unfold well_position_machine, well_position_deck, _well_rc.
  destruct well as [|f|w]; try (by intros [= <-]).
  destruct (head_tail _) as [[c rest]|]; [|by intros [= <-]].
  destruct (int_of_str rest) as [n|]; [|by intros [= <-]].
  cbv zeta. set (row := Z.of_N (code c) - Z.of_N (code "A"%char)).
  destruct (negb ((0 <=? row) && (row <? _))) eqn:Hrow; [by intros [= <-]|].
  destruct (negb ((0 <=? n - 1) && (n - 1 <? _))) eqn:Hcol; [by intros [= <-]|].
  apply negb_false_iff, andb_prop in Hrow as [Hr1 Hr2].
  apply negb_false_iff, andb_prop in Hcol as [Hc1 Hc2].
  apply Z.leb_le in Hr1, Hc1. apply Z.ltb_lt in Hr2, Hc2.
  pose proof (code_below_256 c) as Hcode.
  assert (Hrow : 0 <= row < 256) by (unfold row in *; lia).
  by rewrite (float_of_int_small (n - 1)), (float_of_int_small row) by lia.
Qed.

Ltac raises_walk :=
  cbv beta zeta;
  lazymatch goal with
  | |- raises_only _ (bind _ _) =>
      apply raises_only_bind; [raises_walk | intros ?; raises_walk]
  | |- raises_only _ (repeat_ _ _) => apply raises_only_repeat; raises_walk
  | |- raises_only _ (ret _) => apply raises_only_ret
  | |- raises_only _ (if ?b then _ else _) => destruct b; raises_walk
  | |- raises_only _ (dwell _) =>
      eapply raises_only_mono; [|apply raises_only_dwell_200ms]; cbv beta; tauto
  | |- raises_only _ (try_ (slots_item _ _)) =>
      apply raises_only_try; intros ? ?%slots_item_error; tauto
  | |- raises_only _ (try_ (well_position_machine _ _)) =>
      apply raises_only_try; intros ? ?%well_position_error; [tauto|by vm_compute]
  | |- raises_only _ (raise _) => apply raises_only_raise; tauto
  | |- raises_only _ (_get_syringe _) =>
      eapply raises_only_mono; [|apply raises_only_get_syringe]; cbv beta; tauto
  | |- _ =>
      eapply raises_only_mono; [|apply raises_only_send]; cbv beta; tauto
  end.

Lemma raises_pick_up_tip deck slot_id well n_cycles :
  raises_only (fun e => e = KeyError slot_id \/ well_error e \/ link_error e)
    (pick_up_tip deck slot_id well n_cycles).
Proof.
  unfold pick_up_tip.
  apply raises_only_bind; [raises_walk|]. intros s. cbv beta zeta. simpl.
  raises_walk.
Qed.

Lemma raises_drop_tip_scrape deck slot_id edge hw extra :
  raises_only (fun e => e = KeyError slot_id \/ e = BadEdge \/ link_error e)
    (drop_tip_scrape deck slot_id edge hw extra).
Proof.
  unfold drop_tip_scrape.
  apply raises_only_bind; [raises_walk|]. intros s. cbv beta zeta. simpl.
  apply raises_only_bind.
  { apply raises_only_try. unfold slot_center_machine. intros e0.
    destruct (slots_item deck slot_id) eqn:Hs; [|done].
    intros [= <-]. left. by apply slots_item_error in Hs. }
  intros c. raises_walk.
Qed.

Lemma raises_transfer_volume deck src_slot src_well dst_slot dst_well volume_ul
  syringe f :
  raises_only
    (fun e => (e = NoSyringeSelected \/ e = UnknownSyringe syringe) \/
              (e = UBaseBelowMin \/ e = UTravelExceedsMax) \/
              (e = KeyError src_slot \/ e = KeyError dst_slot) \/
              well_error e \/ link_error e)
    (transfer_volume deck src_slot src_well dst_slot dst_well volume_ul syringe f).
Proof. unfold transfer_volume. raises_walk. Qed.

Lemma transfer_volume_checked
  (deck : Deck) (src_slot src_well dst_slot dst_well : pyval)
  (volume_ul : float) (syringe : pyval) (f : Feeds) (syr : SyringeType) (r : Robot) :
  fst (_get_syringe syringe r) = Done syr ->
  below_bound (u_base syr) (u_min syr) = false ->
  above_bound (PrimFloat.add (u_base syr) (PrimFloat.mul volume_ul (u_per_ul syr)))
    (u_max syr) = false ->
  forall e,
    fst (transfer_volume deck src_slot src_well dst_slot dst_well volume_ul syringe f r)
      = Raised e ->
    (e = KeyError src_slot \/ e = KeyError dst_slot) \/ well_error e \/ link_error e.
Proof.
  intros Hget Hmin Hmax. unfold transfer_volume. unfold bind at 1.
  rewrite (get_syringe_resolved _ _ _ Hget). cbv beta zeta. rewrite Hmin, Hmax.
  lazymatch goal with
  | |- forall e, fst (?m r) = Raised e -> _ =>
      assert (H : raises_only
                    (fun e => (e = KeyError src_slot \/ e = KeyError dst_slot) \/
                              well_error e \/ link_error e) m)
        by raises_walk
  end.
  intros e. apply H.
Qed.

Lemma transfer_volume_range_error
  (deck : Deck) (src_slot src_well dst_slot dst_well : pyval)
  (volume_ul : float) (syringe : pyval) (f : Feeds) (syr : SyringeType) (r : Robot) :
  fst (_get_syringe syringe r) = Done syr ->
  transfer_volume deck src_slot src_well dst_slot dst_well volume_ul syringe f r =
  if below_bound (u_base syr) (u_min syr) then (Raised UBaseBelowMin, r)
  else if above_bound (PrimFloat.add (u_base syr)
                         (PrimFloat.mul volume_ul (u_per_ul syr))) (u_max syr)
  then (Raised UTravelExceedsMax, r)
  else transfer_volume deck src_slot src_well dst_slot dst_well volume_ul syringe f r.
Proof.
  intros Hget.
  destruct (below_bound _ _) eqn:Hmin; [|destruct (above_bound _ _) eqn:Hmax; [|done]].
  - unfold transfer_volume. unfold bind at 1.
    rewrite (get_syringe_resolved _ _ _ Hget). cbv beta zeta. by rewrite Hmin.
  - unfold transfer_volume. unfold bind at 1.
    rewrite (get_syringe_resolved _ _ _ Hget). cbv beta zeta. by rewrite Hmin, Hmax.
Qed.

(** ** Letter case and white space *)











Lemma lstrip_spec l :
  lstrip l = [] \/ exists c l', lstrip l = c :: l' /\ isspace c = false.
Proof.
  induction l as [|c l IH]; [by left|]. simpl.
  destruct (isspace c) eqn:Hc; [done|]. right. by exists c, l.
Qed.

Lemma lstrip_idem l : lstrip (lstrip l) = lstrip l.
Proof.
  destruct (lstrip_spec l) as [->|(c & l' & -> & Hc)]; [done|].
  by apply lstrip_head.
Qed.

Lemma lstrip_snoc l c : isspace c = false -> lstrip (l ++ [c]) = lstrip l ++ [c].
Proof.
  intros Hc. induction l as [|a l IH]; simpl.
  - by rewrite Hc.
  - by destruct (isspace a).
Qed.

Lemma rstrip_cons c l : isspace c = false -> rstrip (c :: l) = c :: rstrip l.
Proof.
  intros Hc. unfold rstrip. simpl. rewrite lstrip_snoc by done.
  by rewrite rev_app_distr.
Qed.

Lemma rstrip_idem l : rstrip (rstrip l) = rstrip l.
Proof. unfold rstrip. by rewrite rev_involutive, lstrip_idem. Qed.

Lemma strip_chars_idem l : rstrip (lstrip (rstrip (lstrip l))) = rstrip (lstrip l).
Proof.
  destruct (lstrip_spec l) as [->|(c & l' & -> & Hc)]; [done|].
  rewrite rstrip_cons by done. rewrite lstrip_head by done.
  rewrite <- (rstrip_cons c l') by done. apply rstrip_idem.
Qed.

Lemma strip_idem s : strip (strip s) = strip s.
Proof. unfold strip. by rewrite chars_text, strip_chars_idem. Qed.







Lemma chars_app a b : chars (a ++ b)%string = chars a ++ chars b.
Proof. induction a as [|c a IH]; [done|]. simpl. by rewrite IH. Qed.






(** ** The position query *)

Lemma read_line_step r ev rest :
  ser_open r = true -> rx r = ev :: rest ->
  _read_line r = (Done (line_of ev), set_clock (ev_clock ev) (set_rx rest r)).
Proof.
  intros Ho Hrx. unfold _read_line, bind, _ensure_connected, line_of.
  rewrite Ho, Hrx. by destruct (nonempty (ev_raw ev)).
Qed.

Lemma read_line_starved r :
  ser_open r = true -> rx r = [] -> _read_line r = (Starved, r).
Proof.
  intros Ho Hrx. unfold _read_line, bind, _ensure_connected. by rewrite Ho, Hrx.
Qed.

Lemma report_nonempty line : contains "X:" line = true -> nonempty line = true.
Proof. by destruct line. Qed.

Section PositionFacts.

Variable float_of_str : string -> option float.

Lemma read_position_step n r ev rest :
  ser_open r = true -> rx r = ev :: rest ->
  let r' := set_clock (ev_clock ev) (set_rx rest r) in
  read_position float_of_str (S n) r =
    if contains "X:" (line_of ev) then (Done (read_report float_of_str (line_of ev)), r')
    else read_position float_of_str n r'.
Proof.
  intros Ho Hrx r'. cbn [read_position]. unfold bind at 1.
  rewrite (read_line_step r ev rest Ho Hrx). fold r'.
  destruct (contains "X:" (line_of ev)) eqn:Hc.
  - by rewrite (report_nonempty _ Hc).
  - by destruct (nonempty (line_of ev)).
Qed.

Lemma read_position_found pre : forall n r ev rest,
  ser_open r = true -> rx r = pre ++ ev :: rest -> (length pre < n)%nat ->
  forallb no_report pre = true -> contains "X:" (line_of ev) = true ->
  read_position float_of_str n r =
    (Done (read_report float_of_str (line_of ev)),
     MkRobot true rest (ev_clock ev) (tx r) (log r) (current_syringe r)).
Proof.
  induction pre as [|p pre IH]; intros n r ev rest Ho Hrx Hn Hpre Hev.
  - destruct n as [|n]; [simpl in Hn; lia|].
    rewrite (read_position_step n r ev rest Ho Hrx), Hev.
    unfold set_clock, set_rx. simpl. by rewrite Ho.
  - destruct n as [|n]; [simpl in Hn; lia|].
    simpl in Hpre. apply andb_prop in Hpre as [Hp Hpre].
    rewrite (read_position_step n r p (pre ++ ev :: rest) Ho Hrx).
    unfold no_report in Hp. apply negb_true_iff in Hp. rewrite Hp.
    rewrite (IH n _ ev rest); [done|done|done| simpl in Hn; lia |done|done].
Qed.

Lemma read_position_gives_up n : forall r,
  ser_open r = true -> (n <= length (rx r))%nat ->
  forallb no_report (take n (rx r)) = true ->
  exists r',
    read_position float_of_str n r = (Done ∅, r') /\
    tx r' = tx r /\ rx r' = drop n (rx r) /\ ser_open r' = true /\
    current_syringe r' = current_syringe r.
Proof.
  induction n as [|n IH]; intros r Ho Hn Hall.
  - exists r. by rewrite drop_0.
  - destruct (rx r) as [|ev rest] eqn:Hrx; [simpl in Hn; lia|].
    simpl in Hall. apply andb_prop in Hall as [Hev Hall].
    rewrite (read_position_step n r ev rest Ho Hrx).
    unfold no_report in Hev. apply negb_true_iff in Hev. rewrite Hev.
    destruct (IH (set_clock (ev_clock ev) (set_rx rest r))) as (r' & Hr & Htx & Hrx' & Ho' & Hs);
      [done| simpl in *; lia | done |].
    exists r'. by rewrite Hr.
Qed.

Lemma read_position_no_exception n : forall r e,
  ser_open r = true -> fst (read_position float_of_str n r) = Raised e -> False.
Proof.
  induction n as [|n IH]; intros r e Ho H; [done|].
  destruct (rx r) as [|ev rest] eqn:Hrx.
  - cbn [read_position] in H. unfold bind in H.
    by rewrite (read_line_starved r Ho Hrx) in H.
  - rewrite (read_position_step n r ev rest Ho Hrx) in H.
    destruct (contains "X:" (line_of ev)); [done|].
    by apply (IH _ e) in H.
Qed.

Lemma get_position_open r :
  ser_open r = true ->
  get_position float_of_str r = read_position float_of_str 20 (push_tx M114 r).
Proof.
  intros Ho. unfold get_position.
  assert (H1 : _ensure_connected r = (Done tt, r))
    by (unfold _ensure_connected; by rewrite Ho).
  assert (H2 : _write_line [Lit "M114"] r = (Done tt, push_tx M114 r))
    by (unfold _write_line, bind; by rewrite H1).
  unfold bind at 1. rewrite H1. unfold bind at 1. by rewrite H2.
Qed.

Lemma axis_key_cases k :
  is_axis_key k = true <-> In k ["X"; "Y"; "Z"; "U"].
Proof.
  unfold is_axis_key. rewrite existsb_exists. split.
  - intros (x & Hx & Heq). apply String.eqb_eq in Heq. by subst.
  - intros H. exists k. split; [done|]. apply String.eqb_refl.
Qed.

Lemma split_once_axis k val :
  is_axis_key k = true ->
  split_once ":" (chars (k ++ ":" ++ val)%string) = Some (chars k, chars val).
Proof.
  intros Hk. apply axis_key_cases in Hk. simpl in Hk.
  destruct Hk as [<-|[<-|[<-|[<-|[]]]]]; reflexivity.
Qed.

Lemma read_part_sets pos p k v :
  sets_key float_of_str k v p -> read_part float_of_str pos p !! k = Some v.
Proof.
  intros (Hk & val & -> & Hv). unfold read_part.
  rewrite (split_once_axis _ _ Hk), !text_chars.
  fold (is_axis_key k). rewrite Hk, Hv. apply lookup_insert_eq.
Qed.

(** A part split at its first colon is the key, the colon and the rest. *)
Lemma split_once_text p : forall key val,
  split_once ":" (chars p) = Some (key, val) ->
  p = (text key ++ ":" ++ text val)%string.
Proof.
  induction p as [|c p IH]; intros key val; [done|].
  change (chars (String c p)) with (c :: chars p). simpl split_once.
  destruct (Ascii.eqb_spec c ":") as [->|Hne].
  - intros [= <- <-]. by rewrite text_chars.
  - destruct (split_once ":" (chars p)) as [[k' v']|]; [|done].
    intros [= <- <-].
    change (String c p = String c (text k' ++ ":" ++ text v')%string).
    f_equal. by apply IH.
Qed.

(** A part that does not set [k] leaves [pos[k]] as it is. *)
Lemma read_part_keeps pos p k :
  (forall v, ~ sets_key float_of_str k v p) ->
  read_part float_of_str pos p !! k = pos !! k.
Proof.
  intros Hno. unfold read_part.
  destruct (split_once ":" (chars p)) as [[key val]|] eqn:Hsplit; [|done].
  destruct (existsb _ _) eqn:Hkey; [|done].
  destruct (float_of_str (text val)) as [f|] eqn:Hf; [|done].
  destruct (decide (text key = k)) as [<-|Hne]; [|by rewrite lookup_insert_ne].
  destruct (Hno f). split; [done|]. exists (text val). split; [|done].
  by apply split_once_text.
Qed.

Lemma sets_key_decide k p :
  (exists v, sets_key float_of_str k v p) \/
  (forall v, ~ sets_key float_of_str k v p).
Proof.
  destruct (read_part float_of_str ∅ p !! k) as [v|] eqn:Hread.
  - left. exists v. unfold read_part in Hread.
    destruct (split_once ":" (chars p)) as [[key val]|] eqn:Hsplit; [|done].
    destruct (existsb _ _) eqn:Hkey; [|done].
    destruct (float_of_str (text val)) as [f|] eqn:Hf; [|done].
    destruct (decide (text key = k)) as [<-|Hne];
      [|by rewrite lookup_insert_ne in Hread].
    rewrite lookup_insert_eq in Hread. injection Hread as <-.
    split; [done|]. exists (text val). split; [|done]. by apply split_once_text.
  - right. intros v Hv. by rewrite (read_part_sets ∅ p k v Hv) in Hread.
Qed.

(** Reading the parts in order: the last part that sets [k] decides
    [pos[k]]; without one, [pos[k]] is what it was. *)
Lemma fold_read_part_lookup parts : forall pos k v,
  fold_left (read_part float_of_str) parts pos !! k = Some v <->
  (exists before p after,
      parts = before ++ p :: after /\ sets_key float_of_str k v p /\
      forall q v', In q after -> ~ sets_key float_of_str k v' q) \/
  (pos !! k = Some v /\
   forall q v', In q parts -> ~ sets_key float_of_str k v' q).
Proof.
  induction parts as [|p rest IH]; intros pos k v.
  - simpl. split.
    + intros H. right. split; [done|]. by intros q v' [].
    + intros [(before & p & after & H & _)|[H _]]; [|done]. by destruct before.
  - simpl fold_left. rewrite IH. split.
    + intros [(before & q & after & -> & Hq & Hafter)|[Hp Hrest]].
      * left. by exists (p :: before), q, after.
      * destruct (sets_key_decide k p) as [[v0 Hv0]|Hno].
        -- left. exists [], p, rest. split; [done|].
           rewrite (read_part_sets pos p k v0 Hv0) in Hp. injection Hp as ->.
           split; [done|]. exact Hrest.
        -- right. rewrite (read_part_keeps pos p k Hno) in Hp. split; [done|].
           intros q v' [<-|Hin]; [apply Hno|by apply Hrest].
    + intros [(before & q & after & Heq & Hq & Hafter)|[Hp Hall]].
      * destruct before as [|b before]; simpl in Heq; injection Heq as -> ->.
        -- right. split; [by apply read_part_sets|exact Hafter].
        -- left. by exists before, q, after.
      * right. split.
        -- rewrite read_part_keeps; [done|]. intros v'. apply Hall. by left.
        -- intros q v' Hin. apply Hall. by right.
Qed.

End PositionFacts.

Lemma get_position_found
  (float_of_str : string -> option float) (r : Robot)
  (pre : list event) (ev : event) (rest : list event) :
  ser_open r = true ->
  rx r = pre ++ ev :: rest ->
  (length pre < 20)%nat ->
  forallb no_report pre = true ->
  contains "X:" (line_of ev) = true ->
  exists r',
    get_position float_of_str r = (Done (read_report float_of_str (line_of ev)), r') /\
    tx r' = tx r ++ [M114] /\ rx r' = rest /\ clock r' = ev_clock ev /\
    ser_open r' = true /\ current_syringe r' = current_syringe r.
Proof.
  intros Hopen Hrx Hlen Hpre Hev.
  rewrite (get_position_open _ r Hopen).
  rewrite (read_position_found float_of_str pre 20 (push_tx M114 r) ev rest);
    [|done|done|done|done|done].
  by eexists.
Qed.

Lemma split_runs_sep l1 : forall cur c l2,
  isspace c = true ->
  split_runs cur (l1 ++ c :: l2) = split_runs cur l1 ++ split_runs [] l2.
Proof.
  induction l1 as [|a l1 IH]; intros cur c l2 Hc; simpl.
  - rewrite Hc. by destruct cur.
  - destruct (isspace a).
    + destruct cur; simpl; by rewrite IH.
    + by apply IH.
Qed.

Lemma split_runs_token tok : forall cur,
  forallb (fun c => negb (isspace c)) tok = true ->
  (cur <> [] \/ tok <> []) ->
  split_runs cur tok = [rev cur ++ tok].
Proof.
  induction tok as [|a tok IH]; intros cur Hall Hne; simpl.
  - destruct cur; [by destruct Hne|]. by rewrite app_nil_r.
  - simpl in Hall. apply andb_prop in Hall as [Ha Hall].
    apply negb_true_iff in Ha. rewrite Ha.
    rewrite IH; [|done|by left]. simpl. by rewrite <- app_assoc.
Qed.

Lemma replace_plain (l : list ascii) :
  forallb (fun c => negb (isspace c) && negb (Ascii.eqb c ",")) l = true ->
  replace_char "," " " l = l /\ forallb (fun c => negb (isspace c)) l = true.
Proof.
  induction l as [|a l IH]; [done|]. simpl. intros H.
  apply andb_prop in H as [Ha Hl]. apply andb_prop in Ha as [Hs Hc].
  apply negb_true_iff in Hc. destruct (IH Hl) as [-> ->].
  by rewrite Hc, Hs.
Qed.

(** ** Running a protocol *)

Section ProtocolFacts.

Variable float_of_str : string -> option float.

Lemma run_steps_app g pre : forall idx post r shown r1,
  run_steps float_of_str g idx pre r = (shown, Done tt, r1) ->
  run_steps float_of_str g idx (pre ++ post) r =
    (let '(shown', o, r2) :=
       run_steps float_of_str g (idx + Z.of_nat (length pre)) post r1 in
     (shown ++ shown', o, r2)).
Proof.
  induction pre as [|step pre IH]; intros idx post r shown r1 H.
  - simpl in H. injection H as <- <-. simpl. rewrite Z.add_0_r.
    by destruct (run_steps _ _ _ _ _) as [[? ?] ?].
  - simpl in H. cbn [app run_steps].
    destruct (_run_single_step float_of_str g step r) as [[[]| |] r'] eqn:Hstep;
      [|done..].
    destruct (run_steps float_of_str g (idx + 1) pre r') as [[sh o] r''] eqn:Hpre.
    injection H as <- -> ->.
    rewrite (IH (idx + 1) post r' sh r1 Hpre).
    replace (idx + 1 + Z.of_nat (length pre)) with
            (idx + Z.of_nat (length (step :: pre))) by (simpl; lia).
    by destruct (run_steps _ _ _ post r1) as [[? ?] ?].
Qed.

Lemma run_steps_shown g steps : forall idx r shown o r',
  run_steps float_of_str g idx steps r = (shown, o, r') ->
  shown `prefix_of` log_steps idx steps /\
  (o = Done tt -> shown = log_steps idx steps).
Proof.
  induction steps as [|step steps IH]; intros idx r shown o r' H.
  - simpl in H. by injection H as <- <- <-.
  - simpl in H. unfold log_steps. simpl. rewrite Z.add_0_r.
    assert (Hshift : imap ((fun i s => LogStep (idx + Z.of_nat i) s) ∘ S) steps
                     = log_steps (idx + 1) steps).
    { unfold log_steps. apply imap_ext. intros i s _. simpl. f_equal. lia. }
    rewrite Hshift.
    destruct (_run_single_step float_of_str g step r) as [[[]| |] r1].
    + destruct (run_steps float_of_str g (idx + 1) steps r1) as [[sh o1] r2] eqn:Hrest.
      injection H as <- <- <-.
      destruct (IH _ _ _ _ _ Hrest) as [Hp Hd]. split.
      * by apply prefix_cons.
      * intros Ho. by rewrite (Hd Ho).
    + injection H as <- <- <-. split; [|done].
      apply prefix_cons, prefix_nil.
    + injection H as <- <- <-. split; [|done].
      apply prefix_cons, prefix_nil.
Qed.

End ProtocolFacts.

Lemma is_str_eq v s : is_str v s = true -> v = PStr s.
Proof.
  destruct v as [|f|s']; simpl; try done. by intros ->%String.eqb_eq.
Qed.

Lemma item_missing p key r :
  p !! key = None -> item p key r = (Raised (KeyError (PStr key)), r).
Proof. intros H. unfold item. by rewrite H. Qed.

Lemma item_present p key v r : p !! key = Some v -> item p key r = (Done v, r).
Proof. intros H. unfold item. by rewrite H. Qed.

(** * Properties of the choreography *)

(** Claim C1, as the code has it.  For a resolved syringe with an upper
    bound and a volume whose target [u_base + volume_ul * u_per_ul] exceeds
    it, [transfer_volume] raises a calibration-range [ValueError] and leaves
    the session untouched: nothing is sent.  [aspirate] and [dispense] make
    no such check: for the same syringe and volume, at the current XY, they
    send all their lines, the plunger moving by the relative travel
    [volume_ul * u_per_ul], and return normally when their waits are
    answered. *)
Theorem calibration_range_check
  (syringe : pyval) (syr : SyringeType) (bound volume_ul : float) (r : Robot) :
  fst (_get_syringe syringe r) = Done syr ->
  u_max syr = Some bound ->
  PrimFloat.ltb bound
    (PrimFloat.add (u_base syr) (PrimFloat.mul volume_ul (u_per_ul syr))) = true ->
  (forall deck src_slot src_well dst_slot dst_well f,
      exists e,
        transfer_volume deck src_slot src_well dst_slot dst_well volume_ul syringe f r
          = (Raised e, r) /\
        (e = UBaseBelowMin \/ e = UTravelExceedsMax) /\
        class_of e = ValueErrorC /\
        emitted (transfer_volume deck src_slot src_well dst_slot dst_well
                   volume_ul syringe f) r = []) /\
  (forall labware_type z_safe z_work f,
      ser_open r = true ->
      answers (clock r) current_xy_timeouts (rx r) = true ->
      let run := aspirate volume_ul syringe None PNone labware_type PNone
                   (Some z_safe) (Some z_work) f in
      fst (run r) = Done tt /\
      emitted run r
        = current_xy_plan z_safe z_work (PrimFloat.mul volume_ul (u_per_ul syr)) f) /\
  (forall labware_type z_safe z_work f,
      ser_open r = true ->
      answers (clock r) current_xy_timeouts (rx r) = true ->
      let run := dispense volume_ul syringe None PNone labware_type PNone
                   (Some z_safe) (Some z_work) f in
      fst (run r) = Done tt /\
      emitted run r
        = current_xy_plan z_safe z_work
            (PrimFloat.opp (PrimFloat.mul volume_ul (u_per_ul syr))) f).
Proof.
  intros Hget Hmax Hover. split; [|split].
  - intros deck src_slot src_well dst_slot dst_well f.
    assert (Hrun : exists e,
      transfer_volume deck src_slot src_well dst_slot dst_well volume_ul syringe f r
        = (Raised e, r) /\ (e = UBaseBelowMin \/ e = UTravelExceedsMax)).
    { unfold transfer_volume. unfold bind at 1.
      rewrite (get_syringe_resolved _ _ _ Hget). cbv beta zeta.
      destruct (below_bound (u_base syr) (u_min syr)); [by eauto|].
      unfold above_bound. rewrite Hmax, Hover. by eauto. }
    destruct Hrun as (e & Hrun & He). exists e.
    split; [done|]. split; [done|]. split; [by destruct He as [-> | ->]|].
    unfold emitted. rewrite Hrun. simpl. by rewrite drop_all.
  - intros labware_type z_safe z_work f Hopen Hans run.
    destruct (aspirate_current_xy volume_ul syringe syr labware_type z_safe z_work f r
                Hget) as [Hs Hdone].
    split; [by apply Hdone|]. apply (sends_from_done _ _ _ tt Hs). by apply Hdone.
  - intros labware_type z_safe z_work f Hopen Hans run.
    destruct (dispense_current_xy volume_ul syringe syr labware_type z_safe z_work f r
                Hget) as [Hs Hdone].
    split; [by apply Hdone|]. apply (sends_from_done _ _ _ tt Hs). by apply Hdone.
Qed.

(** The claim at work: 2000 µL with the "1ml" syringe asks for a plunger
    target of 125, beyond its bound of 65. *)
Lemma calibration_range_check_witness :
  (forall deck src_slot src_well dst_slot dst_well f,
      exists e,
        transfer_volume deck src_slot src_well dst_slot dst_well 2000 (PStr "1ml") f
          (acking 7) = (Raised e, acking 7) /\
        (e = UBaseBelowMin \/ e = UTravelExceedsMax) /\
        class_of e = ValueErrorC /\
        emitted (transfer_volume deck src_slot src_well dst_slot dst_well
                   2000 (PStr "1ml") f) (acking 7) = []) /\
  (forall labware_type z_safe z_work f,
      ser_open (acking 7) = true ->
      answers (clock (acking 7)) current_xy_timeouts (rx (acking 7)) = true ->
      let run := aspirate 2000 (PStr "1ml") None PNone labware_type PNone
                   (Some z_safe) (Some z_work) f in
      fst (run (acking 7)) = Done tt /\
      emitted run (acking 7)
        = current_xy_plan z_safe z_work
            (PrimFloat.mul 2000 (u_per_ul Syringe_1ml)) f) /\
  (forall labware_type z_safe z_work f,
      ser_open (acking 7) = true ->
      answers (clock (acking 7)) current_xy_timeouts (rx (acking 7)) = true ->
      let run := dispense 2000 (PStr "1ml") None PNone labware_type PNone
                   (Some z_safe) (Some z_work) f in
      fst (run (acking 7)) = Done tt /\
      emitted run (acking 7)
        = current_xy_plan z_safe z_work
            (PrimFloat.opp (PrimFloat.mul 2000 (u_per_ul Syringe_1ml))) f).
Proof.
  apply (calibration_range_check (PStr "1ml") Syringe_1ml 65 2000 (acking 7));
    reflexivity.
Defined.

(** Claim C1 as stated fails for [aspirate]: 2000 µL with the "1ml" syringe
    is beyond its upper bound, yet [aspirate] on slot "4", well "A1" raises
    nothing and sends its seven lines, pulling the plunger by 120. *)
Lemma aspirate_sends_beyond_range :
  above_bound
    (PrimFloat.add (u_base Syringe_1ml) (PrimFloat.mul 2000 (u_per_ul Syringe_1ml)))
    (u_max Syringe_1ml) = true /\
  fst (aspirate 2000 (PStr "1ml") (Some new_Deck) (PStr "4") LABWARE_48WELL_10MM
         (PStr "A1") None None aspirate_feeds (acking 7)) = Done tt /\
  map render
    (emitted (aspirate 2000 (PStr "1ml") (Some new_Deck) (PStr "4") LABWARE_48WELL_10MM
                (PStr "A1") None None aspirate_feeds) (acking 7))
    = [ "G90"; "G1 X190.220 Y132.960 F7500"; "G1 Z170.000 F600"; "G91";
        "G1 U120.000 F200"; "G90"; "G1 Z158.000 F750" ].
Proof. repeat split; by vm_compute. Qed.

(** Claim C2, as the code has it.  Whatever the firmware answers, the lines
    sent by [pick_up_tip], by [transfer_volume] and by [aspirate] /
    [dispense] addressed to the beaker respect the safety ordering for the
    safe height of the labware they work on: every lateral move is issued in
    absolute mode with the commanded Z at or above the safe height, and
    every descent below it comes after the XY target of the phase. *)
Theorem safety_ordering (r : Robot) :
  (forall deck slot_id well n_cycles,
      safe_order (safe_z LABWARE_TIPRACK_96)
        (emitted (pick_up_tip deck slot_id well n_cycles) r) = true) /\
  (forall deck src_slot src_well dst_slot dst_well volume_ul syringe f,
      safe_order (safe_z LABWARE_48WELL_10MM)
        (emitted (transfer_volume deck src_slot src_well dst_slot dst_well
                    volume_ul syringe f) r) = true) /\
  (forall deck slot_id volume_ul syringe f,
      safe_order (safe_z LABWARE_BEAKER_1WELL)
        (emitted (aspirate_from_beaker deck slot_id volume_ul syringe f) r) = true) /\
  (forall deck slot_id volume_ul syringe f,
      safe_order (safe_z LABWARE_BEAKER_1WELL)
        (emitted (dispense_to_beaker deck slot_id volume_ul syringe f) r) = true).
Proof.
  split; [|split; [|split]].
  - intros deck slot_id well n_cycles.
    destruct (sends_pick_up_tip deck slot_id well n_cycles) as [xy Hs].
    apply (safe_order_emitted _ _ _ _ (Hs r)), safe_order_pick_up_tip.
  - intros deck src_slot src_well dst_slot dst_well volume_ul syringe f.
    destruct (sends_transfer_volume r deck src_slot src_well dst_slot dst_well
                volume_ul syringe f) as (syr & src & dst & Hs).
    apply (safe_order_emitted _ _ _ _ Hs), safe_order_transfer_volume.
  - intros deck slot_id volume_ul syringe f.
    destruct (sends_aspirate_from_beaker r deck slot_id volume_ul syringe f)
      as (du & xy & Hs).
    apply (safe_order_emitted _ _ _ _ Hs), safe_order_beaker.
  - intros deck slot_id volume_ul syringe f.
    destruct (sends_dispense_to_beaker r deck slot_id volume_ul syringe f)
      as (du & xy & Hs).
    apply (safe_order_emitted _ _ _ _ Hs), safe_order_beaker.
Qed.

(** Claim C2 as stated fails for [drop_tip_scrape]: on slot "2", edge
    "right", after the descent to the scrape height 170 (below the safe
    height 100) it moves X from 234.1 to 318.1, and the ordering is broken.
    It fails as well for [aspirate] on a well plate, whose first move is the
    lateral one, before any Z has been commanded. *)
Lemma drop_tip_scrape_breaks_ordering :
  let run := drop_tip_scrape new_Deck (PStr "2") (PStr "right")
               default_slot_half_width default_extra_scrape in
  let plate := aspirate 50 (PStr "1ml") (Some new_Deck) (PStr "4") LABWARE_48WELL_10MM
                 (PStr "A1") None None aspirate_feeds in
  fst (run (acking 6)) = Done tt /\
  map render (emitted run (acking 6))
    = [ "G90"; "G1 Z100.000 F600"; "G1 X234.100 Y65.000 F7500"; "G1 Z170.000 F750";
        "G1 X318.100 Y65.000 F2000"; "G1 Z100.000 F600" ] /\
  below (safe_z LABWARE_TIPWASTE_BOX) 170 = true /\
  safe_order (safe_z LABWARE_TIPWASTE_BOX) (take 4 (emitted run (acking 6))) = true /\
  safe_order (safe_z LABWARE_TIPWASTE_BOX) (take 5 (emitted run (acking 6))) = false /\
  safe_order (safe_z LABWARE_TIPWASTE_BOX) (emitted run (acking 6)) = false /\
  map render (emitted plate (acking 7))
    = [ "G90"; "G1 X190.220 Y132.960 F7500"; "G1 Z170.000 F600"; "G91";
        "G1 U3.000 F200"; "G90"; "G1 Z158.000 F750" ] /\
  safe_order (safe_z LABWARE_48WELL_10MM) (emitted plate (acking 7)) = false.
Proof. repeat split; by vm_compute. Qed.

(** Claim C3 at the failing input.  [drop_tip_scrape] on slot "2" with the
    edge "middle" does raise the invalid-edge [ValueError], but only after
    the mode line and three moves have gone out: up to the safe height, over
    the slot centre and down to the scrape height. *)
Theorem drop_tip_scrape_bad_edge_after_motion :
  let run := drop_tip_scrape new_Deck (PStr "2") (PStr "middle")
               default_slot_half_width default_extra_scrape in
  fst (run (acking 4)) = Raised BadEdge /\
  class_of BadEdge = ValueErrorC /\
  emitted run (acking 4) = scrape_approach (234.1, 65)%float /\
  map render (emitted run (acking 4))
    = [ "G90"; "G1 Z100.000 F600"; "G1 X234.100 Y65.000 F7500"; "G1 Z170.000 F750" ].
Proof. repeat split; by vm_compute. Qed.

(** Claim C4.  The scenario [transfer_volume] from slot "4" well "A1" to slot
    "4" well "B3", 50 µL, syringe "1ml": the plunger travel is 3.0 and the
    aspirate target 8.0; whenever the operation returns it has sent, after
    the mode line, exactly the eleven moves plunger 5.0, source safe Z,
    source well XY, source aspirate Z, plunger 8.0, source safe Z,
    destination safe Z, destination well XY, destination dispense Z, plunger
    5.0, destination safe Z; and it does return when every command is
    acknowledged, the bytes on the wire being the lines listed. *)
Theorem transfer_volume_scenario :
  let run := transfer_volume new_Deck (PStr "4") (PStr "A1") (PStr "4") (PStr "B3")
               50 (PStr "1ml") transfer_feeds in
  let src_safe := safe_z LABWARE_48WELL_10MM in
  let src_asp := bottom_z LABWARE_48WELL_10MM in
  let dst_safe := safe_z LABWARE_48WELL_10MM in
  let dst_disp := bottom_z LABWARE_48WELL_10MM in
  let moves :=
    [ G1_U 5 200;
      G1_Z src_safe 300;
      G1_XY 190.22 132.96 3000;
      G1_Z src_asp 200;
      G1_U 8 200;
      G1_Z src_safe 300;
      G1_Z dst_safe 300;
      G1_XY 215.16 145.43 3000;
      G1_Z dst_disp 200;
      G1_U 5 200;
      G1_Z dst_safe 300 ] in
  PrimFloat.mul 50 (u_per_ul Syringe_1ml) = 3%float /\
  PrimFloat.add (u_base Syringe_1ml) (PrimFloat.mul 50 (u_per_ul Syringe_1ml))
    = 8%float /\
  well_position_machine
    (MkInstance LABWARE_48WELL_10MM (MkDeckSlot "4" 242.1 170) "plate_src_slot4" new_Deck)
    (PStr "A1") = inr (190.22, 132.96)%float /\
  well_position_machine
    (MkInstance LABWARE_48WELL_10MM (MkDeckSlot "4" 242.1 170) "plate_dst_slot4" new_Deck)
    (PStr "B3") = inr (215.16, 145.43)%float /\
  (forall r, emitted run r `prefix_of` G90 :: moves) /\
  (forall r, fst (run r) = Done tt -> emitted run r = G90 :: moves) /\
  fst (run (acking 12)) = Done tt /\
  map render (emitted run (acking 12)) =
    [ "G90"; "G1 U5.000 F200"; "G1 Z158.000 F300"; "G1 X190.220 Y132.960 F3000";
      "G1 Z170.000 F200"; "G1 U8.000 F200"; "G1 Z158.000 F300";
      "G1 Z158.000 F300"; "G1 X215.160 Y145.430 F3000"; "G1 Z170.000 F200";
      "G1 U5.000 F200"; "G1 Z158.000 F300" ].
Proof.
  intros run src_safe src_asp dst_safe dst_disp moves.
  assert (Hsrc : well_position_machine
            (MkInstance LABWARE_48WELL_10MM (MkDeckSlot "4" 242.1 170)
               (label_for "plate_src_slot" (PStr "4")) new_Deck)
            (PStr "A1") = inr (190.22, 132.96)%float) by (by vm_compute).
  assert (Hdst : well_position_machine
            (MkInstance LABWARE_48WELL_10MM (MkDeckSlot "4" 242.1 170)
               (label_for "plate_dst_slot" (PStr "4")) new_Deck)
            (PStr "B3") = inr (215.16, 145.43)%float) by (by vm_compute).
  assert (Hplan : sends run (G90 :: moves)).
  { subst run. unfold transfer_volume.
    replace (_get_syringe (PStr "1ml")) with (ret Syringe_1ml)
      by (vm_compute; reflexivity).
    apply sends_bind_ret. cbv beta zeta.
    replace (below_bound _ _) with false by (vm_compute; reflexivity).
    replace (above_bound _ _) with false by (vm_compute; reflexivity).
    replace (slots_item new_Deck (PStr "4"))
      with (@inr exn _ (MkDeckSlot "4" 242.1 170)) by (vm_compute; reflexivity).
    enter_try. enter_try. rewrite Hsrc, Hdst.
    sends_by_walk. }
  split; [by vm_compute|].
  split; [by vm_compute|].
  split; [by vm_compute|].
  split; [by vm_compute|].
  split; [intros r; apply (sends_from_emitted_prefix _ _ _ (Hplan r))|].
  split; [intros r; apply (sends_from_done _ _ _ _ (Hplan r))|].
  split; by vm_compute.
Qed.

(** [d != 0.0] holds of every float but the two zeros. *)
Lemma eqb_zero (d : float) : PrimFloat.eqb d 0 = is_zero_delta d.
Proof.
  rewrite FloatAxioms.eqb_spec. unfold is_zero_delta.
  change (Prim2SF 0) with (SpecFloat.S754_zero false).
  by destruct (Prim2SF d) as [[]|[]| |[] m e].
Qed.

(** The move [move_relative] builds is the move of the description. *)
Lemma G1_delta_spec dx dy dz du feedrate :
  G1_delta dx dy dz du feedrate = spec_relative_move dx dy dz du feedrate.
Proof.
  unfold G1_delta, spec_relative_move, nonzero_deltas, nonzero_part, opt_part.
  rewrite !eqb_zero. cbn [List.filter].
  by destruct (is_zero_delta dx), (is_zero_delta dy), (is_zero_delta dz),
    (is_zero_delta du), feedrate.
Qed.

Lemma append_empty_r (s : string) : (s ++ "")%string = s.
Proof. induction s as [|c s IH]; [done|]. exact (f_equal (String c) IH). Qed.

Lemma render_spec_relative_move dx dy dz du feedrate :
  render (spec_relative_move dx dy dz du feedrate)
  = ("G1" ++ delta_text "X" dx ++ delta_text "Y" dy ++ delta_text "Z" dz
     ++ delta_text "U" du ++ feed_text feedrate)%string.
Proof.
  unfold spec_relative_move, nonzero_deltas, delta_text, feed_text, render.
  cbn [List.filter].
  destruct (is_zero_delta dx), (is_zero_delta dy), (is_zero_delta dz),
    (is_zero_delta du), feedrate;
    cbn -[format_fixed]; rewrite ?append_empty_r; reflexivity.
Qed.

(** Claim C5.  Whatever the positioning mode before and whatever the deltas,
    when each of the three waits of [move_relative] ends by an acknowledgement
    or by its timeout, [move_relative] returns normally, having sent three
    lines: the relative-mode line; one move made of [G1], a word for each of
    the deltas X, Y, Z, U that is not zero, in this order, and the feedrate
    when one is given; and the absolute-mode line.  On the wire the move
    reads "G1", then " X" and the delta with three decimals when the X delta
    is not zero, likewise for Y, Z and U, then " F" and the feedrate when one
    is given.  The firmware is left in absolute mode. *)
Theorem move_relative_leaves_absolute
  (m0 : mode) (dx dy dz du : float) (feedrate tmo : option float) (r : Robot) :
  ser_open r = true ->
  answers (clock r) [default_send_timeout; tmo; default_send_timeout] (rx r) = true ->
  let sent := emitted (move_relative dx dy dz du feedrate tmo) r in
  fst (move_relative dx dy dz du feedrate tmo r) = Done tt /\
  sent = [G91; spec_relative_move dx dy dz du feedrate; G90] /\
  map render sent =
    [ "G91";
      ("G1" ++ delta_text "X" dx ++ delta_text "Y" dy ++ delta_text "Z" dz
       ++ delta_text "U" du ++ feed_text feedrate)%string;
      "G90" ] /\
  firmware_mode m0 sent = Absolute.
Proof.
  intros Hopen Hans sent. unfold answers in Hans.
  destruct (leftover _ _ _) as [[rest c]|] eqn:Hleft; [|done].
  destruct (completes_move_relative dx dy dz du feedrate tmo r rest c Hopen Hleft)
    as (r' & Hrun & _).
  assert (Hdone : fst (move_relative dx dy dz du feedrate tmo r) = Done tt)
    by (by rewrite Hrun).
  assert (Hsent : sent = [G91; spec_relative_move dx dy dz du feedrate; G90]).
  { unfold sent.
    rewrite (sends_from_done _ _ _ _ (sends_move_relative dx dy dz du feedrate tmo r) Hdone).
    by rewrite G1_delta_spec. }
  split; [done|]. split; [done|]. rewrite Hsent. split.
  - cbn [map]. by rewrite render_spec_relative_move.
  - unfold firmware_mode, spec_relative_move, nonzero_deltas. cbn [List.filter].
    by destruct (negb (is_zero_delta dx)), (negb (is_zero_delta dy)),
      (negb (is_zero_delta dz)), (negb (is_zero_delta du)), feedrate.
Qed.

(** The claim at work: from relative mode, a move by 1.5 along X and by
    -2.25 along U, the deltas of Y and Z being the two zeros, once with every
    command acknowledged and once with every wait timing out. *)
Lemma move_relative_leaves_absolute_witness :
  let run := move_relative 1.5 0 (-0) (-2.25) (Some 200%float) default_move_timeout in
  let quiet_firmware := session [silence 10000; silence 11000; silence 21000] in
  (fst (run (acking 3)) = Done tt /\
   map render (emitted run (acking 3)) = ["G91"; "G1 X1.500 U-2.250 F200"; "G90"] /\
   firmware_mode Relative (emitted run (acking 3)) = Absolute) /\
  (fst (run quiet_firmware) = Done tt /\
   map render (emitted run quiet_firmware) = ["G91"; "G1 X1.500 U-2.250 F200"; "G90"] /\
   firmware_mode Relative (emitted run quiet_firmware) = Absolute).
Proof.
  intros run quiet_firmware. split.
  - destruct (move_relative_leaves_absolute Relative 1.5 0 (-0) (-2.25)
                (Some 200%float) default_move_timeout (acking 3))
      as (Hdone & _ & Htext & Hmode); [reflexivity..|].
    split; [exact Hdone|]. split; [|exact Hmode].
    unfold run. rewrite Htext. by vm_compute.
  - destruct (move_relative_leaves_absolute Relative 1.5 0 (-0) (-2.25)
                (Some 200%float) default_move_timeout quiet_firmware)
      as (Hdone & _ & Htext & Hmode); [reflexivity..|].
    split; [exact Hdone|]. split; [|exact Hmode].
    unfold run. rewrite Htext. by vm_compute.
Defined.

(** Claim C6, as amended.  For a well name made of a letter of either case
    followed by a run of decimal digits, with row index letter − 'A' and
    column index number − 1.  When the run has at most 4300 digits, the most
    [int] reads: with both indices within the rows and columns of the labware
    type, [well_position_machine] returns the deck origin plus the slot
    centre, the A1 offset and the pitch-scaled column (for x) and row (for
    y), summed in binary64 in the order the code adds them, unless the column
    index is beyond the largest float, when the product raises
    [OverflowError]; with an index out of range it fails with the row or
    column out-of-range [ValueError].  When the run has more than 4300
    digits, the name fails with the [ValueError] of [int], whatever number
    the digits denote. *)
Theorem well_position_machine_spec (self : LabwareInstance) (c : ascii) (ds : string) :
  is_letter c = true -> all_digits ds = true ->
  let t := type_ self in
  let row := row_index c in
  let col := column_number ds - 1 in
  let well := PStr (String c ds) in
  let digits := Z.of_nat (String.length ds) in
  let in_range := 0 <= row < rows t /\ 0 <= col < cols t in
  (digits <= max_str_digits ->
   (in_range ->
    (PrimFloat.is_infinity (nearest_float col) = false ->
     well_position_machine self well =
       inr (PrimFloat.add (origin_x (deck self))
              (PrimFloat.add (PrimFloat.add (x_deck (slot self)) (offset_x t))
                             (PrimFloat.mul (nearest_float col) (pitch_x t))),
            PrimFloat.add (origin_y (deck self))
              (PrimFloat.add (PrimFloat.add (y_deck (slot self)) (offset_y t))
                             (PrimFloat.mul (nearest_float row) (pitch_y t))))) /\
    (PrimFloat.is_infinity (nearest_float col) = true ->
     well_position_machine self well = inl IntTooLargeForFloat)) /\
   (~ in_range ->
    exists e, well_position_machine self well = inl e /\
              class_of e = ValueErrorC /\
              (e = RowOutOfRange (String (upper_char c) ds) \/
               e = ColumnOutOfRange (String (upper_char c) ds)))) /\
  (max_str_digits < digits ->
   well_position_machine self well = inl (IntLiteralError ds) /\
   class_of (IntLiteralError ds) = ValueErrorC).
Proof.
  intros Hc Hds t row col well digits in_range.
  assert (Hrc : _well_rc self well =
    if max_str_digits <? digits then inl (IntLiteralError ds)
    else if negb ((0 <=? row) && (row <? rows t))
    then inl (RowOutOfRange (String (upper_char c) ds))
    else if negb ((0 <=? col) && (col <? cols t))
    then inl (ColumnOutOfRange (String (upper_char c) ds))
    else inr (row, col)).
  { unfold _well_rc, well.
    rewrite (strip_well _ _ Hc Hds), (upper_well _ _ Hds). simpl head_tail.
    cbv iota beta. rewrite (int_of_str_digits _ Hds). fold digits.
    by destruct (max_str_digits <? digits). }
  unfold well_position_machine, well_position_deck. rewrite Hrc.
  split.
  - intros Hlen. apply Z.ltb_ge in Hlen. rewrite Hlen. split.
    + intros [[Hr1 Hr2] [Hc1 Hc2]].
      assert (Hrow : float_of_int row = inr (nearest_float row)).
      { apply float_of_int_small. pose proof (code_below_256 (upper_char c)).
        unfold row, row_index in *. lia. }
      apply Z.leb_le in Hr1, Hc1. apply Z.ltb_lt in Hr2, Hc2.
      rewrite Hr1, Hr2, Hc1, Hc2. cbv iota beta zeta. simpl negb. cbv iota.
      split; intros Hinf.
      * assert (Hcol : float_of_int col = inr (nearest_float col))
          by (unfold float_of_int; by rewrite Hinf).
        by rewrite Hcol, Hrow.
      * assert (Hcol : float_of_int col = inl IntTooLargeForFloat)
          by (unfold float_of_int; by rewrite Hinf).
        by rewrite Hcol.
    + intros Hout.
      destruct (negb ((0 <=? row) && (row <? rows t))) eqn:Hrow; [by eauto 6|].
      destruct (negb ((0 <=? col) && (col <? cols t))) eqn:Hcol; [by eauto 6|].
      destruct Hout. apply negb_false_iff, andb_prop in Hrow as [Hr1 Hr2].
      apply negb_false_iff, andb_prop in Hcol as [Hc1 Hc2].
      apply Z.leb_le in Hr1, Hc1. apply Z.ltb_lt in Hr2, Hc2. unfold in_range. lia.
  - intros Hlen. apply Z.ltb_lt in Hlen. by rewrite Hlen.
Qed.

(** The amended claim at work.  On the 48-well plate of slot "4", well "b3"
    is row 1, column 2; well "G1" is beyond the six rows; and a column number
    of 4301 digits is refused by [int].  On a ruler of 10^310 columns, the
    column 10^309 is within range and beyond the largest float. *)
Lemma well_position_machine_spec_witness :
  let plate := MkInstance LABWARE_48WELL_10MM (MkDeckSlot "4" 242.1 170)
                 "plate" new_Deck in
  let ruler := MkInstance
                 (MkLabware 5 "ruler" 1 (10 ^ 310) 1 0 0 0 100 0
                    None None None None None None)
                 (MkDeckSlot "4" 242.1 170) "ruler" new_Deck in
  let long := (zeros 4300 ++ "1")%string in
  let far := (String "1" (zeros 309)) in
  well_position_machine plate (PStr "b3") = inr (215.16, 145.43)%float /\
  (exists e, well_position_machine plate (PStr "G1") = inl e /\
             class_of e = ValueErrorC /\
             (e = RowOutOfRange "G1" \/ e = ColumnOutOfRange "G1")) /\
  well_position_machine plate (PStr (String "A" long)) = inl (IntLiteralError long) /\
  well_position_machine ruler (PStr (String "A" far)) = inl IntTooLargeForFloat.
Proof.
  intros plate ruler long far. split; [|split; [|split]].
  - destruct (well_position_machine_spec plate "b" "3" eq_refl eq_refl) as [Hshort _].
    destruct Hshort as [Hin _]; [by vm_compute|].
    destruct Hin as [Hpos _]; [vm_compute; repeat split; discriminate|].
    rewrite Hpos; [reflexivity|by vm_compute].
  - destruct (well_position_machine_spec plate "G" "1" eq_refl eq_refl) as [Hshort _].
    destruct Hshort as [_ Hout]; [by vm_compute|].
    apply Hout. vm_compute. intros [[_ H] _]. discriminate.
  - assert (Hds : all_digits long = true) by (by vm_compute).
    destruct (well_position_machine_spec plate "A" long eq_refl Hds) as [_ Hlong].
    destruct Hlong as [Hraise _]; [by vm_compute|]. exact Hraise.
  - assert (Hds : all_digits far = true) by (by vm_compute).
    destruct (well_position_machine_spec ruler "A" far eq_refl Hds) as [Hshort _].
    destruct Hshort as [Hin _]; [by vm_compute|].
    destruct Hin as [_ Hover]; [vm_compute; repeat split; discriminate|].
    apply Hover. by vm_compute.
Defined.

(** Claim C6 as stated fails on a long column number: "A" followed by
    4300 zeros and "1" names row 0 and column number 1, both within the
    48-well plate, as "A1" does; yet [int] refuses its 4301 digits, and
    [well_position_machine] raises that [ValueError] instead of returning
    the position of the well. *)
Lemma well_position_machine_long_number :
  let plate := MkInstance LABWARE_48WELL_10MM (MkDeckSlot "4" 242.1 170)
                 "plate" new_Deck in
  let ds := (zeros 4300 ++ "1")%string in
  (is_letter "A" = true /\ all_digits ds = true) /\
  (row_index "A" = 0 /\ column_number ds = 1) /\
  (rows (type_ plate) = 6 /\ cols (type_ plate) = 8) /\
  well_position_machine plate (PStr "A1") = inr (190.22, 132.96)%float /\
  well_position_machine plate (PStr (String "A" ds)) = inl (IntLiteralError ds).
Proof. by vm_compute. Qed.

(** Claim C7.  A command sent with the acknowledgement wait enabled, on an
    open port:
    - fails with the firmware error exactly when the wait reaches a line
      holding the error marker, every event before it being passed over (no
      success line, no error line, timeout not elapsed);
    - when the timeout elapses on an event with neither marker, the events
      before it being passed over, it returns normally and logs the warning;
    - raises nothing but the firmware error: a timeout is never an
      exception. *)
Theorem send_gcode_wait_outcomes (g : gcode) (tmo : option float) (r : Robot) :
  ser_open r = true ->
  ((exists l, fst (send_gcode g true tmo r) = Raised (FirmwareError l)) <->
   (exists pre ev post,
       rx r = pre ++ ev :: post /\
       forallb (passed_over (clock r) tmo) pre = true /\
       error_marker (line_of ev) = true)) /\
  (forall pre ev post,
      rx r = pre ++ ev :: post ->
      forallb (passed_over (clock r) tmo) pre = true ->
      neutral ev = true -> expired (clock r) tmo ev = true ->
      fst (send_gcode g true tmo r) = Done tt /\
      log (snd (send_gcode g true tmo r)) = log r ++ [timeout_warning]) /\
  (forall e, fst (send_gcode g true tmo r) = Raised e ->
             exists l, e = FirmwareError l /\ error_marker l = true).
Proof.
  intros Hopen.
  assert (Hrun : send_gcode g true tmo r
                 = drain_loop (S (length (rx r))) (clock r) tmo (push_tx g r)).
  { unfold send_gcode, _write_line, _ensure_connected, bind. by rewrite Hopen. }
  rewrite Hrun. split; [|split].
  - apply (drain_loop_fails_iff (rx r)); auto.
  - intros pre ev post Hrx Hpre Hneu Hexp.
    apply (drain_loop_times_out pre _ _ _ (push_tx g r) ev post); auto.
    simpl. rewrite Hrx. lia.
  - intros e. by apply (drain_loop_raises (rx r)).
Qed.

(** The claim at work: after a line of chatter the firmware reports an
    error, and the send fails with it; and a firmware that stays silent past
    the five seconds allowed makes the send warn and return. *)
Lemma send_gcode_wait_outcomes_witness :
  let chatter := Event ("echo:busy processing" ++ newline) 1 in
  let halted := Event ("Error:Printer halted" ++ newline) 2 in
  (fst (send_gcode G90 true (Some 5%float) (session [chatter; halted; ok_event]))
     = Raised (FirmwareError "Error:Printer halted")) /\
  (fst (send_gcode G90 true (Some 5%float) (session [chatter; silence 6; halted]))
     = Done tt /\
   log (snd (send_gcode G90 true (Some 5%float) (session [chatter; silence 6; halted])))
     = [timeout_warning]).
Proof.
  intros chatter halted. split.
  - destruct (send_gcode_wait_outcomes G90 (Some 5%float)
                (session [chatter; halted; ok_event]) eq_refl) as [[_ Hfail] _].
    destruct Hfail as [l Hl].
    + exists [chatter], halted, [ok_event]. repeat split; by vm_compute.
    + reflexivity.
  - destruct (send_gcode_wait_outcomes G90 (Some 5%float)
                (session [chatter; silence 6; halted]) eq_refl) as [_ [Hwarn _]].
    apply (Hwarn [chatter] (silence 6) [halted]); by vm_compute.
Defined.

(** Claim C8 at the failing input.  With [aspirate_z] and [dispense_z] set,
    to 0.0, the working height is not the one set but the bottom height
    170: [aspirate] and [dispense] descend to Z 170. *)
Theorem working_height_zero_falls_back :
  aspirate_z PLATE_Z0 = Some 0%float /\
  dispense_z PLATE_Z0 = Some 0%float /\
  or_else (aspirate_z PLATE_Z0) (bottom_z PLATE_Z0) = bottom_z PLATE_Z0 /\
  or_else (dispense_z PLATE_Z0) (bottom_z PLATE_Z0) = bottom_z PLATE_Z0 /\
  map render
    (emitted (aspirate 50 (PStr "1ml") (Some new_Deck) (PStr "4") PLATE_Z0 (PStr "A1")
                None None aspirate_feeds) (acking 7))
    = [ "G90"; "G1 X190.220 Y132.960 F7500"; "G1 Z170.000 F600"; "G91";
        "G1 U3.000 F200"; "G90"; "G1 Z158.000 F750" ] /\
  map render
    (emitted (dispense 50 (PStr "1ml") (Some new_Deck) (PStr "4") PLATE_Z0 (PStr "A1")
                None None aspirate_feeds) (acking 7))
    = [ "G90"; "G1 X190.220 Y132.960 F7500"; "G1 Z170.000 F600"; "G91";
        "G1 U-3.000 F200"; "G90"; "G1 Z158.000 F750" ].
Proof. repeat split; by vm_compute. Qed.

(** Claim C9, as the code has it.  [home_all] sends the plain homing line
    [G28] and then the single literal line [G1 U5 F200], and nothing else; it
    sends no mode line, so the plunger move is read in the mode the firmware
    is already in; and it returns normally when both waits are answered. *)
Theorem home_all_sends (timeout : option float) (m0 : mode) (r : Robot) :
  emitted (home_all timeout) r `prefix_of` [[Lit "G28"]; [Lit "G1 U5 F200"]] /\
  (fst (home_all timeout r) = Done tt ->
   emitted (home_all timeout) r = [[Lit "G28"]; [Lit "G1 U5 F200"]]) /\
  firmware_mode m0 (emitted (home_all timeout) r) = m0 /\
  (forall i, mode_at m0 (emitted (home_all timeout) r) i = m0) /\
  (ser_open r = true ->
   answers (clock r) [timeout; default_send_timeout] (rx r) = true ->
   fst (home_all timeout r) = Done tt).
Proof.
  pose proof (sends_home_all timeout r) as Hs.
  pose proof (sends_from_emitted_prefix _ _ _ Hs) as Hpre.
  split; [done|]. split; [apply (sends_from_done _ _ _ _ Hs)|].
  split; [|split].
  - by destruct (prefix_of_two _ _ _ Hpre) as [-> | [-> | ->]].
  - intros i. unfold mode_at.
    destruct (prefix_of_two _ _ _ Hpre) as [-> | [-> | ->]];
      by destruct i as [|[|[|i]]].
  - intros Hopen Hans. unfold answers in Hans.
    destruct (leftover _ _ _) as [[rest c]|] eqn:Hleft; [|done].
    destruct (completes_home_all timeout r rest c Hopen Hleft) as (r' & Hrun & _).
    by rewrite Hrun.
Qed.

(** Claim C9 as stated fails: in a session in absolute mode the plunger
    line after homing is the second of exactly two lines, no relative-mode
    line precedes it, and it is executed in absolute mode, as a move to
    U = 5, not as a relative move. *)
Lemma home_all_plunger_move_is_absolute :
  fst (home_all default_send_timeout (acking 2)) = Done tt /\
  map render (emitted (home_all default_send_timeout) (acking 2))
    = ["G28"; "G1 U5 F200"] /\
  emitted (home_all default_send_timeout) (acking 2) !! 1%nat
    = Some [Lit "G1 U5 F200"] /\
  mode_at Absolute (emitted (home_all default_send_timeout) (acking 2)) 1 = Absolute /\
  map render (emitted (move_relative 0 0 0 5 (Some 200%float) default_move_timeout)
                (acking 3))
    = ["G91"; "G1 U5.000 F200"; "G90"].
Proof. repeat split; by vm_compute. Qed.

(** Claim C10.  With a robot connected, a step of kind "aspirate" or
    "dispense" whose parameters give a volume and a slot: when they give no
    well (none, or null) the step is the operation on the single-well beaker
    labware at its well "A1", and its lines are those of the beaker (lift to
    the safe height 100, travel, descend to 150); when they give a well it
    is the operation on that well of the default 48-well plate. *)
Theorem step_without_well_is_reservoir
  (float_of_str : string -> option float) (g : Panel) (d : Deck)
  (p : gmap string pyval) (v : pyval) (volume : float) (r : Robot) :
  robot_connected g = true -> panel_deck g = Some d ->
  p !! "volume_ul" = Some v -> py_float float_of_str v = inr volume ->
  is_none (get p "slot" PNone) = false ->
  let slot := get p "slot" PNone in
  let well := get p "well" PNone in
  let syringe := get p "syringe" (PStr (var_syringe g)) in
  let asp := _run_single_step float_of_str g (MkStep (PStr "aspirate") p) in
  let disp := _run_single_step float_of_str g (MkStep (PStr "dispense") p) in
  (is_none well = true ->
   asp r = aspirate volume syringe (Some d) slot LABWARE_BEAKER_1WELL (PStr "A1")
             None None aspirate_feeds r /\
   disp r = dispense volume syringe (Some d) slot LABWARE_BEAKER_1WELL (PStr "A1")
              None None aspirate_feeds r /\
   (exists du xy, sends_from r asp (beaker_plan du xy aspirate_feeds)) /\
   (exists du xy, sends_from r disp (beaker_plan du xy aspirate_feeds))) /\
  (is_none well = false ->
   asp r = aspirate volume syringe (Some d) slot LABWARE_48WELL_10MM well
             None None aspirate_feeds r /\
   disp r = dispense volume syringe (Some d) slot LABWARE_48WELL_10MM well
              None None aspirate_feeds r).
Proof.
  intros Hrobot Hdeck Hv Hvol Hslot slot well syringe asp disp.
  assert (Hasp : asp r =
    (if negb (is_none well)
     then aspirate volume syringe (Some d) slot LABWARE_48WELL_10MM well
            None None aspirate_feeds
     else aspirate_from_beaker d slot volume syringe aspirate_feeds) r).
  { subst asp. unfold _run_single_step, require_robot, item.
    rewrite Hrobot, Hdeck.
    cbn [params step_type is_str String.eqb Ascii.eqb Bool.eqb]. cbv iota.
    rewrite Hv. cbv beta iota zeta delta [bind ret lift].
    rewrite Hvol. cbv beta iota zeta delta [try_ ret].
    by rewrite Hslot. }
  assert (Hdisp : disp r =
    (if negb (is_none well)
     then dispense volume syringe (Some d) slot LABWARE_48WELL_10MM well
            None None aspirate_feeds
     else dispense_to_beaker d slot volume syringe aspirate_feeds) r).
  { subst disp. unfold _run_single_step, require_robot, item.
    rewrite Hrobot, Hdeck.
    cbn [params step_type is_str String.eqb Ascii.eqb Bool.eqb]. cbv iota.
    rewrite Hv. cbv beta iota zeta delta [bind ret lift].
    rewrite Hvol. cbv beta iota zeta delta [try_ ret].
    by rewrite Hslot. }
  split; intros Hwell; rewrite Hwell in Hasp, Hdisp; simpl in Hasp, Hdisp.
  - split; [exact Hasp|]. split; [exact Hdisp|]. split.
    + destruct (sends_aspirate_from_beaker r d slot volume syringe aspirate_feeds)
        as (du & xy & Hs).
      exists du, xy. by apply (sends_from_ext _ _ _ _ Hasp).
    + destruct (sends_dispense_to_beaker r d slot volume syringe aspirate_feeds)
        as (du & xy & Hs).
      exists du, xy. by apply (sends_from_ext _ _ _ _ Hdisp).
  - by split.
Qed.

(** The claim at work: the step {"volume_ul": 50, "slot": "3"} of kind
    "aspirate" is the aspiration from the beaker of slot "3", and the wire
    shows the beaker heights. *)
Lemma step_without_well_is_reservoir_witness :
  let p : gmap string pyval := {[ "volume_ul" := PFloat 50; "slot" := PStr "3" ]} in
  let g := MkPanel true (Some new_Deck) "1ml" in
  let step := _run_single_step (fun _ => None) g (MkStep (PStr "aspirate") p) in
  step (acking 8)
    = aspirate 50 (PStr "1ml") (Some new_Deck) (PStr "3") LABWARE_BEAKER_1WELL
        (PStr "A1") None None aspirate_feeds (acking 8) /\
  map render (emitted step (acking 8))
    = [ "G90"; "G1 Z100.000 F750"; "G1 X82.900 Y165.000 F7500"; "G1 Z150.000 F600";
        "G91"; "G1 U3.000 F200"; "G90"; "G1 Z100.000 F750" ].
Proof.
  intros p g step. split; [|by vm_compute].
  destruct (step_without_well_is_reservoir (fun _ => None) g new_Deck p
              (PFloat 50) 50 (acking 8)) as [Hres _]; [reflexivity..|].
  destruct (Hres eq_refl) as [Hasp _]. exact Hasp.
Defined.

(** * Further properties of the code *)

(** ** Tips *)

(** Property X1.  [pick_up_tip] on a slot of the deck and a well of the tip
    rack: when each of its waits ends by an acknowledgement or by its
    timeout, it returns normally, having sent exactly the mode line, the
    lift to the safe height, the travel to the well, the touch, [n_cycles]
    press-and-release cycles, the full insertion, the release to the press
    height and the lift, 9 + 4 [n_cycles] lines in all; a zero or negative
    [n_cycles] gives no cycle. *)
Theorem pick_up_tip_completes
  (deck : Deck) (slot_id well : pyval) (n_cycles : Z) (s : DeckSlot)
  (xy : float * float) (r : Robot) :
  slots_item deck slot_id = inr s ->
  well_position_machine
    (MkInstance LABWARE_TIPRACK_96 s (label_for "tiprack_slot" slot_id) deck) well
    = inr xy ->
  ser_open r = true ->
  answers (clock r) (pick_up_tip_timeouts (Z.to_nat n_cycles)) (rx r) = true ->
  fst (pick_up_tip deck slot_id well n_cycles r) = Done tt /\
  emitted (pick_up_tip deck slot_id well n_cycles) r
    = pick_up_tip_plan xy (Z.to_nat n_cycles) /\
  length (emitted (pick_up_tip deck slot_id well n_cycles) r)
    = (9 + 4 * Z.to_nat n_cycles)%nat /\
  (n_cycles <= 0 ->
   emitted (pick_up_tip deck slot_id well n_cycles) r = pick_up_tip_plan xy 0).
Proof.
  intros Hs Hw Hopen Hans.
  destruct (ends_run _ _ _ _ r (ends_pick_up_tip deck slot_id well n_cycles s xy Hs Hw)
              Hopen Hans) as [Hdone Hsent].
  split; [done|]. split; [done|]. rewrite Hsent. split.
  - unfold pick_up_tip_plan. rewrite !length_app.
    assert (Hc : forall n, length (concat (replicate n tip_cycle)) = (4 * n)%nat).
    { induction n as [|n IH]; [done|]. simpl in *. lia. }
    rewrite Hc. simpl. lia.
  - intros Hn. by replace (Z.to_nat n_cycles) with 0%nat by lia.
Qed.

(** The property at work: well "A1" of the rack on slot "1", two cycles. *)
Lemma pick_up_tip_completes_witness :
  fst (pick_up_tip new_Deck (PStr "1") (PStr "A1") 2 (acking 17)) = Done tt /\
  emitted (pick_up_tip new_Deck (PStr "1") (PStr "A1") 2) (acking 17)
    = pick_up_tip_plan (33.2, 33.5)%float 2 /\
  length (emitted (pick_up_tip new_Deck (PStr "1") (PStr "A1") 2) (acking 17))
    = 17%nat.
Proof.
  destruct (pick_up_tip_completes new_Deck (PStr "1") (PStr "A1") 2
              (MkDeckSlot "1" 90.9 70) (33.2, 33.5)%float (acking 17))
    as (H1 & H2 & H3 & _); [by vm_compute..|].
  done.
Defined.

(** Property X2.  A well name that does not resolve on the tip rack is
    detected by [pick_up_tip] only after the mode line and the lift to the
    safe height have gone out: the address error is raised with exactly
    these two lines sent. *)
Theorem pick_up_tip_bad_well_after_lift
  (deck : Deck) (slot_id well : pyval) (n_cycles : Z) (s : DeckSlot) (e : exn)
  (r : Robot) :
  slots_item deck slot_id = inr s ->
  well_position_machine
    (MkInstance LABWARE_TIPRACK_96 s (label_for "tiprack_slot" slot_id) deck) well
    = inl e ->
  ser_open r = true ->
  answers (clock r) [default_send_timeout; default_move_timeout] (rx r) = true ->
  fst (pick_up_tip deck slot_id well n_cycles r) = Raised e /\
  emitted (pick_up_tip deck slot_id well n_cycles) r = [G90; G1_Z 100 750].
Proof.
  intros Hs Hw Hopen Hans.
  exact (ends_run _ _ _ _ r
           (ends_pick_up_tip_bad_well deck slot_id well n_cycles s e Hs Hw) Hopen Hans).
Qed.

(** The property at work: the rack has rows A to H, and well "I1" is
    refused after the lift. *)
Lemma pick_up_tip_bad_well_after_lift_witness :
  fst (pick_up_tip new_Deck (PStr "1") (PStr "I1") 2 (acking 2))
    = Raised (RowOutOfRange "I1") /\
  emitted (pick_up_tip new_Deck (PStr "1") (PStr "I1") 2) (acking 2)
    = [G90; G1_Z 100 750].
Proof.
  apply (pick_up_tip_bad_well_after_lift new_Deck (PStr "1") (PStr "I1") 2
           (MkDeckSlot "1" 90.9 70)); by vm_compute.
Defined.

(** Property X3.  [drop_tip_scrape] over a slot of the deck: when its six
    waits are answered it returns normally, having sent the approach to the
    slot centre at the scrape height, the scrape stroke and the lift.  The
    stroke keeps Y at the centre and ends at centre − half width − extra for
    the edge "left" and at centre + half width + extra for "right". *)
Theorem drop_tip_scrape_completes
  (deck : Deck) (slot_id : pyval) (hw extra : float) (c : float * float) (r : Robot) :
  slot_center_machine deck slot_id = inr c ->
  ser_open r = true ->
  answers (clock r) drop_tip_scrape_timeouts (rx r) = true ->
  let left := drop_tip_scrape deck slot_id (PStr "left") hw extra in
  let right := drop_tip_scrape deck slot_id (PStr "right") hw extra in
  fst (left r) = Done tt /\
  emitted left r
    = drop_tip_scrape_plan c (PrimFloat.sub (PrimFloat.sub (fst c) hw) extra) /\
  fst (right r) = Done tt /\
  emitted right r
    = drop_tip_scrape_plan c (PrimFloat.add (PrimFloat.add (fst c) hw) extra).
Proof.
  intros Hc Hopen Hans left right. subst left right.
  pose proof Hc as Hslot. unfold slot_center_machine in Hslot.
  destruct (slots_item deck slot_id) as [e|s] eqn:Hs; [done|]. clear Hslot.
  assert (Hl : ends (drop_tip_scrape deck slot_id (PStr "left") hw extra)
                 drop_tip_scrape_timeouts
                 (drop_tip_scrape_plan c (PrimFloat.sub (PrimFloat.sub (fst c) hw) extra))
                 (Done tt)).
  { unfold drop_tip_scrape. rewrite Hs. enter_try. simpl. rewrite Hc.
    unfold drop_tip_scrape_plan, scrape_approach, drop_tip_scrape_timeouts.
    ends_by_walk. }
  assert (Hr : ends (drop_tip_scrape deck slot_id (PStr "right") hw extra)
                 drop_tip_scrape_timeouts
                 (drop_tip_scrape_plan c (PrimFloat.add (PrimFloat.add (fst c) hw) extra))
                 (Done tt)).
  { unfold drop_tip_scrape. rewrite Hs. enter_try. simpl. rewrite Hc.
    unfold drop_tip_scrape_plan, scrape_approach, drop_tip_scrape_timeouts.
    ends_by_walk. }
  destruct (ends_run _ _ _ _ r Hl Hopen Hans) as [? ?].
  destruct (ends_run _ _ _ _ r Hr Hopen Hans) as [? ?].
  done.
Qed.

(** The property at work: slot "2", whose centre is at X 234.1, with the
    default half width 64 and extra 20. *)
Lemma drop_tip_scrape_completes_witness :
  let left := drop_tip_scrape new_Deck (PStr "2") (PStr "left")
                default_slot_half_width default_extra_scrape in
  let right := drop_tip_scrape new_Deck (PStr "2") (PStr "right")
                 default_slot_half_width default_extra_scrape in
  fst (left (acking 6)) = Done tt /\
  emitted left (acking 6) = drop_tip_scrape_plan (234.1, 65)%float 150.1 /\
  fst (right (acking 6)) = Done tt /\
  emitted right (acking 6) = drop_tip_scrape_plan (234.1, 65)%float 318.1.
Proof.
  apply (drop_tip_scrape_completes new_Deck (PStr "2") default_slot_half_width
           default_extra_scrape (234.1, 65)%float (acking 6)); by vm_compute.
Defined.

(** ** Transfers *)

(** Property X4.  [transfer_volume] with a syringe that resolves and a
    target within its bounds, two slots of the deck and two wells of the
    48-well plate: when its twelve waits are answered it returns normally,
    having sent exactly the twelve lines of [transfer_volume_plan] for the
    machine positions of the two wells. *)
Theorem transfer_volume_completes
  (deck : Deck) (src_slot src_well dst_slot dst_well : pyval)
  (volume_ul : float) (syringe : pyval) (f : Feeds) (syr : SyringeType)
  (s_src s_dst : DeckSlot) (src dst : float * float) (r : Robot) :
  fst (_get_syringe syringe r) = Done syr ->
  below_bound (u_base syr) (u_min syr) = false ->
  above_bound (PrimFloat.add (u_base syr) (PrimFloat.mul volume_ul (u_per_ul syr)))
    (u_max syr) = false ->
  slots_item deck src_slot = inr s_src ->
  slots_item deck dst_slot = inr s_dst ->
  well_position_machine
    (MkInstance LABWARE_48WELL_10MM s_src (label_for "plate_src_slot" src_slot) deck)
    src_well = inr src ->
  well_position_machine
    (MkInstance LABWARE_48WELL_10MM s_dst (label_for "plate_dst_slot" dst_slot) deck)
    dst_well = inr dst ->
  ser_open r = true ->
  answers (clock r) transfer_volume_timeouts (rx r) = true ->
  let run := transfer_volume deck src_slot src_well dst_slot dst_well volume_ul
               syringe f in
  fst (run r) = Done tt /\
  emitted run r = transfer_volume_plan syr volume_ul src dst f.
Proof.
  intros Hget Hmin Hmax Hsrc Hdst Hws Hwd Hopen Hans run. subst run.
  unfold emitted.
  rewrite (transfer_volume_body _ _ _ _ _ _ _ _ syr s_src s_dst r Hget Hmin Hmax Hsrc Hdst).
  rewrite Hws, Hwd.
  lazymatch goal with
  | |- fst (?m r) = _ /\ _ =>
      assert (He : ends m transfer_volume_timeouts
                     (transfer_volume_plan syr volume_ul src dst f) (Done tt))
        by (unfold transfer_volume_plan, transfer_volume_timeouts; ends_by_walk)
  end.
  exact (ends_run _ _ _ _ r He Hopen Hans).
Qed.

(** The property at work: 50 µL from well "A1" of slot "4" to well "f8" of
    slot "5". *)
Lemma transfer_volume_completes_witness :
  let run := transfer_volume new_Deck (PStr "4") (PStr "A1") (PStr "5") (PStr "f8")
               50 (PStr "1ml") transfer_feeds in
  fst (run (acking 12)) = Done tt /\
  emitted run (acking 12)
    = transfer_volume_plan Syringe_1ml 50 (190.22, 132.96)%float
        (126.31, 295.31)%float transfer_feeds.
Proof.
  apply (transfer_volume_completes new_Deck (PStr "4") (PStr "A1") (PStr "5") (PStr "f8")
           50 (PStr "1ml") transfer_feeds Syringe_1ml
           (MkDeckSlot "4" 242.1 170) (MkDeckSlot "5" 90.9 270));
    by vm_compute.
Defined.

(** Property X5.  A destination well that does not resolve is detected by
    [transfer_volume] only when the source phase is over: the address error
    is raised after eight lines, among them the plunger pull to the aspirate
    target, so with the liquid already drawn from the source well. *)
Theorem transfer_volume_bad_destination_after_aspiration
  (deck : Deck) (src_slot src_well dst_slot dst_well : pyval)
  (volume_ul : float) (syringe : pyval) (f : Feeds) (syr : SyringeType)
  (s_src s_dst : DeckSlot) (src : float * float) (e : exn) (r : Robot) :
  fst (_get_syringe syringe r) = Done syr ->
  below_bound (u_base syr) (u_min syr) = false ->
  above_bound (PrimFloat.add (u_base syr) (PrimFloat.mul volume_ul (u_per_ul syr)))
    (u_max syr) = false ->
  slots_item deck src_slot = inr s_src ->
  slots_item deck dst_slot = inr s_dst ->
  well_position_machine
    (MkInstance LABWARE_48WELL_10MM s_src (label_for "plate_src_slot" src_slot) deck)
    src_well = inr src ->
  well_position_machine
    (MkInstance LABWARE_48WELL_10MM s_dst (label_for "plate_dst_slot" dst_slot) deck)
    dst_well = inl e ->
  ser_open r = true ->
  answers (clock r) (take 8 transfer_volume_timeouts) (rx r) = true ->
  let run := transfer_volume deck src_slot src_well dst_slot dst_well volume_ul
               syringe f in
  fst (run r) = Raised e /\
  emitted run r = transfer_source_phase syr volume_ul src f /\
  In (G1_U (PrimFloat.add (u_base syr) (PrimFloat.mul volume_ul (u_per_ul syr)))
        (feed_u f)) (emitted run r) /\
  (forall dst, transfer_source_phase syr volume_ul src f
                 = take 8 (transfer_volume_plan syr volume_ul src dst f)).
Proof.
  intros Hget Hmin Hmax Hsrc Hdst Hws Hwd Hopen Hans run. subst run.
  unfold emitted.
  rewrite (transfer_volume_body _ _ _ _ _ _ _ _ syr s_src s_dst r Hget Hmin Hmax Hsrc Hdst).
  rewrite Hws, Hwd.
  lazymatch goal with
  | |- fst (?m r) = _ /\ _ =>
      assert (He : ends m (take 8 transfer_volume_timeouts)
                     (transfer_source_phase syr volume_ul src f) (Raised e))
        by (unfold transfer_source_phase, transfer_volume_timeouts; ends_by_walk)
  end.
  destruct (ends_run _ _ _ _ r He Hopen Hans) as [H1 H2].
  split; [done|]. unfold emitted in H2. rewrite H2. split; [done|]. split; [|done].
  unfold transfer_source_phase. simpl. tauto.
Qed.

(** The property at work: the plate has eight columns, and the destination
    "A9" is refused after the aspiration from "A1". *)
Lemma transfer_volume_bad_destination_after_aspiration_witness :
  let run := transfer_volume new_Deck (PStr "4") (PStr "A1") (PStr "4") (PStr "A9")
               50 (PStr "1ml") transfer_feeds in
  fst (run (acking 8)) = Raised (ColumnOutOfRange "A9") /\
  map render (emitted run (acking 8))
    = [ "G90"; "G1 U5.000 F200"; "G1 Z158.000 F300"; "G1 X190.220 Y132.960 F3000";
        "G1 Z170.000 F200"; "G1 U8.000 F200"; "G1 Z158.000 F300";
        "G1 Z158.000 F300" ].
Proof.
  destruct (transfer_volume_bad_destination_after_aspiration
              new_Deck (PStr "4") (PStr "A1") (PStr "4") (PStr "A9")
              50 (PStr "1ml") transfer_feeds Syringe_1ml
              (MkDeckSlot "4" 242.1 170) (MkDeckSlot "4" 242.1 170)
              (190.22, 132.96)%float (ColumnOutOfRange "A9") (acking 8))
    as (H1 & H2 & _); [by vm_compute..|].
  split; [exact H1|]. rewrite H2. by vm_compute.
Defined.

(** Property X6.  [transfer_volume] resolves its syringe before anything
    else: when the syringe does not resolve, that error is raised and the
    session is untouched.  The default of its [syringe] argument, "10ml", is
    not in [SYRINGES]: called without a syringe, [transfer_volume] raises the
    unknown-syringe [KeyError], also when a syringe has been selected. *)
Theorem transfer_volume_resolves_syringe_first
  (deck : Deck) (src_slot src_well dst_slot dst_well : pyval) (volume_ul : float)
  (f : Feeds) (r : Robot) :
  (forall syringe e,
     fst (_get_syringe syringe r) = Raised e ->
     transfer_volume deck src_slot src_well dst_slot dst_well volume_ul syringe f r
       = (Raised e, r)) /\
  SYRINGES !! "10ml" = None /\
  transfer_volume deck src_slot src_well dst_slot dst_well volume_ul
    default_transfer_syringe f r
    = (Raised (UnknownSyringe (PStr "10ml")), r) /\
  (forall s, current_syringe r = Some s ->
     fst (_get_syringe PNone r) = Done s /\
     fst (transfer_volume deck src_slot src_well dst_slot dst_well volume_ul
            default_transfer_syringe f r) = Raised (UnknownSyringe (PStr "10ml"))).
Proof.
  split; [|split; [done|split; [done|]]].
  - intros syringe e H. unfold transfer_volume, bind.
    pose proof (get_syringe_state syringe r) as Hs.
    destruct (_get_syringe syringe r) as [o r']. simpl in *. by subst.
  - intros s Hs. simpl. by rewrite Hs.
Qed.

(** Property X7.  With the syringe resolved, [transfer_volume] raises the
    below-minimum [ValueError] exactly when [u_base] is below a set [u_min],
    and the exceeds-maximum [ValueError] exactly when that check passes and
    the target [u_base + volume_ul * u_per_ul] is above a set [u_max].  The
    target is not compared with [u_min], and no comparison holds of a NaN. *)
Theorem transfer_volume_range_errors_exactly
  (deck : Deck) (src_slot src_well dst_slot dst_well : pyval)
  (volume_ul : float) (syringe : pyval) (f : Feeds) (syr : SyringeType) (r : Robot) :
  fst (_get_syringe syringe r) = Done syr ->
  let target := PrimFloat.add (u_base syr) (PrimFloat.mul volume_ul (u_per_ul syr)) in
  let run := transfer_volume deck src_slot src_well dst_slot dst_well volume_ul
               syringe f in
  (fst (run r) = Raised UBaseBelowMin <-> below_bound (u_base syr) (u_min syr) = true) /\
  (fst (run r) = Raised UTravelExceedsMax <->
   below_bound (u_base syr) (u_min syr) = false /\
   above_bound target (u_max syr) = true).
Proof.
  intros Hget target run. subst run target.
  pose proof (transfer_volume_range_error deck src_slot src_well dst_slot dst_well
                volume_ul syringe f syr r Hget) as Hrun.
  pose proof (transfer_volume_checked deck src_slot src_well dst_slot dst_well
                volume_ul syringe f syr r Hget) as Hrest.
  destruct (below_bound (u_base syr) (u_min syr)) eqn:Hmin.
  { rewrite Hrun. split; [done|]. split; [done|]. by intros [? _]. }
  destruct (above_bound _ (u_max syr)) eqn:Hmax.
  { rewrite Hrun. split; [done|]. done. }
  specialize (Hrest eq_refl eq_refl).
  split.
  - split; [|done]. intros H. apply Hrest in H.
    destruct H as [[H|H]|[H|[H|(l & H & _)]]]; done.
  - split; [|by intros [_ ?]]. intros H. apply Hrest in H.
    destruct H as [[H|H]|[H|[H|(l & H & _)]]]; done.
Qed.

(** The property at work: -100 µL gives the target -1, below the minimum 0
    of the "1ml" syringe, and a NaN volume gives a NaN target; both pass the
    checks, and the plunger is sent to U-1.000 and to Unan. *)
Lemma transfer_volume_range_errors_exactly_witness :
  let below := transfer_volume new_Deck (PStr "4") (PStr "A1") (PStr "4") (PStr "B3")
                 (-100) (PStr "1ml") transfer_feeds in
  let nan_volume := transfer_volume new_Deck (PStr "4") (PStr "A1") (PStr "4") (PStr "B3")
                      PrimFloat.nan (PStr "1ml") transfer_feeds in
  (fst (below (acking 12)) = Raised UTravelExceedsMax <->
   below_bound (u_base Syringe_1ml) (u_min Syringe_1ml) = false /\
   above_bound (PrimFloat.add (u_base Syringe_1ml)
                  (PrimFloat.mul (-100) (u_per_ul Syringe_1ml)))
     (u_max Syringe_1ml) = true) /\
  fst (below (acking 12)) = Done tt /\
  map render (emitted below (acking 12)) !! 5%nat = Some "G1 U-1.000 F200" /\
  fst (nan_volume (acking 12)) = Done tt /\
  map render (emitted nan_volume (acking 12)) !! 5%nat = Some "G1 Unan F200".
Proof.
  intros below nan_volume.
  destruct (transfer_volume_range_errors_exactly new_Deck (PStr "4") (PStr "A1")
              (PStr "4") (PStr "B3") (-100) (PStr "1ml") transfer_feeds Syringe_1ml
              (acking 12)) as (_ & H); [by vm_compute|].
  split; [exact H|]. by vm_compute.
Defined.

(** ** Aspirating and dispensing *)

(** Property X8.  [aspirate] and [dispense] addressed to a well of a slot
    of the deck: when their waits are answered they return normally, having
    sent the mode line, for the beaker only the lift to the safe height,
    then the travel to the well, the descent to the working height, the
    relative plunger move (the travel [volume_ul * u_per_ul] for [aspirate],
    its opposite for [dispense]) between the two mode lines, and the lift.
    The heights are those of the labware: the arguments [z_safe] and
    [z_aspirate] / [z_dispense] are not used. *)
Theorem addressed_aspirate_dispense_complete
  (volume_ul : float) (syringe : pyval) (syr : SyringeType) (d : Deck)
  (slot_id : pyval) (labware_type : LabwareType) (well : pyval)
  (z_safe z_work : option float) (f : Feeds) (s : DeckSlot)
  (xy : float * float) (r : Robot) :
  fst (_get_syringe syringe r) = Done syr ->
  is_none slot_id = false -> is_none well = false ->
  slots_item d slot_id = inr s ->
  (forall lbl, well_position_machine (MkInstance labware_type s lbl d) well = inr xy) ->
  ser_open r = true ->
  let beaker := is_ labware_type LABWARE_BEAKER_1WELL in
  answers (clock r) (addressed_timeouts beaker) (rx r) = true ->
  let du := PrimFloat.mul volume_ul (u_per_ul syr) in
  let asp := aspirate volume_ul syringe (Some d) slot_id labware_type well
               z_safe z_work f in
  let disp := dispense volume_ul syringe (Some d) slot_id labware_type well
                z_safe z_work f in
  fst (asp r) = Done tt /\
  emitted asp r
    = addressed_plan beaker (safe_z labware_type)
        (or_else (aspirate_z labware_type) (bottom_z labware_type)) du xy f /\
  fst (disp r) = Done tt /\
  emitted disp r
    = addressed_plan beaker (safe_z labware_type)
        (or_else (dispense_z labware_type) (bottom_z labware_type))
        (PrimFloat.opp du) xy f.
Proof.
  intros Hget Hslot Hwell Hs Hxy Hopen beaker Hans du asp disp.
  subst asp disp du.
  assert (He : forall z_work du,
    ends (set_absolute_mode ;;
          (if beaker then
             move_z (safe_z labware_type) (feed_z_up f) ;;
             xy <- try_ (inr xy) ;;
             move_xy (fst xy) (snd xy) (feed_xy f)
           else
             xy <- try_ (inr xy) ;;
             move_xy (fst xy) (snd xy) (feed_xy f)) ;;
          move_z z_work (feed_z_down f) ;;
          move_relative_u du (feed_u f) ;;
          move_z (safe_z labware_type) (feed_z_up f))
      (addressed_timeouts beaker)
      (addressed_plan beaker (safe_z labware_type) z_work du xy f) (Done tt)).
  { intros zw du. unfold addressed_timeouts, addressed_plan.
    destruct beaker; ends_by_walk. }
  split; [|split; [|split]].
  1, 2: eapply (ends_from _ _ _ _ _ r); [|apply He|done|done];
        rewrite (aspirate_resolved _ _ syr) by done;
        rewrite (addressed_some d slot_id well Hslot Hwell), Hs; enter_try;
        rewrite Hxy; reflexivity.
  1, 2: eapply (ends_from _ _ _ _ _ r); [|apply He|done|done];
        rewrite (dispense_resolved _ _ syr) by done;
        rewrite (addressed_some d slot_id well Hslot Hwell), Hs; enter_try;
        rewrite Hxy; reflexivity.
Qed.

(** The property at work: 50 µL at well "A1" of the plate on slot "4". *)
Lemma addressed_aspirate_dispense_complete_witness :
  let asp := aspirate 50 (PStr "1ml") (Some new_Deck) (PStr "4") LABWARE_48WELL_10MM
               (PStr "A1") None None aspirate_feeds in
  let disp := dispense 50 (PStr "1ml") (Some new_Deck) (PStr "4") LABWARE_48WELL_10MM
                (PStr "A1") None None aspirate_feeds in
  fst (asp (acking 7)) = Done tt /\
  emitted asp (acking 7)
    = addressed_plan false 158 170 3 (190.22, 132.96)%float aspirate_feeds /\
  fst (disp (acking 7)) = Done tt /\
  emitted disp (acking 7)
    = addressed_plan false 158 170 (-3) (190.22, 132.96)%float aspirate_feeds.
Proof.
  apply (addressed_aspirate_dispense_complete 50 (PStr "1ml") Syringe_1ml new_Deck
           (PStr "4") LABWARE_48WELL_10MM (PStr "A1") None None aspirate_feeds
           (MkDeckSlot "4" 242.1 170) (190.22, 132.96)%float (acking 7));
    by vm_compute.
Defined.

(** Property X9.  An address that lacks the deck, the slot or the well is
    not used at all: [aspirate] and [dispense] then run as at the current
    XY.  With both heights given they work at the current XY; with a height
    missing they raise the missing-heights [ValueError], after the mode line
    has been sent. *)
Theorem partial_address_is_ignored
  (volume_ul : float) (syringe : pyval) (syr : SyringeType) (deck : option Deck)
  (slot_id : pyval) (labware_type : LabwareType) (well : pyval)
  (z_safe z_work : option float) (f : Feeds) (r : Robot) :
  addressed deck slot_id well = None ->
  fst (_get_syringe syringe r) = Done syr ->
  ser_open r = true ->
  answers (clock r) current_xy_timeouts (rx r) = true ->
  let asp := aspirate volume_ul syringe deck slot_id labware_type well z_safe z_work f in
  let disp := dispense volume_ul syringe deck slot_id labware_type well z_safe z_work f in
  asp r = aspirate volume_ul syringe None PNone labware_type PNone z_safe z_work f r /\
  disp r = dispense volume_ul syringe None PNone labware_type PNone z_safe z_work f r /\
  (forall zs zw, z_safe = Some zs -> z_work = Some zw ->
     fst (asp r) = Done tt /\
     emitted asp r = current_xy_plan zs zw (PrimFloat.mul volume_ul (u_per_ul syr)) f) /\
  (z_safe = None \/ z_work = None ->
     fst (asp r) = Raised MissingCurrentXYHeights /\ emitted asp r = [G90] /\
     fst (disp r) = Raised MissingCurrentXYHeights /\ emitted disp r = [G90]).
Proof.
  intros Haddr Hget Hopen Hans asp disp. subst asp disp.
  assert (Ha : aspirate volume_ul syringe deck slot_id labware_type well z_safe z_work f r
             = aspirate volume_ul syringe None PNone labware_type PNone z_safe z_work f r).
  { rewrite !(aspirate_resolved _ _ syr) by done. by rewrite Haddr. }
  assert (Hd : dispense volume_ul syringe deck slot_id labware_type well z_safe z_work f r
             = dispense volume_ul syringe None PNone labware_type PNone z_safe z_work f r).
  { rewrite !(dispense_resolved _ _ syr) by done. by rewrite Haddr. }
  split; [done|]. split; [done|]. split.
  - intros zs zw -> ->.
    destruct (aspirate_current_xy volume_ul syringe syr labware_type zs zw f r Hget)
      as [Hs Hr].
    unfold emitted. rewrite Ha. split; [by apply Hr|].
    apply (sends_from_done _ _ _ tt Hs). by apply Hr.
  - intros Hnone.
    assert (Hshort : answers (clock r) [default_send_timeout] (rx r) = true).
    { unfold answers, current_xy_timeouts in *. simpl in *.
      by destruct (answered (clock r) default_send_timeout (rx r)) as [[? ?]|]. }
    assert (He : ends (set_absolute_mode ;; @raise unit MissingCurrentXYHeights)
                   [default_send_timeout] [G90] (Raised MissingCurrentXYHeights))
      by ends_by_walk.
    split; [|split; [|split]].
    1, 2: eapply (ends_from _ _ _ _ _ r); [|apply He|done|done];
          rewrite (aspirate_resolved _ _ syr) by done; rewrite Haddr;
          by destruct Hnone as [-> | ->]; [|destruct z_safe].
    1, 2: eapply (ends_from _ _ _ _ _ r); [|apply He|done|done];
          rewrite (dispense_resolved _ _ syr) by done; rewrite Haddr;
          by destruct Hnone as [-> | ->]; [|destruct z_safe].
Qed.

(** The property at work: a slot without a well; the slot is ignored. *)
Lemma partial_address_is_ignored_witness :
  let asp := aspirate 50 (PStr "1ml") (Some new_Deck) (PStr "4") LABWARE_48WELL_10MM
               PNone (Some 100%float) (Some 150%float) aspirate_feeds in
  asp (acking 7)
    = aspirate 50 (PStr "1ml") None PNone LABWARE_48WELL_10MM PNone
        (Some 100%float) (Some 150%float) aspirate_feeds (acking 7) /\
  fst (asp (acking 7)) = Done tt /\
  emitted asp (acking 7) = current_xy_plan 100 150 3 aspirate_feeds.
Proof.
  intros asp.
  destruct (partial_address_is_ignored 50 (PStr "1ml") Syringe_1ml (Some new_Deck)
              (PStr "4") LABWARE_48WELL_10MM PNone (Some 100%float) (Some 150%float)
              aspirate_feeds (acking 7))
    as (H1 & _ & H3 & _); [by vm_compute..|].
  split; [exact H1|]. exact (H3 100%float 150%float eq_refl eq_refl).
Defined.

(** ** Positioning mode and waits *)

(** Property X10.  Whatever the mode before: as soon as [pick_up_tip],
    [drop_tip_scrape] or [transfer_volume] has sent anything, the firmware
    is in absolute mode, however the operation ends; and when [aspirate] or
    [dispense] returns normally, in any of its addressing modes, the
    firmware is in absolute mode. *)
Theorem operations_leave_absolute_mode (m0 : mode) (r : Robot) :
  (forall deck slot_id well n_cycles,
     let run := pick_up_tip deck slot_id well n_cycles in
     emitted run r = [] \/ firmware_mode m0 (emitted run r) = Absolute) /\
  (forall deck slot_id edge hw extra,
     let run := drop_tip_scrape deck slot_id edge hw extra in
     emitted run r = [] \/ firmware_mode m0 (emitted run r) = Absolute) /\
  (forall deck src_slot src_well dst_slot dst_well volume_ul syringe f,
     let run := transfer_volume deck src_slot src_well dst_slot dst_well
                  volume_ul syringe f in
     emitted run r = [] \/ firmware_mode m0 (emitted run r) = Absolute) /\
  (forall volume_ul syringe deck slot_id labware_type well z_safe z_work f,
     let run := aspirate volume_ul syringe deck slot_id labware_type well
                  z_safe z_work f in
     fst (run r) = Done tt -> firmware_mode m0 (emitted run r) = Absolute) /\
  (forall volume_ul syringe deck slot_id labware_type well z_safe z_work f,
     let run := dispense volume_ul syringe deck slot_id labware_type well
                  z_safe z_work f in
     fst (run r) = Done tt -> firmware_mode m0 (emitted run r) = Absolute).
Proof.
  assert (Hgen : forall (m : M unit) plan rest,
            sends_from r m plan -> plan = G90 :: rest -> no_mode_line rest = true ->
            emitted m r = [] \/ firmware_mode m0 (emitted m r) = Absolute).
  { intros m plan rest Hs -> Hrest.
    destruct (emitted m r) as [|g sent] eqn:He; [by left|]. right.
    apply (absolute_after_G90 m0 _ rest); [|done|done].
    rewrite <- He. by apply sends_from_emitted_prefix. }
  split; [|split; [|split; [|split]]].
  - intros deck slot_id well n_cycles run. subst run.
    destruct (sends_pick_up_tip deck slot_id well n_cycles) as [xy Hs].
    destruct (pick_up_tip_plan_mode xy (Z.to_nat n_cycles)) as (rest & Hp & Hr).
    by apply (Hgen _ _ rest (Hs r)).
  - intros deck slot_id edge hw extra run. subst run.
    destruct (sends_drop_tip_scrape deck slot_id edge hw extra) as (c & x & Hs).
    by apply (Hgen _ _ _ (Hs r) eq_refl).
  - intros deck src_slot src_well dst_slot dst_well volume_ul syringe f run. subst run.
    destruct (sends_transfer_volume r deck src_slot src_well dst_slot dst_well
                volume_ul syringe f) as (syr & src & dst & Hs).
    by apply (Hgen _ _ _ Hs eq_refl).
  - intros volume_ul syringe deck slot_id labware_type well z_safe z_work f run Hdone.
    subst run.
    destruct (sends_aspirate r volume_ul syringe deck slot_id labware_type well
                z_safe z_work f) as (plan & Hs & Hm).
    by rewrite (sends_from_done _ _ _ tt Hs Hdone).
  - intros volume_ul syringe deck slot_id labware_type well z_safe z_work f run Hdone.
    subst run.
    destruct (sends_dispense r volume_ul syringe deck slot_id labware_type well
                z_safe z_work f) as (plan & Hs & Hm).
    by rewrite (sends_from_done _ _ _ tt Hs Hdone).
Qed.

(** Property X11.  [move_relative] does not restore the absolute mode when
    its move fails: when the relative-mode line is acknowledged and the wait
    of the move meets a firmware error line, the error is raised with the
    absolute-mode line never sent, and the firmware is left in relative
    mode. *)
Theorem move_relative_failure_leaves_relative_mode
  (m0 : mode) (dx dy dz du : float) (feedrate tmo : option float) (r : Robot)
  (unread pre : list event) (ev : event) (post : list event) (c : float) :
  ser_open r = true ->
  answered (clock r) default_send_timeout (rx r) = Some (unread, c) ->
  unread = pre ++ ev :: post ->
  forallb (passed_over c tmo) pre = true ->
  error_marker (line_of ev) = true ->
  let run := move_relative dx dy dz du feedrate tmo in
  fst (run r) = Raised (FirmwareError (line_of ev)) /\
  emitted run r = [G91; G1_delta dx dy dz du feedrate] /\
  firmware_mode m0 (emitted run r) = Relative.
Proof.
  intros Hopen Hack Hunread Hpre Herr run. subst run.
  destruct (send_gcode_answered G91 default_send_timeout r unread c Hopen Hack)
    as (r1 & Hrun1 & Htx1 & Hrx1 & Hc1 & Ho1 & _).
  rewrite Hunread in Hrx1. rewrite <- Hc1 in Hpre.
  destruct (send_gcode_fails (G1_delta dx dy dz du feedrate) tmo r1 pre ev post
              Ho1 Hrx1 Hpre Herr) as (r2 & Hrun2 & Htx2 & _).
  assert (Hrun : move_relative dx dy dz du feedrate tmo r
                 = (Raised (FirmwareError (line_of ev)), r2)).
  { unfold move_relative, set_relative_mode. unfold bind at 1.
    fold G91. rewrite Hrun1. unfold bind at 1.
    fold (G1_delta dx dy dz du feedrate). by rewrite Hrun2. }
  assert (Hsent : emitted (move_relative dx dy dz du feedrate tmo) r
                  = [G91; G1_delta dx dy dz du feedrate]).
  { apply emitted_app. rewrite Hrun. simpl. by rewrite Htx2, Htx1, <- app_assoc. }
  rewrite Hrun, Hsent. split; [done|]. split; [done|].
  unfold firmware_mode, G1_delta, nonzero_part.
  by destruct (negb (PrimFloat.eqb dx 0)), (negb (PrimFloat.eqb dy 0)),
    (negb (PrimFloat.eqb dz 0)), (negb (PrimFloat.eqb du 0)), feedrate.
Qed.

(** The property at work: the firmware acknowledges [G91] and halts on the
    plunger move. *)
Lemma move_relative_failure_leaves_relative_mode_witness :
  let run := move_relative 0 0 0 1.5 (Some 200%float) default_move_timeout in
  fst (run (session [ok_event; halted_line]))
    = Raised (FirmwareError "Error:Printer halted") /\
  emitted run (session [ok_event; halted_line])
    = [G91; G1_delta 0 0 0 1.5 (Some 200%float)] /\
  firmware_mode Absolute (emitted run (session [ok_event; halted_line])) = Relative.
Proof.
  apply (move_relative_failure_leaves_relative_mode Absolute 0 0 0 1.5
           (Some 200%float) default_move_timeout (session [ok_event; halted_line])
           [halted_line] [] halted_line [] 0); by vm_compute.
Defined.

(** Property X12.  A timeout that is none or not positive never expires:
    as long as the firmware sends neither an acknowledgement nor an error
    line, the wait reads on, whatever the clock says, and no warning is
    logged. *)
Theorem non_positive_timeout_never_expires (g : gcode) (tmo : option float) (r : Robot) :
  ser_open r = true ->
  unbounded tmo = true ->
  forallb neutral (rx r) = true ->
  exists r',
    send_gcode g true tmo r = (Starved, r') /\
    tx r' = tx r ++ [g] /\ rx r' = [] /\ log r' = log r.
Proof.
  intros Hopen Ht Hall.
  assert (Hrun : send_gcode g true tmo r
                 = drain_loop (S (length (rx r))) (clock r) tmo (push_tx g r)).
  { unfold send_gcode, _write_line, _ensure_connected, bind. by rewrite Hopen. }
  rewrite Hrun.
  destruct (drain_loop_waits (rx r) (S (length (rx r))) (clock r) tmo (push_tx g r))
    as (r' & Hr & Htx & Hrx' & Hlog); [done|done|lia|done|done|].
  by exists r'.
Qed.

(** The property at work: with the timeout 0 the wait is still reading
    after 100000 seconds of silence. *)
Lemma non_positive_timeout_never_expires_witness :
  exists r',
    send_gcode G90 true (Some 0%float)
      (session [silence 10; silence 100; silence 100000]) = (Starved, r') /\
    tx r' = [G90] /\ rx r' = [] /\ log r' = [].
Proof.
  apply (non_positive_timeout_never_expires G90 (Some 0%float)
           (session [silence 10; silence 100; silence 100000])); by vm_compute.
Defined.

(** ** Exceptions *)

(** Property X13.  The exceptions of the choreography, whatever the session
    and the firmware.  [pick_up_tip] raises only the [KeyError] of its slot,
    an address error of its well, or a link error (closed port, firmware
    error line); [drop_tip_scrape] only the [KeyError] of its slot, the
    invalid-edge error, or a link error; [transfer_volume] only a syringe
    error, a range error, the [KeyError] of one of its slots, an address
    error of a well, or a link error.  So the missing-height errors of
    [pick_up_tip] and [drop_tip_scrape] are never raised, and a wait that
    times out never raises. *)
Theorem choreography_exceptions (r : Robot) (e : exn) :
  (forall deck slot_id well n_cycles,
     fst (pick_up_tip deck slot_id well n_cycles r) = Raised e ->
     e = KeyError slot_id \/ well_error e \/ link_error e) /\
  (forall deck slot_id edge hw extra,
     fst (drop_tip_scrape deck slot_id edge hw extra r) = Raised e ->
     e = KeyError slot_id \/ e = BadEdge \/ link_error e) /\
  (forall deck src_slot src_well dst_slot dst_well volume_ul syringe f,
     fst (transfer_volume deck src_slot src_well dst_slot dst_well volume_ul syringe f r)
       = Raised e ->
     (e = NoSyringeSelected \/ e = UnknownSyringe syringe) \/
     (e = UBaseBelowMin \/ e = UTravelExceedsMax) \/
     (e = KeyError src_slot \/ e = KeyError dst_slot) \/
     well_error e \/ link_error e).
Proof.
  split; [|split].
  - intros deck slot_id well n_cycles. apply raises_pick_up_tip.
  - intros deck slot_id edge hw extra. apply raises_drop_tip_scrape.
  - intros deck src_slot src_well dst_slot dst_well volume_ul syringe f.
    apply raises_transfer_volume.
Qed.

(** Property X14.  After [disconnect] the port is closed, and what was
    written, what is left to read and the selected syringe are kept.  On the
    closed port every sending primitive raises the not-connected
    [RuntimeError], and every operation of the robot and every protocol
    step raises, each leaving the session exactly as it was: nothing is
    written and nothing is read. *)
Theorem disconnected_port_refuses (float_of_str : string -> option float) (r : Robot) :
  let off := snd (disconnect r) in
  fst (disconnect r) = Done tt /\
  ser_open off = false /\ tx off = tx r /\ rx off = rx r /\
  current_syringe off = current_syringe r /\
  (forall g wait_ok tmo, send_gcode g wait_ok tmo off = (Raised SerialNotConnected, off)) /\
  get_position float_of_str off = (Raised SerialNotConnected, off) /\
  (forall axes tmo, home axes tmo off = (Raised SerialNotConnected, off)) /\
  (forall tmo, home_all tmo off = (Raised SerialNotConnected, off)) /\
  (forall x y z u feedrate tmo,
     move_to x y z u feedrate tmo off = (Raised SerialNotConnected, off)) /\
  (forall dx dy dz du feedrate tmo,
     move_relative dx dy dz du feedrate tmo off = (Raised SerialNotConnected, off)) /\
  (forall seconds, exists e, dwell seconds off = (Raised e, off)) /\
  (forall deck slot_id well n_cycles,
     exists e, pick_up_tip deck slot_id well n_cycles off = (Raised e, off)) /\
  (forall deck slot_id edge hw extra,
     exists e, drop_tip_scrape deck slot_id edge hw extra off = (Raised e, off)) /\
  (forall deck src_slot src_well dst_slot dst_well volume_ul syringe f,
     exists e,
       transfer_volume deck src_slot src_well dst_slot dst_well volume_ul syringe f off
         = (Raised e, off)) /\
  (forall volume_ul syringe deck slot_id labware_type well z_safe z_work f,
     exists e,
       aspirate volume_ul syringe deck slot_id labware_type well z_safe z_work f off
         = (Raised e, off)) /\
  (forall volume_ul syringe deck slot_id labware_type well z_safe z_work f,
     exists e,
       dispense volume_ul syringe deck slot_id labware_type well z_safe z_work f off
         = (Raised e, off)) /\
  (forall g step, exists e, _run_single_step float_of_str g step off = (Raised e, off)).
Proof.
  intros off.
  assert (Hoff : ser_open off = false) by done.
  split; [done|]. split; [done|]. split; [done|]. split; [done|]. split; [done|].
  split; [intros; by apply refused_send_gcode|].
  split.
  { unfold get_position, bind, _ensure_connected. by rewrite Hoff. }
  split; [intros; by apply refused_send_gcode|].
  split.
  { intros tmo. unfold home_all, bind. by rewrite refused_send_gcode. }
  split; [intros; by apply refused_send_gcode|].
  split.
  { intros. unfold move_relative, set_relative_mode, bind.
    by rewrite refused_send_gcode. }
  split; [intros; by apply refused_dwell|].
  split; [intros; by apply refused_pick_up_tip|].
  split; [intros; by apply refused_drop_tip_scrape|].
  split; [intros; by apply refused_transfer_volume|].
  split; [intros; by apply refused_aspirate|].
  split; [intros; by apply refused_dispense|].
  intros; by apply refused_step.
Qed.

(** ** Syringes *)

(** Property X15.  Selecting a syringe and then asking for the selected one
    gives what asking for it by name gives, the unknown-syringe [KeyError]
    included.  A known name is selected without touching the port; an
    unknown name raises and leaves the session, hence the earlier
    selection, as it was. *)
Theorem set_syringe_then_default (name : string) (r : Robot) :
  fst ((set_syringe name ;; _get_syringe PNone) r) = fst (_get_syringe (PStr name) r) /\
  (forall s, SYRINGES !! name = Some s ->
     exists r', set_syringe name r = (Done tt, r') /\
       current_syringe r' = Some s /\
       tx r' = tx r /\ rx r' = rx r /\ ser_open r' = ser_open r) /\
  (SYRINGES !! name = None ->
     set_syringe name r = (Raised (UnknownSyringe (PStr name)), r) /\
     class_of (UnknownSyringe (PStr name)) = KeyErrorC).
Proof.
  unfold set_syringe, bind. simpl.
  destruct (SYRINGES !! name) as [s|] eqn:Hs.
  - split; [done|]. split; [|done]. intros s' [= <-]. by eexists.
  - split; [done|]. split; [done|]. done.
Qed.

(** ** Homing *)


(** ** The position query *)

(** Property X17.  [get_position] on an open port writes [M114] and reads
    on until the first line holding "X:", passing over the lines before it
    (empty reads and firmware error lines among them); when that line comes
    among the first twenty reads, it returns the mapping read from it and
    leaves every later line, such as the acknowledgement of [M114],
    unread. *)
Theorem get_position_reads_report
  (float_of_str : string -> option float) (r : Robot)
  (pre : list event) (ev : event) (rest : list event) :
  ser_open r = true ->
  rx r = pre ++ ev :: rest ->
  (length pre < 20)%nat ->
  forallb no_report pre = true ->
  contains "X:" (line_of ev) = true ->
  exists r',
    get_position float_of_str r = (Done (read_report float_of_str (line_of ev)), r') /\
    tx r' = tx r ++ [M114] /\ rx r' = rest /\ clock r' = ev_clock ev.
Proof.
  intros Hopen Hrx Hlen Hpre Hev.
  destruct (get_position_found float_of_str r pre ev rest Hopen Hrx Hlen Hpre Hev)
    as (r' & H1 & H2 & H3 & H4 & _).
  by exists r'.
Qed.

(** The property at work: chatter, a silent read and an error line come
    before the report; the acknowledgement after it stays unread. *)
Lemma get_position_reads_report_witness :
  let chatter := Event ("echo:busy processing" ++ newline) 1 in
  exists r',
    get_position toy_float
      (session [chatter; silence 2; halted_line; position_report; ok_event])
      = (Done (read_report toy_float "X:10.000 Y:20.000 Z:10.000 U:5.000"), r') /\
    tx r' = [M114] /\ rx r' = [ok_event] /\ clock r' = 4%float.
Proof.
  intros chatter.
  apply (get_position_reads_report toy_float
           (session [chatter; silence 2; halted_line; position_report; ok_event])
           [chatter; silence 2; halted_line] position_report [ok_event]);
    [by vm_compute|by vm_compute|simpl; lia|by vm_compute|by vm_compute].
Defined.

(** Property X18.  [get_position] on an open port never raises, whatever
    the firmware says; when none of the next twenty reads holds "X:" it
    returns the empty mapping, having consumed exactly those twenty
    reads. *)
Theorem get_position_gives_up
  (float_of_str : string -> option float) (r : Robot) :
  ser_open r = true ->
  (forall e, fst (get_position float_of_str r) <> Raised e) /\
  ((20 <= length (rx r))%nat ->
   forallb no_report (take 20 (rx r)) = true ->
   exists r',
     get_position float_of_str r = (Done ∅, r') /\
     tx r' = tx r ++ [M114] /\ rx r' = drop 20 (rx r)).
Proof.
  intros Hopen. rewrite (get_position_open _ r Hopen). split.
  - intros e H. by apply (read_position_no_exception float_of_str 20 (push_tx M114 r) e).
  - intros Hlen Hall.
    destruct (read_position_gives_up float_of_str 20 (push_tx M114 r))
      as (r' & Hr & Htx & Hrx & _); [done..|].
    exists r'. by rewrite Hr.
Qed.

(** The property at work: twenty error lines, then the report, which is
    left unread. *)
Lemma get_position_gives_up_witness :
  let r := session (repeat halted_line 20 ++ [position_report]) in
  (forall e, fst (get_position toy_float r) <> Raised e) /\
  exists r',
    get_position toy_float r = (Done ∅, r') /\
    tx r' = [M114] /\ rx r' = [position_report].
Proof.
  intros r.
  destruct (get_position_gives_up toy_float r) as [H1 H2]; [by vm_compute|].
  split; [exact H1|]. apply H2; [simpl; lia|by vm_compute].
Defined.

(** Property X19.  The wait of a command sent after [get_position] starts
    at the lines [get_position] left unread: it ends on the first
    acknowledgement or time-out among them. *)
Theorem get_position_then_send
  (float_of_str : string -> option float) (g : gcode) (tmo : option float)
  (r : Robot) (pre : list event) (ev : event) (unread rest : list event) (c : float) :
  ser_open r = true ->
  rx r = pre ++ ev :: unread ->
  (length pre < 20)%nat ->
  forallb no_report pre = true ->
  contains "X:" (line_of ev) = true ->
  answered (ev_clock ev) tmo unread = Some (rest, c) ->
  exists r',
    (get_position float_of_str ;; send_gcode g true tmo) r = (Done tt, r') /\
    tx r' = tx r ++ [M114; g] /\ rx r' = rest.
Proof.
  intros Hopen Hrx Hlen Hpre Hev Hans.
  destruct (get_position_found float_of_str r pre ev unread
              Hopen Hrx Hlen Hpre Hev) as (r1 & Hrun & Htx & Hrx1 & Hc & Ho & _).
  rewrite <- Hc, <- Hrx1 in Hans.
  destruct (send_gcode_answered g tmo r1 rest c Ho Hans)
    as (r2 & Hrun2 & Htx2 & Hrx2 & _).
  exists r2. unfold bind. rewrite Hrun, Hrun2, Htx2, Htx, <- app_assoc. done.
Qed.

(** The property at work: the firmware answers [M114] with the report and
    one acknowledgement; the wait of the next command ends on that
    acknowledgement, and nothing is left to read. *)
Lemma get_position_then_send_witness :
  let report := Event ("X:10.000 Y:20.000 Z:10.000 U:5.000" ++ newline) 1 in
  exists r',
    (get_position toy_float ;; send_gcode G90 true (Some 5%float))
      (session [report; ok_event]) = (Done tt, r') /\
    tx r' = [M114; G90] /\ rx r' = [].
Proof.
  intros report.
  destruct (get_position_then_send toy_float G90 (Some 5%float)
              (session [report; ok_event]) [] report [ok_event] [] 0)
    as (r' & H1 & H2 & H3);
    [by vm_compute|by vm_compute|simpl; lia|by vm_compute..|].
  by exists r'.
Defined.

(** Property X20.  The mapping [get_position] reads from a report line
    holds [v] under the key [k] exactly when [k] is one of X, Y, Z and U, the
    line has a part [k:val] whose text [val] reads as the number [v], and
    every later part [k:val'] has a text that [float] does not read.  So a
    part with another key, without a colon or with an unreadable text leaves
    no trace, and of the readable parts of an axis the last one counts. *)
Theorem get_position_report_keys
  (float_of_str : string -> option float) (line k : string) (v : float) :
  read_report float_of_str line !! k = Some v <->
  In k ["X"; "Y"; "Z"; "U"] /\
  exists before val after,
    report_parts line = before ++ (k ++ ":" ++ val)%string :: after /\
    float_of_str val = Some v /\
    forall val', In (k ++ ":" ++ val')%string after -> float_of_str val' = None.
Proof.
  unfold read_report. fold (report_parts line).
  rewrite fold_read_part_lookup. split.
  - intros [(before & p & after & Hparts & (Hk & val & -> & Hv) & Hafter)|[H _]];
      [|by rewrite lookup_empty in H].
    split; [by apply axis_key_cases|].
    exists before, val, after. split; [done|]. split; [done|].
    intros val' Hin. destruct (float_of_str val') as [v'|] eqn:Hv'; [|done].
    destruct (Hafter _ v' Hin). split; [done|]. by exists val'.
  - intros (Hk & before & val & after & Hparts & Hv & Hafter).
    apply axis_key_cases in Hk.
    left. exists before, (k ++ ":" ++ val)%string, after.
    split; [done|]. split; [split; [done|by exists val]|].
    intros q v' Hin (_ & val' & -> & Hv'). by rewrite (Hafter _ Hin) in Hv'.
Qed.

(** The property at work: a report with a comma, a part of another key
    and an unreadable second part for X. *)
Lemma get_position_report_keys_witness :
  let line := "X:10.000 E:20.000,X:oops Q:10.000" in
  report_parts line = ["X:10.000"; "E:20.000"; "X:oops"; "Q:10.000"] /\
  read_report toy_float line !! "X" = Some 10%float.
Proof.
  intros line. split; [by vm_compute|].
  apply (get_position_report_keys toy_float line "X" 10). split; [simpl; tauto|].
  exists [], "10.000", ["E:20.000"; "X:oops"; "Q:10.000"].
  split; [by vm_compute|]. split; [by vm_compute|].
  intros val' [H|[H|[H|[]]]]; [discriminate H| |discriminate H].
  vm_compute in H. injection H as <-. by vm_compute.
Defined.

(** Property X21.  When an axis occurs more than once in a report, its last
    occurrence wins: a report that ends with the part [key:val], for an axis
    [key] and a [val] that reads as a number, gives that number for
    [key]. *)
Theorem get_position_report_last_wins
  (float_of_str : string -> option float) (line key val : string) (f : float) :
  is_axis_key key = true -> plain val = true ->
  float_of_str val = Some f ->
  read_report float_of_str (line ++ " " ++ key ++ ":" ++ val) !! key = Some f.
Proof.
  intros Hk Hplain Hf. unfold read_report.
  assert (Htok : plain (key ++ ":" ++ val) = true).
  { unfold plain in *. rewrite !chars_app, !forallb_app, Hplain.
    unfold is_axis_key in Hk. simpl in Hk.
    repeat match type of Hk with
           | (String.eqb ?a ?b || _)%bool = true =>
               destruct (String.eqb_spec a b) as [->|_]; [by vm_compute|]; simpl in Hk
           end.
    done. }
  destruct (replace_plain _ Htok) as [Hrep Hns].
  set (tok := (key ++ ":" ++ val)%string) in *.
  assert (Hchars : replace_char "," " " (chars (line ++ " " ++ tok))
                   = replace_char "," " " (chars line) ++ " "%char :: chars tok).
  { rewrite chars_app. unfold replace_char in *. rewrite map_app. f_equal.
    change (chars (" " ++ tok)) with (" "%char :: chars tok).
    rewrite map_cons. by f_equal. }
  rewrite Hchars. unfold split. rewrite chars_text.
  rewrite split_runs_sep by done.
  rewrite (split_runs_token _ [] Hns)
    by (right; subst tok; rewrite chars_app; by destruct key).
  rewrite map_app, fold_left_app. simpl. rewrite text_chars.
  unfold read_part at 1.
  assert (Hsplit : split_once ":" (chars tok) = Some (chars key, chars val)).
  { subst tok. rewrite chars_app. unfold is_axis_key in Hk. simpl in Hk.
    repeat match type of Hk with
           | (String.eqb ?a ?b || _)%bool = true =>
               destruct (String.eqb_spec a b) as [->|_]; [done|]; simpl in Hk
           end.
    done. }
  rewrite Hsplit, !text_chars. fold (is_axis_key key). rewrite Hk, Hf.
  apply lookup_insert_eq.
Qed.

(** The property at work: in a report that goes on with the step counts,
    the count of X replaces the position of X. *)
Lemma get_position_report_last_wins_witness :
  read_report toy_float
    ("X:10.000 Y:20.000 Z:10.000 E:0.00 Count" ++ " " ++ "X" ++ ":" ++ "800") !! "X"
  = Some 800%float.
Proof.
  apply (get_position_report_last_wins toy_float); by vm_compute.
Defined.

(** ** Deck and labware *)

(** Property X22.  The slots of the deck are exactly "1" to "6": the centre
    of a slot is found exactly for these six strings, and any other key, a
    number for instance, raises the [KeyError] of that key. *)
Theorem registered_slots (key : pyval) :
  ((exists c, slot_center_machine new_Deck key = inr c) <->
   (exists k, key = PStr k /\ In k ["1"; "2"; "3"; "4"; "5"; "6"])) /\
  ((exists c, slot_center_machine new_Deck key = inr c) \/
   slot_center_machine new_Deck key = inl (KeyError key)) /\
  class_of (KeyError key) = KeyErrorC.
Proof.
  assert (Hin : forall k s, slots new_Deck !! k = Some s ->
                            In k ["1"; "2"; "3"; "4"; "5"; "6"]).
  { intros k s H. unfold new_Deck in H. simpl in H.
    repeat (apply lookup_insert_Some in H as [[<- _]|[_ H]]; [simpl; tauto|]).
    by rewrite lookup_empty in H. }
  split; [split|split; [|done]].
  - intros [c H]. unfold slot_center_machine, slots_item in H.
    destruct key as [|f|k]; [done|done|].
    destruct (slots new_Deck !! k) as [s|] eqn:Hk; [|done].
    exists k. split; [done|]. by apply (Hin k s).
  - intros (k & -> & H). simpl in H.
    destruct H as [<-|[<-|[<-|[<-|[<-|[<-|[]]]]]]]; eexists; by vm_compute.
  - unfold slot_center_machine, slots_item.
    destruct key as [|f|k]; [by right|by right|].
    destruct (slots new_Deck !! k) as [s|] eqn:Hk; [left; by eexists|by right].
Qed.

(** Property X23.  On every slot of the deck the single well "A1" of the
    beaker, and of the tip waste box, is the centre of the slot. *)
Theorem beaker_well_is_slot_centre (key : pyval) (s : DeckSlot) (lbl : string) :
  slots_item new_Deck key = inr s ->
  well_position_machine (MkInstance LABWARE_BEAKER_1WELL s lbl new_Deck) (PStr "A1")
    = slot_center_machine new_Deck key /\
  well_position_machine (MkInstance LABWARE_TIPWASTE_BOX s lbl new_Deck) (PStr "A1")
    = slot_center_machine new_Deck key.
Proof.
  intros H. unfold slot_center_machine. rewrite H.
  unfold slots_item in H. destruct key as [|f|k]; [done|done|].
  destruct (slots new_Deck !! k) as [s'|] eqn:Hk; [|done]. injection H as ->.
  unfold new_Deck in Hk. simpl in Hk.
  repeat (apply lookup_insert_Some in Hk as [[_ <-]|[_ Hk]]; [by vm_compute|]).
  by rewrite lookup_empty in Hk.
Qed.

(** The property at work: slot "3". *)
Lemma beaker_well_is_slot_centre_witness :
  well_position_machine
    (MkInstance LABWARE_BEAKER_1WELL (MkDeckSlot "3" 90.9 170) "beaker" new_Deck)
    (PStr "A1") = slot_center_machine new_Deck (PStr "3") /\
  well_position_machine
    (MkInstance LABWARE_TIPWASTE_BOX (MkDeckSlot "3" 90.9 170) "beaker" new_Deck)
    (PStr "A1") = slot_center_machine new_Deck (PStr "3").
Proof.
  apply (beaker_well_is_slot_centre (PStr "3")). by vm_compute.
Defined.


(** ** Protocols *)

(** Property X25.  [on_run_protocol] never raises: it returns (or waits for
    the firmware).  Without a robot it shows the not-connected box and the
    failure, and leaves the session alone.  With a robot, when it returns it
    has logged either every step and the end of the protocol, or the steps
    up to a failing one followed by the box and the log line of that
    failure. *)
Theorem on_run_protocol_never_raises
  (float_of_str : string -> option float) (g : Panel) (steps : list Step) (r : Robot) :
  exists shown o r',
    on_run_protocol float_of_str g steps r = (shown, o, r') /\
    (o = Done tt \/ o = Starved) /\
    (connected g = false ->
     shown = [NotConnectedBox; FailedBox PanelNotConnected; LogFailed PanelNotConnected]
     /\ o = Done tt /\ r' = r) /\
    (connected g = true -> o = Done tt ->
     shown = LogRunning :: log_steps 1 steps ++ [LogFinished] \/
     exists done_ e,
       done_ `prefix_of` log_steps 1 steps /\
       shown = LogRunning :: done_ ++ [FailedBox e; LogFailed e]).
Proof.
  unfold on_run_protocol, require_robot, connected.
  destruct (robot_connected g), (panel_deck g) as [d|]; simpl;
    try (do 3 eexists; split; [reflexivity|]; split; [by left|]; split; [done|done]).
  destruct (run_steps float_of_str g 1 steps r) as [[sh o] r'] eqn:Hrun.
  destruct (run_steps_shown float_of_str g steps 1 r sh o r' Hrun) as [Hp Hd].
  destruct o as [[]|e|]; do 3 eexists; (split; [reflexivity|]).
  - split; [by left|]. split; [done|]. intros _ _. left. by rewrite Hd.
  - split; [by left|]. split; [done|]. intros _ _. right. by exists sh, e.
  - split; [by right|]. split; [done|]. done.
Qed.

(** Property X26.  [on_run_protocol] stops at the first step that raises:
    the steps before it have run, the failure is shown and logged, the
    session is the one the failing step left, and the steps after it are not
    run, whatever they are. *)
Theorem on_run_protocol_halts_at_first_failure
  (float_of_str : string -> option float) (g : Panel)
  (pre : list Step) (bad : Step) (post : list Step) (e : exn)
  (r r1 r2 : Robot) (shown : list notice) :
  connected g = true ->
  run_steps float_of_str g 1 pre r = (shown, Done tt, r1) ->
  _run_single_step float_of_str g bad r1 = (Raised e, r2) ->
  on_run_protocol float_of_str g (pre ++ bad :: post) r =
    (LogRunning :: log_steps 1 (pre ++ [bad]) ++ [FailedBox e; LogFailed e],
     Done tt, r2) /\
  on_run_protocol float_of_str g (pre ++ bad :: post) r =
    on_run_protocol float_of_str g (pre ++ [bad]) r.
Proof.
  intros Hc Hpre Hbad.
  assert (Hrun : forall post',
    on_run_protocol float_of_str g (pre ++ bad :: post') r =
      (LogRunning :: log_steps 1 (pre ++ [bad]) ++ [FailedBox e; LogFailed e],
       Done tt, r2)).
  { intros post'. unfold on_run_protocol, require_robot. unfold connected in Hc.
    destruct (robot_connected g), (panel_deck g) as [d|]; try done. simpl.
    rewrite (run_steps_app float_of_str g pre 1 (bad :: post') r shown r1 Hpre).
    cbn [run_steps]. rewrite Hbad.
    destruct (run_steps_shown float_of_str g pre 1 r shown (Done tt) r1 Hpre)
      as [_ Hd]. rewrite (Hd eq_refl).
    unfold log_steps. rewrite imap_app. simpl. rewrite Nat.add_0_r.
    by rewrite <- app_assoc. }
  split; [apply Hrun|]. by rewrite !Hrun.
Qed.

(** The property at work: a dwell, a transfer step without parameters, and
    a homing step that is never reached. *)
Lemma on_run_protocol_halts_at_first_failure_witness :
  let after_dwell := MkRobot true [ok_event] 0 [G4_P 1000] [] None in
  let e := KeyError (PStr "src_slot") in
  on_run_protocol toy_float ready_panel
    ([dwell_step] ++ empty_transfer_step :: [home_step]) (acking 2)
    = (LogRunning :: log_steps 1 ([dwell_step] ++ [empty_transfer_step])
         ++ [FailedBox e; LogFailed e],
       Done tt, after_dwell) /\
  on_run_protocol toy_float ready_panel
    ([dwell_step] ++ empty_transfer_step :: [home_step]) (acking 2)
    = on_run_protocol toy_float ready_panel
        ([dwell_step] ++ [empty_transfer_step]) (acking 2).
Proof.
  intros after_dwell e.
  apply (on_run_protocol_halts_at_first_failure toy_float ready_panel
           [dwell_step] empty_transfer_step [home_step] e
           (acking 2) after_dwell after_dwell [LogStep 1 dwell_step]);
    by vm_compute.
Defined.

(** Property X27.  Steps rejected before anything is sent.  Without a robot
    every step raises the not-connected [RuntimeError]; a step whose kind is
    none of the seven known kinds raises the unknown-step [ValueError]; a
    step that lacks one of the parameters its kind reads raises the
    [KeyError] of a missing parameter.  In each case the session is
    untouched. *)
Theorem step_rejected_before_sending
  (float_of_str : string -> option float) (g : Panel) (step : Step) (r : Robot) :
  (connected g = false ->
   _run_single_step float_of_str g step r = (Raised PanelNotConnected, r)) /\
  (connected g = true ->
   forallb (fun k => negb (is_str (step_type step) k)) step_kinds = true ->
   _run_single_step float_of_str g step r
     = (Raised (UnknownStepType (step_type step)), r)) /\
  (connected g = true ->
   forall kind key,
     In (kind, key) required_params ->
     step_type step = PStr kind -> params step !! key = None ->
     exists missing,
       params step !! missing = None /\
       _run_single_step float_of_str g step r = (Raised (KeyError (PStr missing)), r)).
Proof.
  unfold connected, _run_single_step, require_robot.
  destruct (robot_connected g), (panel_deck g) as [d|]; simpl;
    try (split; [done|]; split; [done|done]).
  split; [done|]. split.
  - intros _ H. unfold bind at 1. cbn [ret].
    repeat (apply andb_prop in H as [?%negb_true_iff H]).
    by repeat match goal with Hk : is_str _ _ = false |- _ => rewrite Hk; clear Hk end.
  - intros _ kind key Hin Hty Hkey. destruct step as [ty p]. simpl in *. subst ty.
    unfold bind at 1. cbn [ret].
    repeat (destruct Hin as [[= <- <-]|Hin];
            [cbn [is_str String.eqb Ascii.eqb Bool.eqb];
             repeat lazymatch goal with
               | |- context [bind (item p ?k) _] =>
                   let v := fresh "v" in
                   let Hk := fresh "Hk" in
                   destruct (p !! k) as [v|] eqn:Hk;
                   [ unfold bind at 1; rewrite (item_present p k v _ Hk)
                   | exists k; split; [exact Hk|]; unfold bind at 1;
                     by rewrite (item_missing p k _ Hk) ]
               end;
             congruence |]).
    destruct Hin.
Qed.
